(** * pushjack.apns: the legacy binary APNs client

    A shallow embedding of [pushjack/apns.py] (Python 2) and the properties of
    its wire formats, its validation and its use of the connection.

    Byte strings ([str] values used as buffers) are lists of [byte]; the
    device token, which the API takes as hexadecimal text, is a [string].
    Python integers are [Z].  Code that raises returns [Raise e]; code that
    touches the connection, the clock or the file system runs in the monad
    [M] over an explicit [world]. *)

From Stdlib Require Import ZArith List Bool Lia.
From Stdlib.Strings Require Import String Ascii Byte.
Import ListNotations.
Local Open Scope Z_scope.

(** ** Exceptions *)

(** What the socket layer can raise out of [connect], [recv]: [socket.timeout],
    [ssl.SSLError] with its message, and any other [socket.error]. *)
Inductive io_error : Type :=
| socket_timeout
| ssl_SSLError (message : string)
| socket_error (message : string).

(** The messages of the plain [APNSError]s the module raises itself. *)
Inductive apns_message : Type :=
| InvalidTokenFormat                      (* 'Invalid token format. Expected 64 character hex string.' *)
| MissingCertificate                      (* 'Missing certificate file. Cannot send notifications.' *)
| CertificateNotReadable (certfile : string)
| BadResponseCommand (found : Z).         (* 'Error response command must be 8. Found: ...' *)

Inductive exn : Type :=
| APNSError (m : apns_message)
| APNSDataOverflow (max_size : Z)
| APNSServerError (status identifier : Z)
| struct_error
| binascii_TypeError
| ValueError
| IOError (e : io_error).

Inductive result (A : Type) : Type :=
| Ok (a : A)
| Raise (e : exn).
Arguments Ok {A} a.
Arguments Raise {A} e.

Definition raises {A} (r : result A) : bool :=
  match r with Ok _ => false | Raise _ => true end.

(** ** Bytes and big-endian integers *)

Definition bytes := list byte.

Definition Z_of_byte (b : byte) : Z := Z.of_N (Byte.to_N b).

Definition byte_of_Z (z : Z) : byte :=
  match Byte.of_N (Z.to_N (z mod 256)) with
  | Some b => b
  | None => x00
  end.

(** The [n] low-order bytes of [z], most significant first (network order). *)
Fixpoint be_bytes (n : nat) (z : Z) : bytes :=
  match n with
  | O => []
  | S k => byte_of_Z (z / 256 ^ Z.of_nat k) :: be_bytes k z
  end.

Definition be_value (bs : bytes) : Z :=
  fold_left (fun acc b => acc * 256 + Z_of_byte b) bs 0.

(** Python truthiness of a [str]: non-empty. *)
Definition truthy {A} (data : list A) : bool :=
  match data with [] => false | _ :: _ => true end.

Definition string_truthy (s : string) : bool :=
  match s with EmptyString => false | String _ _ => true end.

(** ** binascii: unhexlify and the 'hex' codec *)

Definition hex_value (c : ascii) : option Z :=
  let n := Z.of_N (N_of_ascii c) in
  if (48 <=? n) && (n <=? 57) then Some (n - 48)
  else if (97 <=? n) && (n <=? 102) then Some (n - 87)
  else if (65 <=? n) && (n <=? 70) then Some (n - 55)
  else None.

(** [binascii.unhexlify]: two hexadecimal digits per byte; an odd length or a
    character that is no hexadecimal digit raises [TypeError]. *)
Fixpoint unhexlify (s : string) : result bytes :=
  match s with
  | EmptyString => Ok []
  | String _ EmptyString => Raise binascii_TypeError
  | String a (String b rest) =>
      match hex_value a, hex_value b with
      | Some hi, Some lo =>
          match unhexlify rest with
          | Ok bs => Ok (byte_of_Z (16 * hi + lo) :: bs)
          | Raise e => Raise e
          end
      | _, _ => Raise binascii_TypeError
      end
  end.

Definition hex_digit (d : Z) : ascii :=
  if d <? 10 then ascii_of_N (Z.to_N (48 + d)) else ascii_of_N (Z.to_N (87 + d)).

(** [s.encode('hex')]: two lower-case digits per byte. *)
Fixpoint hexlify (bs : bytes) : string :=
  match bs with
  | [] => EmptyString
  | b :: rest =>
      String (hex_digit (Z_of_byte b / 16))
        (String (hex_digit (Z_of_byte b mod 16)) (hexlify rest))
  end.

(** ** struct: the format codes the module uses

    All formats of the module are in network order with standard sizes, and
    ['Ns'] has no alignment, so a format is the list of its codes. *)

Inductive fmt_code : Type :=
| fmt_B
| fmt_H
| fmt_I
| fmt_L
| fmt_s (count : nat).

Inductive pyval : Type :=
| PInt (z : Z)
| PStr (s : bytes).

Definition code_size (c : fmt_code) : nat :=
  match c with
  | fmt_B => 1
  | fmt_H => 2
  | fmt_I => 4
  | fmt_L => 4
  | fmt_s n => n
  end.

Fixpoint calcsize (f : list fmt_code) : nat :=
  match f with
  | [] => 0
  | c :: f' => code_size c + calcsize f'
  end.

Definition pack_int (size : nat) (z : Z) : result bytes :=
  if (0 <=? z) && (z <? 256 ^ Z.of_nat size)
  then Ok (be_bytes size z)
  else Raise struct_error.

Definition pack_value (c : fmt_code) (v : pyval) : result bytes :=
  match c, v with
  | fmt_s n, PStr s => Ok (firstn n s ++ repeat x00 (n - List.length s))
  | fmt_s _, PInt _ => Raise struct_error
  | _, PInt z => pack_int (code_size c) z
  | _, PStr _ => Raise struct_error
  end.

Fixpoint struct_pack (f : list fmt_code) (vs : list pyval) : result bytes :=
  match f, vs with
  | [], [] => Ok []
  | c :: f', v :: vs' =>
      match pack_value c v with
      | Ok b =>
          match struct_pack f' vs' with
          | Ok r => Ok (b ++ r)
          | Raise e => Raise e
          end
      | Raise e => Raise e
      end
  | _, _ => Raise struct_error
  end.

Definition unpack_value (c : fmt_code) (data : bytes) : pyval :=
  match c with
  | fmt_s _ => PStr data
  | _ => PInt (be_value data)
  end.

Fixpoint unpack_fields (f : list fmt_code) (data : bytes) : list pyval :=
  match f with
  | [] => []
  | c :: f' =>
      unpack_value c (firstn (code_size c) data)
        :: unpack_fields f' (skipn (code_size c) data)
  end.

(** [struct.unpack]: the buffer must have exactly the size of the format. *)
Definition struct_unpack (f : list fmt_code) (data : bytes) : result (list pyval) :=
  if Nat.eqb (List.length data) (calcsize f)
  then Ok (unpack_fields f data)
  else Raise struct_error.

(** [struct.unpack_from(f, data, 0)]: the buffer must have at least the size
    of the format. *)
Definition struct_unpack_from (f : list fmt_code) (data : bytes) : result (list pyval) :=
  if Nat.leb (calcsize f) (List.length data)
  then Ok (unpack_fields f data)
  else Raise struct_error.

(** ** Token validation and the frame *)

Definition APNS_ERROR_RESPONSE_COMMAND : Z := 8.

Definition DEFAULT_EXPIRATION_OFFSET : Z := 60 * 60 * 24 * 30.

(** [is_valid_token]: both asserts inside one [try]; any exception, the one of
    [unhexlify] or a failed assert, gives [False]. *)
Definition is_valid_token (token : string) : bool :=
  match unhexlify token with
  | Ok token_bin =>
      if truthy token_bin
      then Nat.eqb (String.length token) 64
      else false
  | Raise _ => false
  end.

Definition pack_frame (token : string) (payload : bytes)
    (identifier expiration priority : Z) : result bytes :=
  match unhexlify token with
  | Raise e => Raise e
  | Ok token_bin =>
      let token_len := List.length token_bin in
      let payload_len := List.length payload in
      let frame_len := (3 * 5 + token_len + payload_len + 4 + 4 + 1)%nat in
      let frame_fmt :=
        [fmt_B; fmt_I; fmt_B; fmt_H; fmt_s token_len; fmt_B; fmt_H; fmt_s payload_len;
         fmt_B; fmt_H; fmt_I; fmt_B; fmt_H; fmt_I; fmt_B; fmt_H; fmt_B] in
      struct_pack frame_fmt
        [PInt 2; PInt (Z.of_nat frame_len);
         PInt 1; PInt (Z.of_nat token_len); PStr token_bin;
         PInt 2; PInt (Z.of_nat payload_len); PStr payload;
         PInt 3; PInt 4; PInt identifier;
         PInt 4; PInt 4; PInt expiration;
         PInt 5; PInt 1; PInt priority]
  end.

(** ** The world: sockets, clock, certificate files

    A connection is a Python object that [send_bulk] hands to [send] and to
    [check_errors]; the model keeps the sockets in a store and passes the
    handle.  What the peer delivers is a script: each [recv] takes the next
    delivery, at most [bufsize] bytes of it, and an exhausted script is the
    peer's end of stream (the empty read).  A script is finite: a peer that
    times out for ever is outside the model.  Timeouts are durations, so
    [settimeout] has no value to refuse. *)

Definition handle := nat.

Inductive delivery : Type :=
| Data (bs : bytes)
| Fails (e : io_error).

Record conn : Type := mkConn {
  c_timeout : option N;          (* None: blocking; Some t: t milliseconds *)
  c_inbox : list delivery;
  c_write_errors : list (option io_error);
  c_closed : bool
}.

(** What a host does once connected to: what it delivers, and what the
    successive writes give ([Some e]: that write raises [e]; [None], or the
    script exhausted: the bytes are taken). *)
Record peer : Type := mkPeer {
  p_inbox : list delivery;
  p_write_errors : list (option io_error)
}.

(** The trace lists the calls on sockets, oldest first, and marks the calls of
    [create_payload] and of [check_errors]. *)
Inductive event : Type :=
| EvConnect (h : handle) (host : string) (port : Z)
| EvWrite (h : handle) (data : bytes)
| EvSetTimeout (h : handle) (t : option N)
| EvRecv (h : handle) (bufsize : nat)
| EvClose (h : handle)
| EvCreatePayload
| EvCheckErrors (h : handle).

Record world : Type := mkWorld {
  w_socks : handle -> conn;
  w_next : handle;                              (* the next socket to be created *)
  w_trace : list event;
  w_clock : nat -> Z;                           (* successive readings of time.time() *)
  w_ticks : nat;
  w_readable : string -> bool;                  (* files that open and read *)
  w_peer : string -> Z -> io_error + peer       (* what connecting to host:port gives *)
}.

Definition log (e : event) (w : world) : world :=
  mkWorld (w_socks w) (w_next w) (w_trace w ++ [e]) (w_clock w) (w_ticks w)
          (w_readable w) (w_peer w).

Definition set_sock (h : handle) (c : conn) (w : world) : world :=
  mkWorld (fun h' => if Nat.eqb h' h then c else w_socks w h') (w_next w) (w_trace w)
          (w_clock w) (w_ticks w) (w_readable w) (w_peer w).

Definition new_sock (c : conn) (w : world) : world :=
  mkWorld (fun h' => if Nat.eqb h' (w_next w) then c else w_socks w h') (S (w_next w))
          (w_trace w) (w_clock w) (w_ticks w) (w_readable w) (w_peer w).

Definition tick (w : world) : world :=
  mkWorld (w_socks w) (w_next w) (w_trace w) (w_clock w) (S (w_ticks w))
          (w_readable w) (w_peer w).

Definition is_net_event (e : event) : bool :=
  match e with
  | EvConnect _ _ _ | EvWrite _ _ | EvSetTimeout _ _ | EvRecv _ _ | EvClose _ => true
  | EvCreatePayload | EvCheckErrors _ => false
  end.

(** The network calls made so far. *)
Definition net_trace (w : world) : list event := filter is_net_event (w_trace w).

(** ** The monad of effectful code *)

Definition M (A : Type) : Type := world -> result A * world.

Definition ret {A} (a : A) : M A := fun w => (Ok a, w).

Definition raise {A} (e : exn) : M A := fun w => (Raise e, w).

Definition lift {A} (r : result A) : M A := fun w => (r, w).

Definition bind {A B} (m : M A) (k : A -> M B) : M B :=
  fun w =>
    match m w with
    | (Ok a, w') => k a w'
    | (Raise e, w') => (Raise e, w')
    end.

Notation "x <- m ;; k" := (bind m (fun x => k))
  (at level 61, m at next level, right associativity).
Notation "m ;; k" := (bind m (fun _ => k))
  (at level 61, right associativity).

Definition mark (e : event) : M unit := fun w => (Ok tt, log e w).

Definition when (b : bool) (m : M unit) : M unit := if b then m else ret tt.

Definition try_except {A} (body : M A) (handler : exn -> M A) : M A :=
  fun w =>
    match body w with
    | (Ok a, w') => (Ok a, w')
    | (Raise e, w') => handler e w'
    end.

(** [try: body finally: final]; an exception of [final] replaces the outcome
    of [body]. *)
Definition try_finally {A} (body : M A) (final : M unit) : M A :=
  fun w =>
    let (r, w1) := body w in
    match final w1 with
    | (Ok _, w2) => (r, w2)
    | (Raise e, w2) => (Raise e, w2)
    end.

(** [for x in xs: body(x)] *)
Fixpoint for_each {A} (xs : list A) (body : A -> M unit) : M unit :=
  match xs with
  | [] => ret tt
  | x :: rest => body x ;; for_each rest body
  end.

Fixpoint enumerate_from {A} (start : nat) (xs : list A) : list (Z * A) :=
  match xs with
  | [] => []
  | x :: rest => (Z.of_nat start, x) :: enumerate_from (S start) rest
  end.

Definition enumerate {A} (xs : list A) : list (Z * A) := enumerate_from 0 xs.

(** ** Socket operations *)

Definition take_delivery (bufsize : nat) (inbox : list delivery)
  : result bytes * list delivery :=
  match inbox with
  | [] => (Ok [], [])
  | Fails e :: rest => (Raise (IOError e), rest)
  | Data bs :: rest =>
      if Nat.leb (List.length bs) bufsize
      then (Ok bs, rest)
      else (Ok (firstn bufsize bs), Data (skipn bufsize bs) :: rest)
  end.

Definition sock_gettimeout (h : handle) : M (option N) :=
  fun w => (Ok (c_timeout (w_socks w h)), w).

Definition sock_settimeout (h : handle) (t : option N) : M unit :=
  fun w =>
    let c := w_socks w h in
    (Ok tt,
     set_sock h (mkConn t (c_inbox c) (c_write_errors c) (c_closed c))
              (log (EvSetTimeout h t) w)).

Definition sock_recv (h : handle) (bufsize : nat) : M bytes :=
  fun w =>
    let c := w_socks w h in
    let (r, inbox') := take_delivery bufsize (c_inbox c) in
    (r,
     set_sock h (mkConn (c_timeout c) inbox' (c_write_errors c) (c_closed c))
              (log (EvRecv h bufsize) w)).

Definition sock_write (h : handle) (data : bytes) : M unit :=
  fun w =>
    let c := w_socks w h in
    match c_write_errors c with
    | [] => (Ok tt, log (EvWrite h data) w)
    | None :: rest =>
        (Ok tt,
         set_sock h (mkConn (c_timeout c) (c_inbox c) rest (c_closed c))
                  (log (EvWrite h data) w))
    | Some e :: rest =>
        (Raise (IOError e),
         set_sock h (mkConn (c_timeout c) (c_inbox c) rest (c_closed c))
                  (log (EvWrite h data) w))
    end.

Definition sock_close (h : handle) : M unit :=
  fun w =>
    let c := w_socks w h in
    (Ok tt,
     set_sock h (mkConn (c_timeout c) (c_inbox c) (c_write_errors c) true)
              (log (EvClose h) w)).

(** [socket.socket()], [ssl.wrap_socket] and [connect]: a new socket, blocking,
    and the peer's script or the error of the connection attempt. *)
Definition sock_connect (host : string) (port : Z) : M handle :=
  fun w =>
    let h := w_next w in
    match w_peer w host port with
    | inl e =>
        (Raise (IOError e),
         new_sock (mkConn None [] [] false) (log (EvConnect h host port) w))
    | inr p =>
        (Ok h,
         new_sock (mkConn None (p_inbox p) (p_write_errors p) false)
                  (log (EvConnect h host port) w))
    end.

Definition file_read (path : string) : M bool :=
  fun w => (Ok (w_readable w path), w).

Definition time_time : M Z :=
  fun w => (Ok (w_clock w (w_ticks w)), tick w).

(** [with closing(open) as c: body(c)] *)
Definition with_closing {A} (open : M handle) (body : handle -> M A) : M A :=
  c <- open ;;
  try_finally (body c) (sock_close c).

(** ['timed out' in message] *)
Fixpoint contains (needle hay : string) : bool :=
  if String.prefix needle hay then true
  else match hay with
       | EmptyString => false
       | String _ rest => contains needle rest
       end.

(** The handlers shared by [check_errors] and [receive_feedback]:
    [except socket.timeout: pass] and
    [except ssl.SSLError as ex: if 'timed out' not in ex.message: raise]. *)
Definition suppress_timeouts {A} (otherwise : A) (ex : exn) : M A :=
  match ex with
  | IOError socket_timeout => ret otherwise
  | IOError (ssl_SSLError message) =>
      if negb (contains "timed out" message) then raise ex else ret otherwise
  | _ => raise ex
  end.

(** ** Configuration *)

Record Config : Type := mkConfig {
  APNS_HOST : string;
  APNS_PORT : Z;
  APNS_FEEDBACK_HOST : string;
  APNS_FEEDBACK_PORT : Z;
  APNS_CERTIFICATE : string;              (* empty: no certificate configured *)
  APNS_ERROR_TIMEOUT : option N;
  APNS_MAX_NOTIFICATION_SIZE : Z;
  APNS_DEFAULT_EXPIRATION_OFFSET : Z
}.

(** ** Connections *)

Definition create_socket (host : string) (port : Z) (certfile : string) : M handle :=
  if negb (string_truthy certfile)
  then raise (APNSError MissingCertificate)
  else
    readable <- file_read certfile ;;
    if negb readable
    then raise (APNSError (CertificateNotReadable certfile))
    else sock_connect host port.

Definition create_push_socket (config : Config) : M handle :=
  create_socket (APNS_HOST config) (APNS_PORT config) (APNS_CERTIFICATE config).

Definition create_feedback_socket (config : Config) : M handle :=
  create_socket (APNS_FEEDBACK_HOST config) (APNS_FEEDBACK_PORT config)
                (APNS_CERTIFICATE config).

(** ** The error channel *)

(** Modelled from the spec: [raise_apns_server_error] of [pushjack/exceptions.py],
    which is not among the sources; it raises the server error of the status
    code, "each carrying the offending identifier". *)
Definition raise_apns_server_error (status identifier : Z) : M unit :=
  raise (APNSServerError status identifier).

Definition check_errors (connection : handle) (config : Config) : M unit :=
  mark (EvCheckErrors connection) ;;
  let timeout := APNS_ERROR_TIMEOUT config in
  match timeout with
  | None => ret tt
  | Some _ =>
      original_timeout <- sock_gettimeout connection ;;
      try_finally
        (try_except
           (sock_settimeout connection timeout ;;
            data <- sock_recv connection 6 ;;
            if truthy data then
              fields <- lift (struct_unpack [fmt_B; fmt_B; fmt_I] data) ;;
              match fields with
              | [PInt command; PInt status; PInt identifier] =>
                  when (negb (command =? APNS_ERROR_RESPONSE_COMMAND))
                       (raise (APNSError (BadResponseCommand command))) ;;
                  when (negb (status =? 0))
                       (raise_apns_server_error status identifier)
              | _ => raise ValueError
              end
            else ret tt)
           (suppress_timeouts tt))
        (sock_settimeout connection original_timeout)
  end.

(** ** The feedback stream *)

Definition read_and_unpack (connection : handle) (data_format : list fmt_code)
  : M (option (list pyval)) :=
  let length := calcsize data_format in
  data <- sock_recv connection length ;;
  if truthy data
  then fields <- lift (struct_unpack_from data_format data) ;; ret (Some fields)
  else ret None.

(** One turn of [while has_data]: the new [has_data] and [expired_tokens]. *)
Definition receive_feedback_turn (connection : handle)
    (expired_tokens : list (string * Z)) : M (bool * list (string * Z)) :=
  let header_format := [fmt_L; fmt_H] in
  try_except
    (header_data <- read_and_unpack connection header_format ;;
     match header_data with
     | Some [PInt timestamp; PInt token_length] =>
         device_token <- read_and_unpack connection [fmt_s (Z.to_nat token_length)] ;;
         match device_token with
         | Some (PStr s :: _) =>
             let token := hexlify s in
             ret (true, expired_tokens ++ [(token, timestamp)])
         | Some _ => raise ValueError
         | None => ret (true, expired_tokens)
         end
     | Some _ => raise ValueError
     | None => ret (false, expired_tokens)
     end)
    (suppress_timeouts (true, expired_tokens)).

(** The loop, with a bound on its turns: [None] when the bound is reached. *)
Fixpoint receive_feedback_loop (fuel : nat) (connection : handle)
    (expired_tokens : list (string * Z)) (w : world)
  : option (result (list (string * Z)) * world) :=
  match fuel with
  | O => None
  | S fuel' =>
      match receive_feedback_turn connection expired_tokens w with
      | (Ok (true, expired_tokens'), w') =>
          receive_feedback_loop fuel' connection expired_tokens' w'
      | (Ok (false, expired_tokens'), w') => Some (Ok expired_tokens', w')
      | (Raise e, w') => Some (Raise e, w')
      end
  end.

Definition receive_feedback (fuel : nat) (connection : handle) (w : world)
  : option (result (list (string * Z)) * world) :=
  receive_feedback_loop fuel connection [] w.

(** [get_expired_tokens]: the feedback connection is opened, drained and
    closed. *)
Definition get_expired_tokens (fuel : nat) (config : Config) (w : world)
  : option (result (list (string * Z)) * world) :=
  match create_feedback_socket config w with
  | (Raise e, w1) => Some (Raise e, w1)
  | (Ok connection, w1) =>
      match receive_feedback fuel connection w1 with
      | Some (r, w2) => Some (r, snd (sock_close connection w2))
      | None => None
      end
  end.

(** What is left to be delivered on a socket: a bound on the turns of the loop. *)
Fixpoint pending (inbox : list delivery) : nat :=
  match inbox with
  | [] => 0
  | Data bs :: rest => S (List.length bs + pending rest)
  | Fails _ :: rest => S (pending rest)
  end.

(** ** The sender *)

Section Sender.

(** The payload builder is outside this development: [create_payload] turns
    the alert and the recognised keyword options into the serialized payload
    ([json_dumps] of [pushjack/utils.py] is not among the sources). *)
Variables Alert Options : Type.
Variable create_payload : Alert -> Options -> bytes.

Definition call_create_payload (alert : Alert) (options : Options) : M bytes :=
  mark EvCreatePayload ;; ret (create_payload alert options).

Definition send (token : string) (alert : Alert) (config : Config)
    (identifier : Z) (expiration : option Z) (priority : Z)
    (payload : option bytes) (connection : option handle)
    (options : Options) : M unit :=
  if negb (is_valid_token token)
  then raise (APNSError InvalidTokenFormat)
  else
    payload <- match payload with
               | None => call_create_payload alert options
               | Some p => ret p
               end ;;
    let max_size := APNS_MAX_NOTIFICATION_SIZE config in
    let default_expiration_offset := APNS_DEFAULT_EXPIRATION_OFFSET config in
    if Z.of_nat (List.length payload) >? max_size
    then raise (APNSDataOverflow max_size)
    else
      expiration_time <- match expiration with
                         | Some e => ret e
                         | None => now <- time_time ;; ret (now + default_expiration_offset)
                         end ;;
      frame <- lift (pack_frame token payload identifier expiration_time priority) ;;
      match connection with
      | Some connection => sock_write connection frame
      | None =>
          with_closing (create_push_socket config)
            (fun _connection =>
               sock_write _connection frame ;;
               check_errors _connection config)
      end.

(** The keyword options of [send_bulk]: [expiration] and [priority], when
    given, reach [send] as its own parameters; the others are payload fields. *)
Record BulkOptions : Type := mkBulkOptions {
  kw_expiration : option Z;
  kw_priority : option Z;
  kw_fields : Options
}.

Definition send_bulk (tokens : list string) (alert : Alert) (config : Config)
    (payload : option bytes) (options : BulkOptions) : M unit :=
  payload <- match payload with
             | None => call_create_payload alert (kw_fields options)
             | Some p => ret p
             end ;;
  with_closing (create_push_socket config)
    (fun connection =>
       for_each (enumerate tokens)
         (fun '(identifier, token) =>
            send token alert config identifier
                 (kw_expiration options)
                 (match kw_priority options with Some p => p | None => 10 end)
                 (Some payload) (Some connection) (kw_fields options)) ;;
       check_errors connection config).

End Sender.

Arguments send {Alert Options} create_payload token alert config identifier
  expiration priority payload connection options _.
Arguments send_bulk {Alert Options} create_payload tokens alert config payload options _.
Arguments mkBulkOptions {Options} kw_expiration kw_priority kw_fields.
Arguments kw_expiration {Options} b.
Arguments kw_priority {Options} b.
Arguments kw_fields {Options} b.

(** ** Sample data *)

Definition sample_token : string :=
  "a1a1a1a1a1a1a1a1a1a1a1a1a1a1a1a1a1a1a1a1a1a1a1a1a1a1a1a1a1a1a1a1"%string.

Definition hello : bytes := [x68; x65; x6c; x6c; x6f].

Definition sample_config : Config :=
  mkConfig "gateway.push.apple.com" 2195 "feedback.push.apple.com" 2196
           "cert.pem" (Some 500%N) 2048 DEFAULT_EXPIRATION_OFFSET.

(** A world with no socket yet, where the certificate reads and every host
    accepts the connection, takes every write and delivers [inbox]. *)
Definition quiet_world (inbox : list delivery) : world :=
  mkWorld (fun _ => mkConn None [] [] true) 0%nat [] (fun _ => 1500000000)
          0%nat (fun _ => true) (fun _ _ => inr (mkPeer inbox [])).

(** A world whose socket 0 is open and delivers [inbox]. *)
Definition connected_world (inbox : list delivery) : world :=
  mkWorld (fun _ => mkConn None inbox [] false) 1%nat [] (fun _ => 1500000000)
          0%nat (fun _ => true) (fun _ _ => inr (mkPeer [] [])).

(** ** The wire formats, as the protocol describes them *)

(** A hexadecimal digit, of either case. *)
Definition is_hex_char (c : ascii) : bool :=
  existsb (Ascii.eqb c) (list_ascii_of_string "0123456789abcdefABCDEF").

(** A token as the API takes it: exactly 64 hexadecimal characters. *)
Definition is_hex64 (token : string) : bool :=
  Nat.eqb (String.length token) 64
  && forallb is_hex_char (list_ascii_of_string token).

(** An item of a frame: its id, the length of its data on two bytes, its data. *)
Definition item_bytes (item : Z * bytes) : bytes :=
  byte_of_Z (fst item) :: be_bytes 2 (Z.of_nat (List.length (snd item))) ++ snd item.

Definition item_size (item : Z * bytes) : nat := (3 + List.length (snd item))%nat.

Definition frame_items (token_bin payload : bytes)
    (identifier expiration priority : Z) : list (Z * bytes) :=
  [(1, token_bin); (2, payload); (3, be_bytes 4 identifier);
   (4, be_bytes 4 expiration); (5, be_bytes 1 priority)].

(** Command 2, the total length on four bytes, the items. *)
Definition frame_bytes (declared_length : nat) (items : list (Z * bytes)) : bytes :=
  x02 :: be_bytes 4 (Z.of_nat declared_length) ++ List.concat (map item_bytes items).

Record Notification : Type := mkNotification {
  n_token : bytes;
  n_payload : bytes;
  n_identifier : Z;
  n_expiration : Z;
  n_priority : Z
}.

(** Reads one item off the front of [data]: its id, its data, what follows. *)
Definition decode_item (data : bytes) : option (Z * bytes * bytes) :=
  match data with
  | id :: l1 :: l2 :: rest =>
      let n := Z.to_nat (be_value [l1; l2]) in
      if Nat.leb n (List.length rest)
      then Some (Z_of_byte id, firstn n rest, skipn n rest)
      else None
  | _ => None
  end.

Definition expect_item (id : Z) (data : bytes) : option (bytes * bytes) :=
  match decode_item data with
  | Some (id', item, rest) => if id' =? id then Some (item, rest) else None
  | None => None
  end.

(** Modelled from the spec: the frame decoder [decode_frame] of the round-trip
    property, which the module does not have (it only encodes); it reads the
    frame of the wire format: command 2, the total length, then the items 1 to
    5 in their fixed order, the last three of 4, 4 and 1 bytes. *)
Definition decode_frame (frame : bytes) : option Notification :=
  match frame with
  | command :: t1 :: t2 :: t3 :: t4 :: body =>
      if (Z_of_byte command =? 2) && (be_value [t1; t2; t3; t4] =? Z.of_nat (List.length body))
      then
        match expect_item 1 body with
        | Some (token, r1) =>
        match expect_item 2 r1 with
        | Some (payload, r2) =>
        match expect_item 3 r2 with
        | Some (identifier, r3) =>
        match expect_item 4 r3 with
        | Some (expiration, r4) =>
        match expect_item 5 r4 with
        | Some (priority, []) =>
            if Nat.eqb (List.length identifier) 4 && Nat.eqb (List.length expiration) 4
               && Nat.eqb (List.length priority) 1
            then Some (mkNotification token payload (be_value identifier)
                                      (be_value expiration) (be_value priority))
            else None
        | _ => None end
        | None => None end
        | None => None end
        | None => None end
        | None => None end
      else None
  | _ => None
  end.

(** A feedback record on the wire. *)
Definition feedback_record (timestamp : Z) (token_bin : bytes) : bytes :=
  be_bytes 4 timestamp ++ be_bytes 2 (Z.of_nat (List.length token_bin)) ++ token_bin.

(** ** What the error check does, read off the socket's next delivery *)

(** The outcome of [check_errors] once its read gave [received]. *)
Definition error_response_outcome (received : result bytes) : result unit :=
  match received with
  | Ok [] => Ok tt
  | Ok data =>
      match struct_unpack [fmt_B; fmt_B; fmt_I] data with
      | Ok [PInt command; PInt status; PInt identifier] =>
          if negb (command =? APNS_ERROR_RESPONSE_COMMAND)
          then Raise (APNSError (BadResponseCommand command))
          else if negb (status =? 0)
               then Raise (APNSServerError status identifier)
               else Ok tt
      | Ok _ => Raise ValueError
      | Raise e => Raise e
      end
  | Raise (IOError socket_timeout) => Ok tt
  | Raise (IOError (ssl_SSLError message)) =>
      if contains "timed out" message
      then Ok tt
      else Raise (IOError (ssl_SSLError message))
  | Raise e => Raise e
  end.

Definition check_errors_outcome (config : Config) (c : conn) : result unit :=
  match APNS_ERROR_TIMEOUT config with
  | None => Ok tt
  | Some _ => error_response_outcome (fst (take_delivery 6 (c_inbox c)))
  end.

(** The calls [check_errors] makes on socket [h], found in state [c]. *)
Definition check_errors_calls (config : Config) (h : handle) (c : conn) : list event :=
  match APNS_ERROR_TIMEOUT config with
  | None => []
  | Some t => [EvSetTimeout h (Some t); EvRecv h 6; EvSetTimeout h (c_timeout c)]
  end.

Definition after_check_errors (config : Config) (c : conn) : conn :=
  match APNS_ERROR_TIMEOUT config with
  | None => c
  | Some _ =>
      mkConn (c_timeout c) (snd (take_delivery 6 (c_inbox c))) (c_write_errors c)
             (c_closed c)
  end.

(** [w'] is [w] after the events [calls], with socket [h] left as [c'] and
    nothing else touched. *)
Record sock_effect (h : handle) (calls : list event) (c' : conn) (w w' : world)
  : Prop := mkSockEffect {
  eff_trace : w_trace w' = w_trace w ++ calls;
  eff_sock : w_socks w' h = c';
  eff_others : forall h', h' <> h -> w_socks w' h' = w_socks w h';
  eff_next : w_next w' = w_next w;
  eff_ticks : w_ticks w' = w_ticks w;
  eff_clock : w_clock w' = w_clock w;
  eff_readable : w_readable w' = w_readable w;
  eff_peer : w_peer w' = w_peer w
}.

(** A world whose socket 0 is open with a timeout of 30 seconds. *)
Definition timeout_world (inbox : list delivery) : world :=
  mkWorld (fun _ => mkConn (Some 30000%N) inbox [] false) 1%nat [] (fun _ => 1500000000)
          0%nat (fun _ => true) (fun _ _ => inr (mkPeer [] [])).

(** ** Which exceptions a computation can raise *)

Definition raises_only {A} (P : exn -> Prop) (m : M A) : Prop :=
  forall w e w', m w = (Raise e, w') -> P e.

(** The two errors of the validation in [send]. *)
Definition is_validation_error (e : exn) : bool :=
  match e with
  | APNSError InvalidTokenFormat => true
  | APNSDataOverflow _ => true
  | _ => false
  end.

Definition not_validation (e : exn) : Prop := is_validation_error e = false.

(** ** What the sender does, in terms of the world *)

(** The payload [send] and [send_bulk] work with: the caller's, or the one
    built from the alert and the options. *)
Definition effective_payload {Alert Options : Type}
    (create_payload : Alert -> Options -> bytes)
    (alert : Alert) (options : Options) (payload : option bytes) : bytes :=
  match payload with
  | Some p => p
  | None => create_payload alert options
  end.

(** The world once the payload is there: building it leaves its mark. *)
Definition payload_ready (payload : option bytes) (w : world) : world :=
  match payload with
  | Some _ => w
  | None => log EvCreatePayload w
  end.

(** [w] after the events [events] and [ticks] readings of the clock. *)
Definition advance (events : list event) (ticks : nat) (w : world) : world :=
  mkWorld (w_socks w) (w_next w) (w_trace w ++ events) (w_clock w)
          (w_ticks w + ticks) (w_readable w) (w_peer w).

(** How often [send] reads the clock. *)
Definition clock_reads (expiration : option Z) : nat :=
  match expiration with
  | Some _ => 0
  | None => 1
  end.

(** The expiration [send] puts in the frame when the clock has been read
    [tick] times before. *)
Definition expiration_at (config : Config) (expiration : option Z)
    (clock : nat -> Z) (tick : nat) : Z :=
  match expiration with
  | Some e => e
  | None => clock tick + APNS_DEFAULT_EXPIRATION_OFFSET config
  end.

Definition token_bytes (token : string) : bytes :=
  match unhexlify token with
  | Ok token_bin => token_bin
  | Raise _ => []
  end.

(** The frame of a notification, as the wire format has it. *)
Definition notification_frame (token : string) (payload : bytes)
    (identifier expiration priority : Z) : bytes :=
  frame_bytes (15 + 32 + List.length payload + 9)
    (frame_items (token_bytes token) payload identifier expiration priority).

(** The frames of a batch: the token at position [start], [start + 1], ...
    with that position as identifier. *)
Fixpoint frames_from (config : Config) (expiration : option Z) (priority : Z)
    (payload : bytes) (clock : nat -> Z) (start tick : nat) (tokens : list string)
  : list bytes :=
  match tokens with
  | [] => []
  | token :: rest =>
      notification_frame token payload (Z.of_nat start)
        (expiration_at config expiration clock tick) priority
      :: frames_from config expiration priority payload clock (S start)
           (tick + clock_reads expiration) rest
  end.

(** The push gateway can be reached: the certificate is configured and reads,
    and the host accepts the connection, takes every write and will deliver
    [inbox]. *)
Definition push_gateway_up (config : Config) (w : world) (inbox : list delivery) : Prop :=
  string_truthy (APNS_CERTIFICATE config) = true
  /\ w_readable w (APNS_CERTIFICATE config) = true
  /\ w_peer w (APNS_HOST config) (APNS_PORT config) = inr (mkPeer inbox []).

Definition is_write (e : event) : bool :=
  match e with EvWrite _ _ => true | _ => false end.

Definition is_connect (e : event) : bool :=
  match e with EvConnect _ _ _ => true | _ => false end.

Definition is_check_errors (e : event) : bool :=
  match e with EvCheckErrors _ => true | _ => false end.

Definition is_create_payload (e : event) : bool :=
  match e with EvCreatePayload => true | _ => false end.

Definition count (p : event -> bool) (events : list event) : nat :=
  List.length (filter p events).

Definition other_token : string :=
  "00112233445566778899aabbccddeeff00112233445566778899AABBCCDDEEFF"%string.

(** A payload builder for the examples: the payload is the alert. *)
Definition alert_payload (alert : bytes) (options : unit) : bytes := alert.

Definition no_options : BulkOptions unit := mkBulkOptions None None tt.

(** A configuration that allows five bytes of payload. *)
Definition tight_config : Config :=
  mkConfig "gateway.push.apple.com" 2195 "feedback.push.apple.com" 2196
           "cert.pem" (Some 500%N) 5 DEFAULT_EXPIRATION_OFFSET.

Definition six_bytes : bytes := [x68; x65; x6c; x6c; x6f; x21].

(** A batch whose second token is no token. *)
Definition bulk_with_bad_token : result unit * world :=
  send_bulk alert_payload [sample_token; "zz"%string] hello sample_config None
            no_options (quiet_world []).

(** A batch whose payload is one byte over the limit. *)
Definition bulk_with_long_payload : result unit * world :=
  send_bulk alert_payload [sample_token] six_bytes tight_config None
            no_options (quiet_world []).

(** Feedback streams: three bytes where a header is due; a header announcing
    32 bytes, then two bytes; a header, then an empty read, then a record. *)
Definition header_32 : bytes := [x3b; x9a; xca; x00; x00; x20].

Definition short_header_stream : world :=
  connected_world [Data [x3b; x9a; xca]].

Definition short_token_stream : world :=
  connected_world [Data header_32; Data [xa1; xa1]].

Definition empty_token_stream : world :=
  connected_world [Data header_32; Data []; Data (feedback_record 7 [xa1; xb2])].

Definition one_record_stream : world :=
  connected_world [Data (feedback_record 1000000000 (repeat xa1 32))].

(** ** The payload

    The values [create_payload] handles are Python objects; a dict is the list
    of its items, each key once, and only lookups are observed, so the order
    of the items stands for no order of the Python dict. *)

#[warnings="-register-all"]
Inductive pyobj : Type :=
| PyNone
| PyBool (b : bool)
| PyInt (z : Z)
| PyStr (s : string)
| PyList (items : list pyobj)
| PyDict (items : list (string * pyobj)).

Definition dict := list (string * pyobj).

(** Truth value testing: [None], [False], zero and the empty string, list and
    dict are false. *)
Definition py_truthy (v : pyobj) : bool :=
  match v with
  | PyNone => false
  | PyBool b => b
  | PyInt z => negb (z =? 0)
  | PyStr s => string_truthy s
  | PyList items => truthy items
  | PyDict items => truthy items
  end.

(** [d.get(key)] *)
Fixpoint dict_get (d : dict) (key : string) : option pyobj :=
  match d with
  | [] => None
  | (k, v) :: rest => if String.eqb key k then Some v else dict_get rest key
  end.

(** [d[key] = v] *)
Fixpoint dict_set (d : dict) (key : string) (v : pyobj) : dict :=
  match d with
  | [] => [(key, v)]
  | (k, v0) :: rest =>
      if String.eqb key k then (k, v) :: rest else (k, v0) :: dict_set rest key v
  end.

(** [d.update(other)] *)
Definition dict_update (d other : dict) : dict :=
  fold_left (fun acc item => dict_set acc (fst item) (snd item)) other d.

(** [payload['aps'][key] = v], through the reference kept in [payload]. *)
Definition aps_set (payload : dict) (key : string) (v : pyobj) : dict :=
  match dict_get payload "aps" with
  | Some (PyDict aps) => dict_set payload "aps" (PyDict (dict_set aps key v))
  | _ => payload
  end.

(** The keyword arguments of [create_payload]; an argument left out is
    [PyNone] ([extra]: [None]). *)
Record PayloadOptions : Type := mkPayloadOptions {
  badge : pyobj;
  sound : pyobj;
  category : pyobj;
  content_available : pyobj;
  title : pyobj;
  title_loc_key : pyobj;
  title_loc_args : pyobj;
  action_loc_key : pyobj;
  loc_key : pyobj;
  loc_args : pyobj;
  launch_image : pyobj;
  extra : option dict
}.

Definition set_if (value : pyobj) (d : dict) (key : string) : dict :=
  if py_truthy value then dict_set d key value else d.

(** The dict [create_payload] builds, before it is serialized. *)
Definition create_payload_dict (alert : pyobj) (o : PayloadOptions) : dict :=
  let loc_args := match loc_args o with PyNone => PyList [] | v => v end in
  let extra := match extra o with None => [] | Some e => e end in
  let payload := [] in
  let payload := dict_update payload extra in
  let payload := dict_set payload "aps" (PyDict []) in
  let alert :=
    if existsb py_truthy
         [title o; title_loc_key o; title_loc_args o; action_loc_key o;
          loc_key o; loc_args; launch_image o]
    then
      let alert := if py_truthy alert then [("body"%string, alert)] else [] in
      let alert := set_if (title o) alert "title" in
      let alert := set_if (title_loc_key o) alert "title-loc-key" in
      let alert := set_if (title_loc_args o) alert "title-loc-args" in
      let alert := set_if (action_loc_key o) alert "action-loc-key" in
      let alert := set_if (loc_key o) alert "loc-key" in
      let alert := set_if loc_args alert "loc-args" in
      let alert := set_if (launch_image o) alert "launch-image" in
      PyDict alert
    else alert in
  let payload := if py_truthy alert then aps_set payload "alert" alert else payload in
  let payload := if py_truthy (badge o) then aps_set payload "badge" (badge o) else payload in
  let payload := if py_truthy (sound o) then aps_set payload "sound" (sound o) else payload in
  let payload :=
    if py_truthy (category o) then aps_set payload "category" (category o) else payload in
  let payload :=
    if py_truthy (content_available o)
    then aps_set payload "content-available" (PyInt 1)
    else payload in
  payload.

Section Payload.

(** [json_dumps] of [pushjack/utils.py] is not among the sources. *)
Variable json_dumps : dict -> bytes.

Definition create_payload (alert : pyobj) (o : PayloadOptions) : bytes :=
  json_dumps (create_payload_dict alert o).

End Payload.

(** Whether one of the arguments that make the alert a dict is given. *)
Definition localized (o : PayloadOptions) : bool :=
  existsb py_truthy
    [title o; title_loc_key o; title_loc_args o; action_loc_key o;
     loc_key o; loc_args o; launch_image o].

Definition extra_items (o : PayloadOptions) : dict :=
  match extra o with None => [] | Some e => e end.

(** The alert [create_payload] puts under ['aps']. *)
Definition final_alert (alert : pyobj) (o : PayloadOptions) : pyobj :=
  if localized o
  then PyDict
         (set_if (launch_image o)
            (set_if (loc_args o)
               (set_if (loc_key o)
                  (set_if (action_loc_key o)
                     (set_if (title_loc_args o)
                        (set_if (title_loc_key o)
                           (set_if (title o)
                              (if py_truthy alert then [("body"%string, alert)] else [])
                              "title")
                           "title-loc-key")
                        "title-loc-args")
                     "action-loc-key")
                  "loc-key")
               "loc-args")
            "launch-image")
  else alert.

Definition final_aps (alert : pyobj) (o : PayloadOptions) : dict :=
  let aps := [] in
  let aps := if py_truthy (final_alert alert o)
             then dict_set aps "alert" (final_alert alert o) else aps in
  let aps := if py_truthy (badge o) then dict_set aps "badge" (badge o) else aps in
  let aps := if py_truthy (sound o) then dict_set aps "sound" (sound o) else aps in
  let aps := if py_truthy (category o) then dict_set aps "category" (category o) else aps in
  if py_truthy (content_available o)
  then dict_set aps "content-available" (PyInt 1)
  else aps.

Definition no_payload_options : PayloadOptions :=
  mkPayloadOptions PyNone PyNone PyNone PyNone PyNone PyNone PyNone PyNone PyNone
                   PyNone PyNone None.

(** [s.lower()], on ASCII. *)
Definition lower_char (c : ascii) : ascii :=
  let n := N_of_ascii c in
  if (N.leb 65 n && N.leb n 90)%bool then ascii_of_N (n + 32) else c.

Fixpoint lower (s : string) : string :=
  match s with
  | EmptyString => EmptyString
  | String c rest => String (lower_char c) (lower rest)
  end.




(** The feedback service can be reached and behaves as [p]. *)
Definition feedback_service_up (config : Config) (w : world) (p : peer) : Prop :=
  string_truthy (APNS_CERTIFICATE config) = true
  /\ w_readable w (APNS_CERTIFICATE config) = true
  /\ w_peer w (APNS_FEEDBACK_HOST config) (APNS_FEEDBACK_PORT config) = inr p.

(** The push gateway can be reached and behaves as [p]. *)
Definition push_gateway_answers (config : Config) (w : world) (p : peer) : Prop :=
  string_truthy (APNS_CERTIFICATE config) = true
  /\ w_readable w (APNS_CERTIFICATE config) = true
  /\ w_peer w (APNS_HOST config) (APNS_PORT config) = inr p.

(** The mark building the payload leaves in the trace. *)
Definition payload_mark (payload : option bytes) : list event :=
  match payload with
  | Some _ => []
  | None => [EvCreatePayload]
  end.

(** A read on socket [h]. *)
Definition is_recv_on (h : handle) (e : event) : Prop :=
  exists bufsize, e = EvRecv h bufsize.

(** The mark of the payload builder, or a write on socket [h]. *)
Definition is_mark_or_write_on (h : handle) (e : event) : Prop :=
  e = EvCreatePayload \/ exists frame, e = EvWrite h frame.

(** A world whose gateway refuses the second write. *)
Definition refusing_world : world :=
  mkWorld (fun _ => mkConn None [] [] true) 0%nat [] (fun _ => 1500000000)
          0%nat (fun _ => true)
          (fun _ _ => inr (mkPeer [] [None; Some (socket_error "Broken pipe")])).

(** * Properties *)

(** ** Bytes and integers *)

Lemma Z_of_byte_range (b : byte) : 0 <= Z_of_byte b < 256.
Proof.
  unfold Z_of_byte. pose proof (Byte.to_N_bounded b). lia.
Qed.

Lemma byte_of_Z_of_byte (b : byte) : byte_of_Z (Z_of_byte b) = b.
Proof.
  unfold byte_of_Z. pose proof (Z_of_byte_range b) as Hb.
  rewrite Z.mod_small by lia. unfold Z_of_byte.
  rewrite N2Z.id, Byte.of_to_N. reflexivity.
Qed.

Lemma Z_of_byte_of_Z (z : Z) : Z_of_byte (byte_of_Z z) = z mod 256.
Proof.
  unfold byte_of_Z, Z_of_byte.
  pose proof (Z.mod_pos_bound z 256 ltac:(lia)) as Hm.
  destruct (Byte.of_N (Z.to_N (z mod 256))) as [b|] eqn:E.
  - apply Byte.to_of_N in E. rewrite E. lia.
  - apply Byte.of_N_None_iff in E. lia.
Qed.

Lemma length_be_bytes (n : nat) (z : Z) : List.length (be_bytes n z) = n.
Proof.
  induction n as [|n IH]; simpl; [reflexivity | now rewrite IH].
Qed.

Lemma fold_be_bytes (n : nat) (z acc : Z) :
  fold_left (fun a b => a * 256 + Z_of_byte b) (be_bytes n z) acc
  = acc * 256 ^ Z.of_nat n + z mod 256 ^ Z.of_nat n.
Proof.
  revert acc. induction n as [|n IH]; intros acc.
  - simpl. rewrite Z.mod_1_r. lia.
  - cbn [be_bytes fold_left]. rewrite IH, Z_of_byte_of_Z.
    rewrite Nat2Z.inj_succ, Z.pow_succ_r by lia.
    assert (Hp : 0 < 256 ^ Z.of_nat n) by (apply Z.pow_pos_nonneg; lia).
    rewrite (Z.mul_comm 256 (256 ^ Z.of_nat n)).
    rewrite (Z.rem_mul_r z (256 ^ Z.of_nat n) 256) by lia.
    ring.
Qed.

Lemma be_value_be_bytes (n : nat) (z : Z) :
  be_value (be_bytes n z) = z mod 256 ^ Z.of_nat n.
Proof.
  unfold be_value. rewrite fold_be_bytes. lia.
Qed.

Lemma be_value_be_bytes_small (n : nat) (z : Z) :
  0 <= z < 256 ^ Z.of_nat n -> be_value (be_bytes n z) = z.
Proof.
  intros H. rewrite be_value_be_bytes. apply Z.mod_small, H.
Qed.

Example be_bytes_258 : be_bytes 2 258 = [x01; x02].
Proof. reflexivity. Qed.

Example be_bytes_timestamp :
  be_bytes 4 1000000000 = [x3b; x9a; xca; x00] /\ be_value [x3b; x9a; xca; x00] = 1000000000.
Proof. split; reflexivity. Qed.

(** ** Hexadecimal *)

Lemma is_hex_char_hex_value (c : ascii) :
  is_hex_char c = match hex_value c with Some _ => true | None => false end.
Proof.
  destruct c as [[] [] [] [] [] [] [] []]; reflexivity.
Qed.

(** Induction on a string, two characters at a time. *)
Lemma string_pair_ind (P : string -> Prop) :
  P EmptyString ->
  (forall a, P (String a EmptyString)) ->
  (forall a b rest, P rest -> P (String a (String b rest))) ->
  forall s, P s.
Proof.
  intros H0 H1 H2.
  fix IH 1. intros [|a [|b rest]].
  - exact H0.
  - apply H1.
  - apply H2, IH.
Qed.

Lemma unhexlify_length (s : string) (bs : bytes) :
  unhexlify s = Ok bs -> String.length s = (2 * List.length bs)%nat.
Proof.
  revert bs. induction s as [| a | a b rest IH] using string_pair_ind; intros bs H.
  - inversion H. reflexivity.
  - discriminate H.
  - cbn [unhexlify] in H.
    destruct (hex_value a); [|discriminate H].
    destruct (hex_value b); [|discriminate H].
    destruct (unhexlify rest) as [bs'|e]; [|discriminate H].
    inversion H; subst. cbn [String.length List.length].
    rewrite (IH bs' eq_refl). lia.
Qed.

Lemma unhexlify_ok_iff (s : string) :
  raises (unhexlify s) = false
  <-> Nat.even (String.length s) = true
      /\ forallb is_hex_char (list_ascii_of_string s) = true.
Proof.
  induction s as [| a | a b rest IH] using string_pair_ind.
  - cbn. tauto.
  - cbn. split; [discriminate | intros [H _]; discriminate H].
  - cbn [unhexlify String.length list_ascii_of_string forallb Nat.even].
    rewrite !is_hex_char_hex_value.
    destruct (hex_value a); [|cbn; split; [discriminate | intros [_ H]; discriminate H]].
    destruct (hex_value b); [|cbn; split; [discriminate | intros [_ H]; discriminate H]].
    cbn [andb]. rewrite <- IH.
    destruct (unhexlify rest); cbn; tauto.
Qed.

Lemma is_valid_token_hex64 (token : string) :
  is_valid_token token = is_hex64 token.
Proof.
  unfold is_valid_token, is_hex64.
  pose proof (unhexlify_ok_iff token) as Hiff.
  destruct (unhexlify token) as [bs|e] eqn:E.
  - apply unhexlify_length in E.
    cbn in Hiff. destruct Hiff as [Hall _]. destruct (Hall eq_refl) as [_ ->].
    rewrite andb_true_r.
    destruct bs as [|b bs]; cbn [truthy]; [|reflexivity].
    cbn in E. rewrite E. reflexivity.
  - cbn in Hiff.
    destruct (Nat.eqb (String.length token) 64) eqn:L; [|reflexivity].
    apply Nat.eqb_eq in L. cbn [andb].
    destruct (forallb is_hex_char (list_ascii_of_string token)); [|reflexivity].
    destruct Hiff as [_ Hall]. rewrite L in Hall. discriminate (Hall (conj eq_refl eq_refl)).
Qed.

Lemma valid_token_bytes (token : string) :
  is_valid_token token = true ->
  exists token_bin, unhexlify token = Ok token_bin /\ List.length token_bin = 32%nat.
Proof.
  unfold is_valid_token. intros H.
  destruct (unhexlify token) as [bs|e] eqn:E; [|discriminate H].
  exists bs. split; [reflexivity|].
  apply unhexlify_length in E.
  destruct (truthy bs); [|discriminate H].
  apply Nat.eqb_eq in H. lia.
Qed.

Lemma unhexlify_hexlify (bs : bytes) : unhexlify (hexlify bs) = Ok bs.
Proof.
  induction bs as [|b bs IH]; [reflexivity|].
  cbn [hexlify unhexlify]. rewrite IH.
  destruct b; reflexivity.
Qed.

(** ** struct *)

Lemma pack_int_ok (size : nat) (z : Z) :
  0 <= z < 256 ^ Z.of_nat size -> pack_int size z = Ok (be_bytes size z).
Proof.
  intros [H0 H1]. unfold pack_int.
  apply Z.leb_le in H0. apply Z.ltb_lt in H1. now rewrite H0, H1.
Qed.

Lemma pack_int_out_of_range (size : nat) (z : Z) :
  256 ^ Z.of_nat size <= z -> pack_int size z = Raise struct_error.
Proof.
  intros H. unfold pack_int.
  apply Z.ltb_ge in H. rewrite H, andb_false_r. reflexivity.
Qed.

Lemma pack_str_exact (s : bytes) :
  pack_value (fmt_s (List.length s)) (PStr s) = Ok s.
Proof.
  cbn [pack_value]. now rewrite firstn_all, Nat.sub_diag, app_nil_r.
Qed.

(** ** The frame *)

Ltac pack_ints :=
  repeat (rewrite pack_int_ok by (cbn; lia)).

Lemma pack_frame_bytes (token : string) (token_bin payload : bytes)
    (identifier expiration priority : Z) :
  unhexlify token = Ok token_bin ->
  List.length token_bin = 32%nat ->
  Z.of_nat (List.length payload) <= 65535 ->
  0 <= identifier < 2 ^ 32 ->
  0 <= expiration < 2 ^ 32 ->
  0 <= priority < 2 ^ 8 ->
  pack_frame token payload identifier expiration priority
  = Ok (frame_bytes (15 + 32 + List.length payload + 9)
          (frame_items token_bin payload identifier expiration priority)).
Proof.
  intros Hun Hlen Hpay Hid Hexp Hprio.
  unfold pack_frame. rewrite Hun.
  cbn [struct_pack]. rewrite !pack_str_exact.
  cbn [pack_value code_size]. rewrite Hlen.
  pack_ints.
  unfold frame_bytes, frame_items.
  cbn [map List.concat]. unfold item_bytes. cbn [fst snd].
  rewrite !length_be_bytes, Hlen.
  f_equal.
  replace (3 * 5 + 32 + List.length payload + 4 + 4 + 1)%nat
    with (15 + 32 + List.length payload + 9)%nat by lia.
  cbn [app]. rewrite <- ?app_assoc. reflexivity.
Qed.

Lemma is_hex64_bytes (token : string) :
  is_hex64 token = true ->
  exists token_bin, unhexlify token = Ok token_bin /\ List.length token_bin = 32%nat.
Proof.
  rewrite <- is_valid_token_hex64. apply valid_token_bytes.
Qed.

(** C3: the frame of a valid token, a payload that fits its two-byte length
    field, a 32-bit identifier, a 32-bit expiration and an 8-bit priority is
    command 2, the total length [3*5 + 32 + len(payload) + 4 + 4 + 1] on four
    bytes, then the items 1 to 5 (token, payload, identifier, expiration,
    priority), each an id byte, the length of its data on two bytes and the
    data; the declared total is the sum of the items' header and data sizes. *)
Theorem pack_frame_layout (token : string) (payload : bytes)
    (identifier expiration priority : Z) :
  is_hex64 token = true ->
  Z.of_nat (List.length payload) <= 65535 ->
  0 <= identifier < 2 ^ 32 ->
  0 <= expiration < 2 ^ 32 ->
  0 <= priority < 2 ^ 8 ->
  exists token_bin,
    unhexlify token = Ok token_bin /\ List.length token_bin = 32%nat /\
    let items := frame_items token_bin payload identifier expiration priority in
    let declared := (3 * 5 + 32 + List.length payload + 4 + 4 + 1)%nat in
    pack_frame token payload identifier expiration priority
      = Ok (frame_bytes declared items)
    /\ declared = (15 + 32 + List.length payload + 9)%nat
    /\ declared = list_sum (map item_size items)
    /\ declared = List.length (List.concat (map item_bytes items))
    /\ map fst items = [1; 2; 3; 4; 5]
    /\ be_value (be_bytes 4 (Z.of_nat declared)) = Z.of_nat declared
    /\ Forall (fun item =>
                 be_value (be_bytes 2 (Z.of_nat (List.length (snd item))))
                 = Z.of_nat (List.length (snd item))) items.
Proof.
  intros Htok Hpay Hid Hexp Hprio.
  destruct (is_hex64_bytes token Htok) as (token_bin & Hun & Hlen).
  exists token_bin. split; [exact Hun|]. split; [exact Hlen|].
  cbv zeta.
  replace (3 * 5 + 32 + List.length payload + 4 + 4 + 1)%nat
    with (15 + 32 + List.length payload + 9)%nat by lia.
  split; [now apply pack_frame_bytes|].
  split; [reflexivity|].
  unfold frame_items.
  split.
  { cbn [map list_sum]. unfold item_size. cbn [snd].
    rewrite !length_be_bytes, Hlen. cbn [list_sum fold_right]. lia. }
  split.
  { cbn [map List.concat]. unfold item_bytes. cbn [fst snd].
    cbn [List.length]. rewrite ?length_app. cbn [List.length].
    rewrite ?length_app, !length_be_bytes, Hlen. cbn [List.length]. lia. }
  split; [reflexivity|].
  split.
  { apply be_value_be_bytes_small. cbn. lia. }
  repeat constructor; cbn [snd]; rewrite ?length_be_bytes, ?Hlen;
    apply be_value_be_bytes_small; cbn; lia.
Qed.

Lemma pack_frame_layout_witness :
  exists token_bin,
    unhexlify sample_token = Ok token_bin /\ List.length token_bin = 32%nat /\
    let items := frame_items token_bin hello 7 1000 10 in
    let declared := (3 * 5 + 32 + List.length hello + 4 + 4 + 1)%nat in
    pack_frame sample_token hello 7 1000 10 = Ok (frame_bytes declared items)
    /\ declared = (15 + 32 + List.length hello + 9)%nat
    /\ declared = list_sum (map item_size items)
    /\ declared = List.length (List.concat (map item_bytes items))
    /\ map fst items = [1; 2; 3; 4; 5]
    /\ be_value (be_bytes 4 (Z.of_nat declared)) = Z.of_nat declared
    /\ Forall (fun item =>
                 be_value (be_bytes 2 (Z.of_nat (List.length (snd item))))
                 = Z.of_nat (List.length (snd item))) items.
Proof.
  apply (pack_frame_layout sample_token hello 7 1000 10).
  - reflexivity.
  - cbn. lia.
  - lia.
  - lia.
  - lia.
Defined.

(** The length fields have two bytes: a longer payload has no frame. *)
Lemma pack_frame_payload_too_long (token : string) (payload : bytes)
    (identifier expiration priority : Z) :
  65535 < Z.of_nat (List.length payload) ->
  raises (pack_frame token payload identifier expiration priority) = true.
Proof.
  intros Hlong. unfold pack_frame.
  destruct (unhexlify token) as [token_bin|e]; [|reflexivity].
  cbn [struct_pack].
  repeat match goal with
         | |- context [match pack_value ?c (PInt ?z) with _ => _ end] =>
             lazymatch z with
             | Z.of_nat (List.length payload) => fail
             | _ => destruct (pack_value c (PInt z)); [|reflexivity]
             end
         | |- context [match pack_value ?c (PStr ?z) with _ => _ end] =>
             destruct (pack_value c (PStr z)); [|reflexivity]
         end.
  cbn [pack_value code_size].
  rewrite pack_int_out_of_range by (cbn; lia). reflexivity.
Qed.

(** ** Decoding a frame *)

Lemma decode_item_item_bytes (id : Z) (data rest : bytes) :
  0 <= id < 256 ->
  Z.of_nat (List.length data) <= 65535 ->
  decode_item (item_bytes (id, data) ++ rest) = Some (id, data, rest).
Proof.
  intros Hid Hlen. unfold item_bytes. cbn [fst snd].
  assert (E : exists a b, be_bytes 2 (Z.of_nat (List.length data)) = [a; b])
    by (do 2 eexists; reflexivity).
  destruct E as (a & b & E). rewrite E. cbn [app decode_item].
  rewrite <- E, be_value_be_bytes_small by (cbn; lia).
  rewrite Nat2Z.id, length_app.
  replace (Nat.leb (List.length data) (List.length data + List.length rest)) with true
    by (symmetry; apply Nat.leb_le; lia).
  rewrite Z_of_byte_of_Z, Z.mod_small by lia.
  rewrite firstn_app, Nat.sub_diag, firstn_all, firstn_O, app_nil_r.
  rewrite skipn_app, Nat.sub_diag, skipn_all, skipn_O.
  reflexivity.
Qed.

Lemma expect_item_item_bytes (id : Z) (data rest : bytes) :
  0 <= id < 256 ->
  Z.of_nat (List.length data) <= 65535 ->
  expect_item id (item_bytes (id, data) ++ rest) = Some (data, rest).
Proof.
  intros Hid Hlen. unfold expect_item.
  rewrite decode_item_item_bytes by assumption.
  now rewrite Z.eqb_refl.
Qed.

Lemma decode_frame_frame_bytes (token_bin payload : bytes)
    (identifier expiration priority : Z) :
  Z.of_nat (List.length token_bin) <= 65535 ->
  Z.of_nat (List.length payload) <= 65535 ->
  0 <= identifier < 2 ^ 32 ->
  0 <= expiration < 2 ^ 32 ->
  0 <= priority < 2 ^ 8 ->
  decode_frame
    (frame_bytes (15 + List.length token_bin + List.length payload + 9)
       (frame_items token_bin payload identifier expiration priority))
  = Some (mkNotification token_bin payload identifier expiration priority).
Proof.
  intros Htok Hpay Hid Hexp Hprio.
  unfold frame_bytes, frame_items. cbn [map List.concat].
  set (declared := (15 + List.length token_bin + List.length payload + 9)%nat).
  assert (E : exists a b c d, be_bytes 4 (Z.of_nat declared) = [a; b; c; d])
    by (do 4 eexists; reflexivity).
  destruct E as (a & b & c & d & E). rewrite E. cbn [app decode_frame].
  rewrite <- E, be_value_be_bytes_small by (subst declared; cbn; lia).
  change (Z_of_byte x02 =? 2) with true. cbn [andb].
  replace (Z.of_nat declared =? Z.of_nat _) with true.
  2:{ symmetry. apply Z.eqb_eq. f_equal. subst declared.
      unfold item_bytes. cbn [fst snd List.length].
      rewrite ?length_app. cbn [List.length].
      rewrite ?length_app, !length_be_bytes. cbn [List.length]. lia. }
  rewrite !expect_item_item_bytes
    by (rewrite ?length_be_bytes; cbn; lia).
  rewrite !length_be_bytes. cbn [Nat.eqb andb].
  rewrite !be_value_be_bytes_small by (cbn; lia).
  reflexivity.
Qed.

(** C4: decoding the frame of a valid token and a payload that fits its length
    field gives back the token (its 32 bytes, with the same hexadecimal
    reading), the payload, the identifier, the expiration and the priority. *)
Theorem decode_frame_pack_frame (token : string) (payload : bytes)
    (identifier expiration priority : Z) :
  is_hex64 token = true ->
  Z.of_nat (List.length payload) <= 65535 ->
  0 <= identifier < 2 ^ 32 ->
  0 <= expiration < 2 ^ 32 ->
  0 <= priority < 2 ^ 8 ->
  exists frame token_bin,
    pack_frame token payload identifier expiration priority = Ok frame
    /\ unhexlify token = Ok token_bin
    /\ decode_frame frame
       = Some (mkNotification token_bin payload identifier expiration priority)
    /\ unhexlify (hexlify token_bin) = unhexlify token.
Proof.
  intros Htok Hpay Hid Hexp Hprio.
  destruct (is_hex64_bytes token Htok) as (token_bin & Hun & Hlen).
  eexists. exists token_bin.
  split; [apply pack_frame_bytes; eassumption|].
  split; [exact Hun|].
  split.
  - rewrite <- Hlen. apply decode_frame_frame_bytes; try assumption. lia.
  - rewrite unhexlify_hexlify. now symmetry.
Qed.

Lemma decode_frame_pack_frame_witness :
  exists frame token_bin,
    pack_frame sample_token hello 7 1000 10 = Ok frame
    /\ unhexlify sample_token = Ok token_bin
    /\ decode_frame frame = Some (mkNotification token_bin hello 7 1000 10)
    /\ unhexlify (hexlify token_bin) = unhexlify sample_token.
Proof.
  apply (decode_frame_pack_frame sample_token hello 7 1000 10).
  - reflexivity.
  - cbn. lia.
  - lia.
  - lia.
  - lia.
Defined.

(** ** The error channel *)

Lemma set_sock_same (h : handle) (c : conn) (w : world) :
  w_socks (set_sock h c w) h = c.
Proof. cbn. now rewrite Nat.eqb_refl. Qed.

Lemma set_sock_other (h h' : handle) (c : conn) (w : world) :
  h' <> h -> w_socks (set_sock h c w) h' = w_socks w h'.
Proof. intros Hne. cbn. apply Nat.eqb_neq in Hne. now rewrite Hne. Qed.

Lemma sock_recv_fst (h : handle) (n : nat) (w : world) :
  fst (sock_recv h n w) = fst (take_delivery n (c_inbox (w_socks w h))).
Proof.
  unfold sock_recv. now destruct (take_delivery n (c_inbox (w_socks w h))).
Qed.

Lemma sock_recv_inbox (h : handle) (n : nat) (w : world) :
  c_inbox (w_socks (snd (sock_recv h n w)) h)
  = snd (take_delivery n (c_inbox (w_socks w h))).
Proof.
  unfold sock_recv. destruct (take_delivery n (c_inbox (w_socks w h))).
  cbn [snd]. now rewrite set_sock_same.
Qed.

Lemma net_trace_log (e : event) (w : world) :
  net_trace (log e w) = net_trace w ++ (if is_net_event e then [e] else []).
Proof.
  unfold net_trace. cbn [w_trace log]. rewrite filter_app. cbn [filter].
  now destruct (is_net_event e).
Qed.

(** Closes a [sock_effect] goal on a world built from [log] and [set_sock]. *)
Ltac effect_tac :=
  constructor; cbn; rewrite ?Nat.eqb_refl; rewrite <- ?app_assoc;
  try reflexivity;
  let h' := fresh "h'" in
  let Hne := fresh "Hne" in
  intros h' Hne; apply Nat.eqb_neq in Hne; rewrite ?Hne; reflexivity.

Ltac break_match :=
  cbn beta iota zeta delta [fst snd];
  match goal with
  | |- context [match ?x with _ => _ end] => is_var x; destruct x
  | |- context [match negb ?x with _ => _ end] => destruct x; cbn [negb]
  | |- context [match contains ?x ?y with _ => _ end] => destruct (contains x y)
  end.

Lemma struct_unpack_raises (f : list fmt_code) (data : bytes) (e : exn) :
  struct_unpack f data = Raise e -> e = struct_error.
Proof.
  unfold struct_unpack. destruct (Nat.eqb _ _); congruence.
Qed.

Lemma struct_unpack_from_raises (f : list fmt_code) (data : bytes) (e : exn) :
  struct_unpack_from f data = Raise e -> e = struct_error.
Proof.
  unfold struct_unpack_from. destruct (Nat.leb _ _); congruence.
Qed.

Lemma check_errors_spec (h : handle) (config : Config) (w : world) :
  fst (check_errors h config w) = check_errors_outcome config (w_socks w h)
  /\ sock_effect h (EvCheckErrors h :: check_errors_calls config h (w_socks w h))
       (after_check_errors config (w_socks w h)) w (snd (check_errors h config w)).
Proof.
  unfold check_errors, check_errors_outcome, check_errors_calls, after_check_errors.
  destruct (APNS_ERROR_TIMEOUT config) as [t|].
  - unfold bind, mark, try_finally, try_except, sock_gettimeout, sock_settimeout, sock_recv.
    cbn [fst snd w_socks log set_sock]. rewrite !Nat.eqb_refl.
    cbn [c_inbox c_timeout c_closed].
    unfold error_response_outcome, suppress_timeouts, lift, when, raise, ret,
      raise_apns_server_error.
    destruct (take_delivery 6 (c_inbox (w_socks w h))) as [[data|e] inbox'];
      cbn [fst snd].
    + destruct data as [|b data]; cbn [truthy].
      * split; [reflexivity | effect_tac].
      * destruct (struct_unpack [fmt_B; fmt_B; fmt_I] (b :: data)) as [fields|e'] eqn:E.
        -- repeat break_match; (split; [reflexivity | effect_tac]).
        -- apply struct_unpack_raises in E. subst e'.
           split; [reflexivity | effect_tac].
    + repeat break_match; (split; [reflexivity | effect_tac]).
  - cbn. split; [reflexivity | effect_tac].
Qed.

Lemma be_value_single (b : byte) : be_value [b] = Z_of_byte b.
Proof. unfold be_value. cbn. reflexivity. Qed.

Lemma Z_of_byte_inj (a b : byte) : Z_of_byte a = Z_of_byte b -> a = b.
Proof.
  intros H. rewrite <- (byte_of_Z_of_byte a), <- (byte_of_Z_of_byte b). now rewrite H.
Qed.

Lemma error_response_six (command status i1 i2 i3 i4 : byte) :
  error_response_outcome (Ok [command; status; i1; i2; i3; i4])
  = if negb (Z_of_byte command =? 8)
    then Raise (APNSError (BadResponseCommand (Z_of_byte command)))
    else if negb (Z_of_byte status =? 0)
         then Raise (APNSServerError (Z_of_byte status) (be_value [i1; i2; i3; i4]))
         else Ok tt.
Proof.
  unfold error_response_outcome, struct_unpack.
  cbn [List.length calcsize code_size Nat.add Nat.eqb unpack_fields unpack_value firstn skipn].
  now rewrite !be_value_single.
Qed.

Lemma check_errors_on_read (h : handle) (config : Config) (w : world) (t : N) :
  APNS_ERROR_TIMEOUT config = Some t ->
  fst (check_errors h config w) = error_response_outcome (fst (sock_recv h 6 w)).
Proof.
  intros Ht.
  rewrite (proj1 (check_errors_spec h config w)), sock_recv_fst.
  unfold check_errors_outcome. now rewrite Ht.
Qed.

(** C7: when the read of [check_errors] gives six bytes, it raises the
    [APNSError] about the command whenever the first byte is not 8, whatever
    the other bytes; with command 8 and status 0 it raises nothing. *)
Theorem check_errors_command_and_status (h : handle) (config : Config) (w : world)
    (t : N) (command status i1 i2 i3 i4 : byte) :
  APNS_ERROR_TIMEOUT config = Some t ->
  fst (sock_recv h 6 w) = Ok [command; status; i1; i2; i3; i4] ->
  (command <> x08 ->
   fst (check_errors h config w)
   = Raise (APNSError (BadResponseCommand (Z_of_byte command))))
  /\ (command = x08 -> status = x00 -> fst (check_errors h config w) = Ok tt).
Proof.
  intros Ht Hin.
  rewrite (check_errors_on_read h config w t Ht), Hin.
  rewrite error_response_six. split.
  - intros Hc.
    destruct (Z_of_byte command =? 8) eqn:E; [|reflexivity].
    apply Z.eqb_eq in E. exfalso. apply Hc.
    apply Z_of_byte_inj. exact E.
  - intros -> ->. reflexivity.
Qed.

Lemma check_errors_command_and_status_witness :
  (x02 <> x08 ->
   fst (check_errors 0%nat sample_config
          (connected_world [Data [x02; x00; x00; x00; x00; x07]]))
   = Raise (APNSError (BadResponseCommand (Z_of_byte x02))))
  /\ (x02 = x08 -> x00 = x00 ->
      fst (check_errors 0%nat sample_config
             (connected_world [Data [x02; x00; x00; x00; x00; x07]])) = Ok tt).
Proof.
  apply (check_errors_command_and_status 0%nat sample_config
           (connected_world [Data [x02; x00; x00; x00; x00; x07]])
           500%N x02 x00 x00 x00 x00 x07).
  - reflexivity.
  - reflexivity.
Defined.

(** The scenario of the protocol description: the bytes (8, 8, 1) raise the
    server error of status 8 for identifier 1. *)
Example check_errors_invalid_token_response :
  fst (check_errors 0%nat sample_config
         (connected_world [Data [x08; x08; x00; x00; x00; x01]]))
  = Raise (APNSServerError 8 1).
Proof. reflexivity. Qed.

Example check_errors_status_zero :
  fst (check_errors 0%nat sample_config
         (connected_world [Data [x08; x00; x00; x00; x00; x01]]))
  = Ok tt.
Proof. reflexivity. Qed.

(** C9: with the error timeout disabled [check_errors] touches no socket: it
    returns at once; otherwise it sets the timeout, reads once, and sets the
    timeout it found back, whatever the read gave and whatever it raises. *)
Theorem check_errors_timeout_discipline (h : handle) (config : Config) (w : world) :
  (APNS_ERROR_TIMEOUT config = None ->
   check_errors h config w = (Ok tt, log (EvCheckErrors h) w)
   /\ net_trace (snd (check_errors h config w)) = net_trace w
   /\ w_socks (snd (check_errors h config w)) = w_socks w)
  /\ (forall t, APNS_ERROR_TIMEOUT config = Some t ->
      w_trace (snd (check_errors h config w))
      = w_trace w ++ [EvCheckErrors h; EvSetTimeout h (Some t); EvRecv h 6;
                      EvSetTimeout h (c_timeout (w_socks w h))]
      /\ c_timeout (w_socks (snd (check_errors h config w)) h)
         = c_timeout (w_socks w h)).
Proof.
  split.
  - intros Hnone. unfold check_errors. rewrite Hnone.
    split; [reflexivity|]. split; [|reflexivity].
    change ((mark (EvCheckErrors h) ;; ret tt) w) with (Ok tt, log (EvCheckErrors h) w).
    cbn [snd]. rewrite net_trace_log. apply app_nil_r.
  - intros t Ht.
    destruct (check_errors_spec h config w) as [_ Heff].
    unfold check_errors_calls, after_check_errors in Heff. rewrite Ht in Heff.
    split.
    + apply (eff_trace _ _ _ _ _ Heff).
    + now rewrite (eff_sock _ _ _ _ _ Heff).
Qed.

Lemma check_errors_timeout_discipline_witness :
  w_trace (snd (check_errors 0%nat sample_config (timeout_world [Fails socket_timeout])))
  = w_trace (timeout_world [Fails socket_timeout])
    ++ [EvCheckErrors 0%nat; EvSetTimeout 0%nat (Some 500%N); EvRecv 0%nat 6;
        EvSetTimeout 0%nat
          (c_timeout (w_socks (timeout_world [Fails socket_timeout]) 0%nat))]
  /\ c_timeout (w_socks (snd (check_errors 0%nat sample_config
                                (timeout_world [Fails socket_timeout]))) 0%nat)
     = c_timeout (w_socks (timeout_world [Fails socket_timeout]) 0%nat).
Proof.
  apply (proj2 (check_errors_timeout_discipline 0%nat sample_config
                  (timeout_world [Fails socket_timeout])) 500%N).
  reflexivity.
Defined.

(** The exit paths one by one, on a socket whose timeout was 30 seconds: no
    data, a timeout, an SSL time-out, another SSL error, a server error, a bad
    command, a short read. *)
Example check_errors_exit_paths :
  map (fun inbox =>
         let (r, w') := check_errors 0%nat sample_config (timeout_world inbox) in
         (r, c_timeout (w_socks w' 0%nat)))
      [ [];
        [Fails socket_timeout];
        [Fails (ssl_SSLError "The read operation timed out")];
        [Fails (ssl_SSLError "bad record mac")];
        [Data [x08; x08; x00; x00; x00; x01]];
        [Data [x02; x00; x00; x00; x00; x01]];
        [Data [x08; x08]] ]
  = [ (Ok tt, Some 30000%N);
      (Ok tt, Some 30000%N);
      (Ok tt, Some 30000%N);
      (Raise (IOError (ssl_SSLError "bad record mac")), Some 30000%N);
      (Raise (APNSServerError 8 1), Some 30000%N);
      (Raise (APNSError (BadResponseCommand 2)), Some 30000%N);
      (Raise struct_error, Some 30000%N) ].
Proof. reflexivity. Qed.

(** C10: a read of one to five bytes is unpacked as it is, and the unpacking
    of the six-byte format fails: [check_errors] raises [struct.error], which
    is neither the silent success of an empty read nor an [APNSError]. *)
Theorem check_errors_short_read (h : handle) (config : Config) (w : world)
    (t : N) (data : bytes) :
  APNS_ERROR_TIMEOUT config = Some t ->
  fst (sock_recv h 6 w) = Ok data ->
  (1 <= List.length data <= 5)%nat ->
  fst (check_errors h config w) = Raise struct_error
  /\ fst (check_errors h config w) <> Ok tt
  /\ (forall m, fst (check_errors h config w) <> Raise (APNSError m))
  /\ c_timeout (w_socks (snd (check_errors h config w)) h) = c_timeout (w_socks w h).
Proof.
  intros Ht Hin Hlen.
  assert (Hres : fst (check_errors h config w) = Raise struct_error).
  { rewrite (check_errors_on_read h config w t Ht), Hin.
    unfold error_response_outcome, struct_unpack.
    destruct data as [|b data]; [cbn in Hlen; lia|].
    replace (Nat.eqb (List.length (b :: data)) (calcsize [fmt_B; fmt_B; fmt_I])) with false
      by (symmetry; apply Nat.eqb_neq; cbn in *; lia).
    reflexivity. }
  rewrite Hres. repeat split; try congruence.
  destruct (check_errors_spec h config w) as [_ Heff].
  rewrite (eff_sock _ _ _ _ _ Heff).
  unfold after_check_errors. now rewrite Ht.
Qed.

Lemma check_errors_short_read_witness :
  fst (check_errors 0%nat sample_config (connected_world [Data [x08; x08; x00]]))
  = Raise struct_error
  /\ fst (check_errors 0%nat sample_config (connected_world [Data [x08; x08; x00]]))
     <> Ok tt
  /\ (forall m,
        fst (check_errors 0%nat sample_config (connected_world [Data [x08; x08; x00]]))
        <> Raise (APNSError m))
  /\ c_timeout (w_socks (snd (check_errors 0%nat sample_config
                                (connected_world [Data [x08; x08; x00]]))) 0%nat)
     = c_timeout (w_socks (connected_world [Data [x08; x08; x00]]) 0%nat).
Proof.
  apply (check_errors_short_read 0%nat sample_config
           (connected_world [Data [x08; x08; x00]]) 500%N [x08; x08; x00]).
  - reflexivity.
  - reflexivity.
  - cbn. lia.
Defined.

(** ** The feedback stream *)

Lemma read_and_unpack_run (h : handle) (f : list fmt_code) (w : world) :
  read_and_unpack h f w
  = (match fst (sock_recv h (calcsize f) w) with
     | Ok [] => Ok None
     | Ok data =>
         match struct_unpack_from f data with
         | Ok fields => Ok (Some fields)
         | Raise e => Raise e
         end
     | Raise e => Raise e
     end, snd (sock_recv h (calcsize f) w)).
Proof.
  unfold read_and_unpack, bind.
  destruct (sock_recv h (calcsize f) w) as [[data|e] w1]; cbn [fst snd]; [|reflexivity].
  destruct data as [|b data]; cbn [truthy]; [reflexivity|].
  unfold lift, ret.
  destruct (struct_unpack_from f (b :: data)); reflexivity.
Qed.

Lemma header_fields (t1 t2 t3 t4 l1 l2 : byte) :
  struct_unpack_from [fmt_L; fmt_H] [t1; t2; t3; t4; l1; l2]
  = Ok [PInt (be_value [t1; t2; t3; t4]); PInt (be_value [l1; l2])].
Proof. reflexivity. Qed.

Lemma struct_unpack_from_short (f : list fmt_code) (data : bytes) :
  (List.length data < calcsize f)%nat ->
  struct_unpack_from f data = Raise struct_error.
Proof.
  intros H. unfold struct_unpack_from.
  replace (Nat.leb (calcsize f) (List.length data)) with false
    by (symmetry; apply Nat.leb_gt; exact H).
  reflexivity.
Qed.

Lemma token_fields (n : nat) (body : bytes) :
  List.length body = n ->
  struct_unpack_from [fmt_s n] body = Ok [PStr body].
Proof.
  intros H. unfold struct_unpack_from. cbn [calcsize code_size].
  rewrite Nat.add_0_r.
  replace (Nat.leb n (List.length body)) with true
    by (symmetry; apply Nat.leb_le; lia).
  cbn [unpack_fields unpack_value code_size].
  subst n. now rewrite firstn_all.
Qed.

(** An empty read where a header is expected ends the loop. *)
Lemma turn_header_empty (h : handle) (acc : list (string * Z)) (w : world) :
  fst (sock_recv h 6 w) = Ok [] ->
  receive_feedback_turn h acc w = (Ok (false, acc), snd (sock_recv h 6 w)).
Proof.
  intros H. unfold receive_feedback_turn, try_except, bind.
  rewrite read_and_unpack_run.
  change (calcsize [fmt_L; fmt_H]) with 6%nat. rewrite H. reflexivity.
Qed.

(** A read of one to five bytes where a header is expected raises. *)
Lemma turn_header_partial (h : handle) (acc : list (string * Z)) (w : world)
    (data : bytes) :
  fst (sock_recv h 6 w) = Ok data ->
  (1 <= List.length data < 6)%nat ->
  receive_feedback_turn h acc w = (Raise struct_error, snd (sock_recv h 6 w)).
Proof.
  intros H Hlen. unfold receive_feedback_turn, try_except, bind.
  rewrite read_and_unpack_run.
  change (calcsize [fmt_L; fmt_H]) with 6%nat. rewrite H.
  destruct data as [|b data]; [cbn in Hlen; lia|].
  rewrite struct_unpack_from_short by (cbn in *; lia).
  reflexivity.
Qed.

(** After a whole header, the outcome of the turn is that of the read of the
    token. *)
Lemma turn_header_whole (h : handle) (acc : list (string * Z)) (w : world)
    (t1 t2 t3 t4 l1 l2 : byte) :
  fst (sock_recv h 6 w) = Ok [t1; t2; t3; t4; l1; l2] ->
  let w1 := snd (sock_recv h 6 w) in
  let n := Z.to_nat (be_value [l1; l2]) in
  receive_feedback_turn h acc w
  = (match fst (sock_recv h n w1) with
     | Ok [] => Ok (true, acc)
     | Ok body =>
         if Nat.ltb (List.length body) n
         then Raise struct_error
         else Ok (true, acc ++ [(hexlify (firstn n body), be_value [t1; t2; t3; t4])])
     | Raise (IOError socket_timeout) => Ok (true, acc)
     | Raise (IOError (ssl_SSLError message)) =>
         if contains "timed out" message
         then Ok (true, acc)
         else Raise (IOError (ssl_SSLError message))
     | Raise e => Raise e
     end, snd (sock_recv h n w1)).
Proof.
  intros H w1 n. unfold receive_feedback_turn, try_except, bind.
  rewrite read_and_unpack_run.
  change (calcsize [fmt_L; fmt_H]) with 6%nat. rewrite H, header_fields.
  cbn beta iota. fold w1. rewrite read_and_unpack_run.
  cbn [calcsize code_size]. rewrite Nat.add_0_r. fold n.
  destruct (sock_recv h n w1) as [[body|e] w2]; cbn [fst snd].
  - destruct body as [|b body]; [reflexivity|].
    unfold struct_unpack_from. cbn [calcsize code_size]. rewrite Nat.add_0_r.
    destruct (Nat.ltb (List.length (b :: body)) n) eqn:L.
    + apply Nat.ltb_lt in L.
      replace (Nat.leb n (List.length (b :: body))) with false
        by (symmetry; apply Nat.leb_gt; exact L).
      reflexivity.
    + apply Nat.ltb_ge in L.
      replace (Nat.leb n (List.length (b :: body))) with true
        by (symmetry; apply Nat.leb_le; exact L).
      reflexivity.
  - unfold suppress_timeouts, raise, ret.
    destruct e as [| | | | | | [| message | message]]; try reflexivity.
    destruct (contains "timed out" message); reflexivity.
Qed.

Lemma take_delivery_length (n : nat) (inbox : list delivery) (data : bytes) :
  fst (take_delivery n inbox) = Ok data -> (List.length data <= n)%nat.
Proof.
  destruct inbox as [|[bs|e] rest]; cbn [take_delivery].
  - intros H. inversion H. cbn. lia.
  - destruct (Nat.leb (List.length bs) n) eqn:L; cbn [fst]; intros H; inversion H; subst.
    + now apply Nat.leb_le.
    + rewrite length_firstn. lia.
  - discriminate.
Qed.

Lemma take_delivery_pending_le (n : nat) (inbox : list delivery) :
  (pending (snd (take_delivery n inbox)) <= pending inbox)%nat.
Proof.
  destruct inbox as [|[bs|e] rest]; cbn [take_delivery pending snd]; try lia.
  destruct (Nat.leb (List.length bs) n); cbn [snd pending]; [lia|].
  rewrite length_skipn. lia.
Qed.

Lemma take_delivery_pending_lt (n : nat) (inbox : list delivery) :
  (0 < n)%nat ->
  fst (take_delivery n inbox) <> Ok [] ->
  (pending (snd (take_delivery n inbox)) < pending inbox)%nat.
Proof.
  intros Hn. destruct inbox as [|[bs|e] rest]; cbn [take_delivery pending snd fst].
  - congruence.
  - destruct (Nat.leb (List.length bs) n) eqn:L; cbn [snd fst pending]; intros H; [lia|].
    apply Nat.leb_gt in L. rewrite length_skipn. lia.
  - intros _. lia.
Qed.

(** A turn that asks for another one has taken something off the socket. *)
Lemma turn_progress (h : handle) (acc acc' : list (string * Z)) (w w' : world) :
  receive_feedback_turn h acc w = (Ok (true, acc'), w') ->
  (pending (c_inbox (w_socks w' h)) < pending (c_inbox (w_socks w h)))%nat.
Proof.
  intros Hturn.
  pose proof (take_delivery_pending_lt 6 (c_inbox (w_socks w h)) ltac:(lia)) as Hlt.
  pose proof (take_delivery_length 6 (c_inbox (w_socks w h))) as Hlen.
  rewrite <- sock_recv_fst, <- sock_recv_inbox in Hlt.
  rewrite <- sock_recv_fst in Hlen.
  destruct (fst (sock_recv h 6 w)) as [data|e] eqn:E.
  - specialize (Hlen data eq_refl).
    destruct data as [|t1 [|t2 [|t3 [|t4 [|l1 [|l2 [|x data]]]]]]];
      try (rewrite (turn_header_partial h acc w _ E) in Hturn by (cbn; lia);
           discriminate Hturn).
    + rewrite (turn_header_empty h acc w E) in Hturn. discriminate Hturn.
    + rewrite (turn_header_whole h acc w _ _ _ _ _ _ E) in Hturn.
      inversion Hturn as [[Hres Hw]].
      rewrite sock_recv_inbox.
      eapply Nat.le_lt_trans; [apply take_delivery_pending_le|].
      apply Hlt. discriminate.
    + cbn in Hlen. lia.
  - assert (Hw : w' = snd (sock_recv h 6 w)).
    { unfold receive_feedback_turn, try_except, bind in Hturn.
      rewrite read_and_unpack_run in Hturn.
      change (calcsize [fmt_L; fmt_H]) with 6%nat in Hturn. rewrite E in Hturn.
      unfold suppress_timeouts, raise, ret in Hturn.
      destruct e as [| | | | | | [| message | message]]; try discriminate Hturn.
      - now inversion Hturn.
      - destruct (contains "timed out" message); [now inversion Hturn | discriminate Hturn]. }
    subst w'. apply Hlt. discriminate.
Qed.

(** The loop ends on every socket: its turns are bounded by what the socket
    still has to deliver. *)
Lemma receive_feedback_loop_terminates (fuel : nat) :
  forall (h : handle) (acc : list (string * Z)) (w : world),
    (pending (c_inbox (w_socks w h)) < fuel)%nat ->
    exists r w', receive_feedback_loop fuel h acc w = Some (r, w').
Proof.
  induction fuel as [|fuel IH]; intros h acc w Hfuel; [lia|].
  cbn [receive_feedback_loop].
  destruct (receive_feedback_turn h acc w) as [[[[|] acc']|e] w'] eqn:E.
  - apply IH. apply turn_progress in E. lia.
  - eauto.
  - eauto.
Qed.

(** More turns than needed change nothing. *)
Lemma receive_feedback_loop_more_fuel (fuel : nat) :
  forall (h : handle) (acc : list (string * Z)) (w : world) out,
    receive_feedback_loop fuel h acc w = Some out ->
    receive_feedback_loop (S fuel) h acc w = Some out.
Proof.
  induction fuel as [|fuel IH]; intros h acc w out H; [discriminate H|].
  cbn [receive_feedback_loop] in H.
  change (receive_feedback_loop (S (S fuel)) h acc w)
    with (match receive_feedback_turn h acc w with
          | (Ok (true, acc'), w') => receive_feedback_loop (S fuel) h acc' w'
          | (Ok (false, acc'), w') => Some (Ok acc', w')
          | (Raise e, w') => Some (Raise e, w')
          end).
  destruct (receive_feedback_turn h acc w) as [[[[|] acc']|e] w'].
  - now apply IH.
  - exact H.
  - exact H.
Qed.

Lemma loop_header_empty (fuel : nat) (h : handle) (acc : list (string * Z)) (w : world) :
  fst (sock_recv h 6 w) = Ok [] ->
  receive_feedback_loop (S fuel) h acc w = Some (Ok acc, snd (sock_recv h 6 w)).
Proof.
  intros H. cbn [receive_feedback_loop]. now rewrite turn_header_empty.
Qed.

Lemma loop_header_partial (fuel : nat) (h : handle) (acc : list (string * Z))
    (w : world) (data : bytes) :
  fst (sock_recv h 6 w) = Ok data ->
  (1 <= List.length data < 6)%nat ->
  receive_feedback_loop (S fuel) h acc w
  = Some (Raise struct_error, snd (sock_recv h 6 w)).
Proof.
  intros H Hlen. cbn [receive_feedback_loop].
  now rewrite (turn_header_partial h acc w data H Hlen).
Qed.

Lemma loop_token_empty (fuel : nat) (h : handle) (acc : list (string * Z)) (w : world)
    (t1 t2 t3 t4 l1 l2 : byte) :
  fst (sock_recv h 6 w) = Ok [t1; t2; t3; t4; l1; l2] ->
  let w1 := snd (sock_recv h 6 w) in
  let n := Z.to_nat (be_value [l1; l2]) in
  fst (sock_recv h n w1) = Ok [] ->
  receive_feedback_loop (S fuel) h acc w
  = receive_feedback_loop fuel h acc (snd (sock_recv h n w1)).
Proof.
  intros H w1 n Hbody. cbn [receive_feedback_loop].
  rewrite (turn_header_whole h acc w _ _ _ _ _ _ H).
  fold w1 n. now rewrite Hbody.
Qed.

Lemma loop_token_partial (fuel : nat) (h : handle) (acc : list (string * Z)) (w : world)
    (t1 t2 t3 t4 l1 l2 : byte) (body : bytes) :
  fst (sock_recv h 6 w) = Ok [t1; t2; t3; t4; l1; l2] ->
  let w1 := snd (sock_recv h 6 w) in
  let n := Z.to_nat (be_value [l1; l2]) in
  fst (sock_recv h n w1) = Ok body ->
  (1 <= List.length body < n)%nat ->
  receive_feedback_loop (S fuel) h acc w
  = Some (Raise struct_error, snd (sock_recv h n w1)).
Proof.
  intros H w1 n Hbody Hlen. cbn [receive_feedback_loop].
  rewrite (turn_header_whole h acc w _ _ _ _ _ _ H).
  fold w1 n. rewrite Hbody.
  destruct body as [|b body]; [cbn in Hlen; lia|].
  replace (Nat.ltb (List.length (b :: body)) n) with true
    by (symmetry; apply Nat.ltb_lt; lia).
  reflexivity.
Qed.

Lemma loop_token_whole (fuel : nat) (h : handle) (acc : list (string * Z)) (w : world)
    (t1 t2 t3 t4 l1 l2 : byte) (body : bytes) :
  fst (sock_recv h 6 w) = Ok [t1; t2; t3; t4; l1; l2] ->
  let w1 := snd (sock_recv h 6 w) in
  let n := Z.to_nat (be_value [l1; l2]) in
  fst (sock_recv h n w1) = Ok body ->
  (1 <= List.length body)%nat ->
  List.length body = n ->
  receive_feedback_loop (S fuel) h acc w
  = receive_feedback_loop fuel h
      (acc ++ [(hexlify body, be_value [t1; t2; t3; t4])])
      (snd (sock_recv h n w1)).
Proof.
  intros H w1 n Hbody Hlen Hn. cbn [receive_feedback_loop].
  rewrite (turn_header_whole h acc w _ _ _ _ _ _ H).
  fold w1 n. rewrite Hbody.
  destruct body as [|b body]; [cbn in Hlen; lia|].
  replace (Nat.ltb (List.length (b :: body)) n) with false
    by (symmetry; apply Nat.ltb_ge; lia).
  rewrite <- Hn, firstn_all. reflexivity.
Qed.

Lemma receive_feedback_one_record (fuel : nat) (h : handle) (w : world)
    (timestamp : Z) (token_bin : bytes) :
  c_inbox (w_socks w h) = [Data (feedback_record timestamp token_bin)] ->
  0 <= timestamp < 2 ^ 32 ->
  (1 <= List.length token_bin)%nat ->
  Z.of_nat (List.length token_bin) <= 65535 ->
  exists w',
    receive_feedback (S (S fuel)) h w = Some (Ok [(hexlify token_bin, timestamp)], w')
    /\ c_inbox (w_socks w' h) = [].
Proof.
  intros Hin Hts Hlen1 Hlen2.
  assert (E4 : exists a b c d, be_bytes 4 timestamp = [a; b; c; d])
    by (do 4 eexists; reflexivity).
  assert (E2 : exists e f, be_bytes 2 (Z.of_nat (List.length token_bin)) = [e; f])
    by (do 2 eexists; reflexivity).
  destruct E4 as (a & b & c & d & E4). destruct E2 as (e & f & E2).
  assert (Hts' : be_value [a; b; c; d] = timestamp)
    by (rewrite <- E4; apply be_value_be_bytes_small; cbn; lia).
  assert (Hn : Z.to_nat (be_value [e; f]) = List.length token_bin).
  { rewrite <- E2, be_value_be_bytes_small by (cbn; lia). apply Nat2Z.id. }
  destruct token_bin as [|x token_bin]; [cbn in Hlen1; lia|].
  unfold feedback_record in Hin. rewrite E4, E2 in Hin. cbn [app] in Hin.
  assert (H1 : fst (sock_recv h 6 w) = Ok [a; b; c; d; e; f]).
  { rewrite sock_recv_fst, Hin. reflexivity. }
  assert (I1 : c_inbox (w_socks (snd (sock_recv h 6 w)) h) = [Data (x :: token_bin)]).
  { rewrite sock_recv_inbox, Hin. reflexivity. }
  set (w1 := snd (sock_recv h 6 w)) in *.
  set (n := Z.to_nat (be_value [e; f])) in *.
  assert (H2 : fst (sock_recv h n w1) = Ok (x :: token_bin)).
  { rewrite sock_recv_fst, I1. cbn [take_delivery]. rewrite Hn, Nat.leb_refl. reflexivity. }
  assert (I2 : c_inbox (w_socks (snd (sock_recv h n w1)) h) = []).
  { rewrite sock_recv_inbox, I1. cbn [take_delivery]. rewrite Hn, Nat.leb_refl. reflexivity. }
  set (w2 := snd (sock_recv h n w1)) in *.
  assert (H3 : fst (sock_recv h 6 w2) = Ok []).
  { rewrite sock_recv_fst, I2. reflexivity. }
  exists (snd (sock_recv h 6 w2)). split.
  - unfold receive_feedback.
    rewrite (loop_token_whole (S fuel) h [] w a b c d e f (x :: token_bin) H1 H2)
      by (first [exact Hlen1 | symmetry; exact Hn]).
    fold w1 n w2. rewrite (loop_header_empty fuel h _ w2 H3).
    now rewrite Hts'.
  - rewrite sock_recv_inbox, I2. reflexivity.
Qed.

(** C2 (what the code does): an empty read where a header is expected ends
    the sequence normally; an empty read where a token is expected drops that
    record and the loop goes on to read the next header; a read of fewer bytes
    than asked, at either place, raises [struct.error]; a whole record is
    appended; an empty read at the start gives the empty sequence; a stream of
    exactly one well-formed record gives exactly that record; and the loop
    ends on every socket. *)
Theorem receive_feedback_reads (h : handle) (acc : list (string * Z)) (w : world)
    (fuel : nat) :
  (fst (sock_recv h 6 w) = Ok [] ->
   receive_feedback_loop (S fuel) h acc w = Some (Ok acc, snd (sock_recv h 6 w)))
  /\ (forall data,
      fst (sock_recv h 6 w) = Ok data ->
      (1 <= List.length data < 6)%nat ->
      receive_feedback_loop (S fuel) h acc w
      = Some (Raise struct_error, snd (sock_recv h 6 w)))
  /\ (forall t1 t2 t3 t4 l1 l2,
      fst (sock_recv h 6 w) = Ok [t1; t2; t3; t4; l1; l2] ->
      let w1 := snd (sock_recv h 6 w) in
      let n := Z.to_nat (be_value [l1; l2]) in
      let w2 := snd (sock_recv h n w1) in
      (fst (sock_recv h n w1) = Ok [] ->
       receive_feedback_loop (S fuel) h acc w = receive_feedback_loop fuel h acc w2)
      /\ (forall body,
          fst (sock_recv h n w1) = Ok body ->
          (1 <= List.length body < n)%nat ->
          receive_feedback_loop (S fuel) h acc w = Some (Raise struct_error, w2))
      /\ (forall body,
          fst (sock_recv h n w1) = Ok body ->
          (1 <= List.length body)%nat ->
          List.length body = n ->
          receive_feedback_loop (S fuel) h acc w
          = receive_feedback_loop fuel h
              (acc ++ [(hexlify body, be_value [t1; t2; t3; t4])]) w2))
  /\ (fst (sock_recv h 6 w) = Ok [] ->
      receive_feedback (S fuel) h w = Some (Ok [], snd (sock_recv h 6 w)))
  /\ (forall timestamp token_bin,
      c_inbox (w_socks w h) = [Data (feedback_record timestamp token_bin)] ->
      0 <= timestamp < 2 ^ 32 ->
      (1 <= List.length token_bin)%nat ->
      Z.of_nat (List.length token_bin) <= 65535 ->
      exists w',
        receive_feedback (S (S fuel)) h w
        = Some (Ok [(hexlify token_bin, timestamp)], w')
        /\ c_inbox (w_socks w' h) = [])
  /\ ((pending (c_inbox (w_socks w h)) < fuel)%nat ->
      exists r w', receive_feedback_loop fuel h acc w = Some (r, w')).
Proof.
  split; [apply loop_header_empty|].
  split; [apply loop_header_partial|].
  split.
  { intros t1 t2 t3 t4 l1 l2 H w1 n w2.
    split; [apply (loop_token_empty fuel h acc w _ _ _ _ _ _ H)|].
    split.
    - intros body. apply (loop_token_partial fuel h acc w _ _ _ _ _ _ body H).
    - intros body. apply (loop_token_whole fuel h acc w _ _ _ _ _ _ body H). }
  split; [apply loop_header_empty|].
  split; [apply receive_feedback_one_record|].
  apply receive_feedback_loop_terminates.
Qed.

(** ** What can be raised *)

Section RaisesOnly.

Context {P : exn -> Prop}.

Lemma ro_ret {A} (a : A) : raises_only P (ret a).
Proof. intros w e w' H. discriminate H. Qed.

Lemma ro_raise {A} (e : exn) : P e -> raises_only P (@raise A e).
Proof. intros He w e' w' H. inversion H; subst. exact He. Qed.

Lemma ro_lift {A} (r : result A) :
  (forall e, r = Raise e -> P e) -> raises_only P (lift r).
Proof. intros Hr w e w' H. inversion H; subst. now apply Hr. Qed.

Lemma ro_bind {A B} (m : M A) (k : A -> M B) :
  raises_only P m -> (forall a, raises_only P (k a)) -> raises_only P (bind m k).
Proof.
  intros Hm Hk w e w' H. unfold bind in H.
  destruct (m w) as [[a|e0] w1] eqn:E.
  - exact (Hk a _ _ _ H).
  - inversion H; subst. exact (Hm _ _ _ E).
Qed.

Lemma ro_mark (ev : event) : raises_only P (mark ev).
Proof. intros w e w' H. discriminate H. Qed.

Lemma ro_when (b : bool) (m : M unit) : raises_only P m -> raises_only P (when b m).
Proof. intros Hm. destruct b; [exact Hm | apply ro_ret]. Qed.

Lemma ro_try_finally {A} (body : M A) (final : M unit) :
  raises_only P body -> raises_only P final -> raises_only P (try_finally body final).
Proof.
  intros Hb Hf w e w' H. unfold try_finally in H.
  destruct (body w) as [r w1] eqn:Eb.
  destruct (final w1) as [[u|e1] w2] eqn:Ef.
  - inversion H; subst. exact (Hb _ _ _ Eb).
  - inversion H; subst. exact (Hf _ _ _ Ef).
Qed.

Lemma ro_for_each {A} (xs : list A) (body : A -> M unit) :
  (forall x, raises_only P (body x)) -> raises_only P (for_each xs body).
Proof.
  intros Hb. induction xs as [|x xs IH]; cbn [for_each].
  - apply ro_ret.
  - apply ro_bind; [apply Hb | intros _; exact IH].
Qed.

Lemma ro_sock_close (h : handle) : raises_only P (sock_close h).
Proof. intros w e w' H. discriminate H. Qed.

Lemma ro_time_time : raises_only P time_time.
Proof. intros w e w' H. discriminate H. Qed.

Lemma ro_file_read (path : string) : raises_only P (file_read path).
Proof. intros w e w' H. discriminate H. Qed.

Lemma ro_with_closing {A} (open : M handle) (body : handle -> M A) :
  raises_only P open -> (forall c, raises_only P (body c)) ->
  raises_only P (with_closing open body).
Proof.
  intros Ho Hb. unfold with_closing. apply ro_bind; [exact Ho|].
  intros c. apply ro_try_finally; [apply Hb | apply ro_sock_close].
Qed.

End RaisesOnly.

Lemma unhexlify_raises (s : string) (e : exn) :
  unhexlify s = Raise e -> e = binascii_TypeError.
Proof.
  induction s as [| a | a b rest IH] using string_pair_ind; cbn [unhexlify]; intros H.
  - discriminate H.
  - now inversion H.
  - destruct (hex_value a); [|now inversion H].
    destruct (hex_value b); [|now inversion H].
    destruct (unhexlify rest); [discriminate H|].
    inversion H; subst. now apply IH.
Qed.

Lemma pack_value_raises (c : fmt_code) (v : pyval) (e : exn) :
  pack_value c v = Raise e -> e = struct_error.
Proof.
  unfold pack_value, pack_int.
  destruct c, v; try congruence;
    match goal with |- context [if ?b then _ else _] => destruct b end; congruence.
Qed.

Lemma struct_pack_raises (f : list fmt_code) :
  forall (vs : list pyval) (e : exn), struct_pack f vs = Raise e -> e = struct_error.
Proof.
  induction f as [|c f IH]; intros [|v vs] e H; cbn [struct_pack] in H;
    try congruence.
  destruct (pack_value c v) eqn:Ev.
  - destruct (struct_pack f vs) eqn:Es; [discriminate H|].
    inversion H; subst. eapply IH, Es.
  - inversion H; subst. eapply pack_value_raises, Ev.
Qed.

Lemma pack_frame_raises (token : string) (payload : bytes)
    (identifier expiration priority : Z) (e : exn) :
  pack_frame token payload identifier expiration priority = Raise e ->
  not_validation e.
Proof.
  unfold pack_frame. destruct (unhexlify token) eqn:E; intros H.
  - apply struct_pack_raises in H. now subst.
  - inversion H; subst. apply unhexlify_raises in E. now subst.
Qed.

Lemma take_delivery_raises (n : nat) (inbox : list delivery) (e : exn) :
  fst (take_delivery n inbox) = Raise e -> exists io, e = IOError io.
Proof.
  destruct inbox as [|[bs|io] rest]; cbn [take_delivery].
  - discriminate.
  - destruct (Nat.leb _ _); discriminate.
  - intros H. inversion H. eauto.
Qed.

Lemma error_response_outcome_raises (received : result bytes) (e : exn) :
  (forall e0, received = Raise e0 -> exists io, e0 = IOError io) ->
  error_response_outcome received = Raise e -> not_validation e.
Proof.
  intros Hio. unfold error_response_outcome.
  destruct received as [data|e0].
  - destruct data as [|b data]; [discriminate|].
    destruct (struct_unpack [fmt_B; fmt_B; fmt_I] (b :: data)) as [fields|e'] eqn:E.
    + repeat break_match; intros H; inversion H; reflexivity.
    + apply struct_unpack_raises in E. subst e'. intros H. now inversion H.
  - destruct (Hio e0 eq_refl) as [io ->].
    repeat break_match; intros H; inversion H; reflexivity.
Qed.

Lemma ro_check_errors (h : handle) (config : Config) :
  raises_only not_validation (check_errors h config).
Proof.
  intros w e w' H.
  pose proof (proj1 (check_errors_spec h config w)) as Hout.
  rewrite H in Hout. cbn [fst] in Hout. symmetry in Hout.
  unfold check_errors_outcome in Hout.
  destruct (APNS_ERROR_TIMEOUT config); [|discriminate Hout].
  eapply error_response_outcome_raises; [|exact Hout].
  intros e0. apply take_delivery_raises.
Qed.

Lemma ro_sock_write (h : handle) (data : bytes) :
  raises_only not_validation (sock_write h data).
Proof.
  intros w e w' H. unfold sock_write in H.
  destruct (c_write_errors (w_socks w h)) as [|[io|] rest]; inversion H; reflexivity.
Qed.

Lemma ro_sock_connect (host : string) (port : Z) :
  raises_only not_validation (sock_connect host port).
Proof.
  intros w e w' H. unfold sock_connect in H.
  destruct (w_peer w host port); inversion H; reflexivity.
Qed.

Lemma ro_create_socket (host : string) (port : Z) (certfile : string) :
  raises_only not_validation (create_socket host port certfile).
Proof.
  unfold create_socket.
  destruct (negb (string_truthy certfile)); [now apply ro_raise|].
  apply ro_bind; [apply ro_file_read|]. intros readable.
  destruct (negb readable); [now apply ro_raise | apply ro_sock_connect].
Qed.

Lemma ro_create_push_socket (config : Config) :
  raises_only not_validation (create_push_socket config).
Proof. apply ro_create_socket. Qed.

(** ** [send] *)

Lemma bind_ok {A B} (m : M A) (k : A -> M B) (w w1 : world) (a : A) :
  m w = (Ok a, w1) -> bind m k w = k a w1.
Proof. intros H. unfold bind. now rewrite H. Qed.

Lemma bind_raise {A B} (m : M A) (k : A -> M B) (w w1 : world) (e : exn) :
  m w = (Raise e, w1) -> bind m k w = (Raise e, w1).
Proof. intros H. unfold bind. now rewrite H. Qed.

Lemma payload_ready_run {Alert Options : Type}
    (create_payload : Alert -> Options -> bytes)
    (alert : Alert) (options : Options) (payload : option bytes) (w : world) :
  match payload with
  | None => call_create_payload Alert Options create_payload alert options
  | Some p => ret p
  end w
  = (Ok (effective_payload create_payload alert options payload), payload_ready payload w).
Proof. destruct payload; reflexivity. Qed.

Lemma payload_ready_quiet (payload : option bytes) (w : world) :
  net_trace (payload_ready payload w) = net_trace w
  /\ w_socks (payload_ready payload w) = w_socks w
  /\ w_next (payload_ready payload w) = w_next w
  /\ w_ticks (payload_ready payload w) = w_ticks w.
Proof.
  destruct payload; cbn [payload_ready]; [tauto|].
  rewrite net_trace_log. cbn. rewrite app_nil_r. tauto.
Qed.

(** Every exception of [send] is one of: the invalid-token error, raised at
    once; the overflow error, raised once the payload is there; or, after both
    checks passed, an error that is neither of them. *)
Lemma send_raises {Alert Options : Type} (create_payload : Alert -> Options -> bytes)
    (token : string) (alert : Alert) (config : Config)
    (identifier : Z) (expiration : option Z) (priority : Z)
    (payload : option bytes) (connection : option handle) (options : Options)
    (w w' : world) (e : exn) :
  send create_payload token alert config identifier expiration priority
       payload connection options w = (Raise e, w') ->
  let p := effective_payload create_payload alert options payload in
  (is_valid_token token = false /\ e = APNSError InvalidTokenFormat /\ w' = w)
  \/ (is_valid_token token = true
      /\ Z.of_nat (List.length p) > APNS_MAX_NOTIFICATION_SIZE config
      /\ e = APNSDataOverflow (APNS_MAX_NOTIFICATION_SIZE config)
      /\ w' = payload_ready payload w)
  \/ (is_valid_token token = true
      /\ Z.of_nat (List.length p) <= APNS_MAX_NOTIFICATION_SIZE config
      /\ not_validation e).
Proof.
  intros H p. unfold send in H.
  destruct (is_valid_token token) eqn:V; cbn [negb] in H.
  - right.
    rewrite (bind_ok _ _ _ _ _ (payload_ready_run create_payload alert options payload w)) in H.
    fold p in H.
    destruct (Z.of_nat (List.length p) >? APNS_MAX_NOTIFICATION_SIZE config) eqn:L.
    + left. inversion H; subst. apply Z.gtb_gt in L. tauto.
    + right. split; [reflexivity|]. split; [rewrite Z.gtb_ltb in L; apply Z.ltb_ge in L; lia|].
      revert H.
      match goal with
      | |- ?m ?w0 = _ -> _ => assert (R : raises_only not_validation m)
      end.
      { apply ro_bind.
        { destruct expiration; [apply ro_ret|].
          apply ro_bind; [apply ro_time_time | intros; apply ro_ret]. }
        intros expiration_time. apply ro_bind.
        { apply ro_lift. intros e0. apply pack_frame_raises. }
        intros frame. destruct connection as [c|]; [apply ro_sock_write|].
        apply ro_with_closing; [apply ro_create_push_socket|].
        intros c. apply ro_bind; [apply ro_sock_write|].
        intros _. apply ro_check_errors. }
      intros H. exact (R _ _ _ H).
  - left. inversion H; subst. tauto.
Qed.

Lemma send_bad_token {Alert Options : Type} (create_payload : Alert -> Options -> bytes)
    (token : string) (alert : Alert) (config : Config)
    (identifier : Z) (expiration : option Z) (priority : Z)
    (payload : option bytes) (connection : option handle) (options : Options)
    (w : world) :
  is_hex64 token = false ->
  send create_payload token alert config identifier expiration priority
       payload connection options w
  = (Raise (APNSError InvalidTokenFormat), w).
Proof.
  intros H. unfold send. now rewrite is_valid_token_hex64, H.
Qed.

Lemma send_oversize {Alert Options : Type} (create_payload : Alert -> Options -> bytes)
    (token : string) (alert : Alert) (config : Config)
    (identifier : Z) (expiration : option Z) (priority : Z)
    (payload : option bytes) (connection : option handle) (options : Options)
    (w : world) :
  is_hex64 token = true ->
  Z.of_nat (List.length (effective_payload create_payload alert options payload))
  > APNS_MAX_NOTIFICATION_SIZE config ->
  send create_payload token alert config identifier expiration priority
       payload connection options w
  = (Raise (APNSDataOverflow (APNS_MAX_NOTIFICATION_SIZE config)),
     payload_ready payload w).
Proof.
  intros Htok Hgt. unfold send.
  rewrite is_valid_token_hex64, Htok. cbn [negb].
  rewrite (bind_ok _ _ _ _ _ (payload_ready_run create_payload alert options payload w)).
  replace (Z.of_nat (List.length (effective_payload create_payload alert options payload))
           >? APNS_MAX_NOTIFICATION_SIZE config) with true
    by (symmetry; apply Z.gtb_gt; lia).
  reflexivity.
Qed.

(** C5: [send] raises the invalid-token error exactly for the tokens that are
    not 64 hexadecimal characters, and raises it at once, the world untouched
    (no payload built, no frame packed); a token of 64 hexadecimal characters
    passes the validation. *)
Theorem send_rejects_exactly_bad_tokens {Alert Options : Type}
    (create_payload : Alert -> Options -> bytes)
    (token : string) (alert : Alert) (config : Config)
    (identifier : Z) (expiration : option Z) (priority : Z)
    (payload : option bytes) (connection : option handle) (options : Options)
    (w : world) :
  let run := send create_payload token alert config identifier expiration priority
                  payload connection options w in
  (fst run = Raise (APNSError InvalidTokenFormat) <-> is_hex64 token = false)
  /\ (is_hex64 token = false -> run = (Raise (APNSError InvalidTokenFormat), w))
  /\ (is_hex64 token = true -> is_valid_token token = true)
  /\ is_valid_token token = is_hex64 token.
Proof.
  intros run.
  assert (Hbad : is_hex64 token = false ->
                 run = (Raise (APNSError InvalidTokenFormat), w)).
  { intros H. subst run. now apply send_bad_token. }
  split; [|split; [exact Hbad | split; [now rewrite is_valid_token_hex64
                                        | apply is_valid_token_hex64]]].
  split.
  - intros Hr. destruct (is_hex64 token) eqn:V; [|reflexivity]. exfalso.
    destruct run as [r w'] eqn:E. cbn [fst] in Hr. subst r.
    apply send_raises in E. rewrite is_valid_token_hex64, V in E.
    destruct E as [(E & _) | [(_ & _ & E & _) | (_ & _ & E)]]; discriminate E.
  - intros H. now rewrite (Hbad H).
Qed.

Lemma pack_value_length (c : fmt_code) (v : pyval) (b : bytes) :
  pack_value c v = Ok b -> List.length b = code_size c.
Proof.
  unfold pack_value, pack_int.
  destruct c as [| | | | n], v as [z|s]; try discriminate;
    try (match goal with |- context [if ?c then _ else _] => destruct c end;
         [|discriminate];
         intros H;
         apply (f_equal (fun r => match r with
                                  | Ok x => List.length x
                                  | Raise _ => 0%nat
                                  end)) in H;
         rewrite length_be_bytes in H; now symmetry).
  intros H. injection H as H; subst b.
  rewrite length_app, length_firstn, repeat_length. cbn [code_size]. lia.
Qed.

Lemma struct_pack_length (f : list fmt_code) :
  forall (vs : list pyval) (bs : bytes),
    struct_pack f vs = Ok bs -> List.length bs = calcsize f.
Proof.
  induction f as [|c f IH]; intros [|v vs] bs H; cbn [struct_pack] in H;
    try discriminate.
  - now inversion H.
  - destruct (pack_value c v) as [b|] eqn:Ev; [|discriminate].
    destruct (struct_pack f vs) as [r|] eqn:Es; [|discriminate].
    inversion H. rewrite length_app. cbn [calcsize].
    now rewrite (pack_value_length _ _ _ Ev), (IH _ _ Es).
Qed.

Lemma pack_frame_length (token : string) (payload : bytes)
    (identifier expiration priority : Z) (frame : bytes) :
  is_hex64 token = true ->
  pack_frame token payload identifier expiration priority = Ok frame ->
  List.length frame = (61 + List.length payload)%nat.
Proof.
  intros Htok H. destruct (is_hex64_bytes token Htok) as (token_bin & Hun & Hlen).
  unfold pack_frame in H. rewrite Hun in H.
  apply struct_pack_length in H. rewrite H, Hlen. cbn [calcsize code_size]. lia.
Qed.

(** C6: a payload of exactly the configured maximum does not raise the
    overflow error, and one byte more raises it (the token being valid);
    what is compared is the length of the payload, not that of the frame,
    which is 61 bytes longer, and the error is raised before the clock is read
    and the frame is packed. *)
Theorem send_payload_size_check {Alert Options : Type}
    (create_payload : Alert -> Options -> bytes)
    (token : string) (alert : Alert) (config : Config)
    (identifier : Z) (expiration : option Z) (priority : Z)
    (payload : option bytes) (connection : option handle) (options : Options)
    (w : world) :
  let p := effective_payload create_payload alert options payload in
  let max_size := APNS_MAX_NOTIFICATION_SIZE config in
  let run := send create_payload token alert config identifier expiration priority
                  payload connection options w in
  (Z.of_nat (List.length p) = max_size ->
   forall m, fst run <> Raise (APNSDataOverflow m))
  /\ (Z.of_nat (List.length p) <= max_size ->
      forall m, fst run <> Raise (APNSDataOverflow m))
  /\ (is_hex64 token = true -> Z.of_nat (List.length p) = max_size + 1 ->
      run = (Raise (APNSDataOverflow max_size), payload_ready payload w))
  /\ (is_hex64 token = true -> Z.of_nat (List.length p) > max_size ->
      run = (Raise (APNSDataOverflow max_size), payload_ready payload w))
  /\ (is_hex64 token = true ->
      forall expiration_time frame,
        pack_frame token p identifier expiration_time priority = Ok frame ->
        List.length frame = (61 + List.length p)%nat).
Proof.
  intros p max_size run.
  assert (Hfit : Z.of_nat (List.length p) <= max_size ->
                 forall m, fst run <> Raise (APNSDataOverflow m)).
  { intros Hle m Hr. destruct run as [r w'] eqn:E. cbn [fst] in Hr. subst r.
    apply send_raises in E. fold p max_size in E.
    destruct E as [(_ & E & _) | [(_ & Hgt & _) | (_ & _ & E)]];
      [discriminate E | lia | discriminate E]. }
  assert (Hover : is_hex64 token = true -> Z.of_nat (List.length p) > max_size ->
                  run = (Raise (APNSDataOverflow max_size), payload_ready payload w)).
  { intros Htok Hgt. subst run. now apply send_oversize. }
  split; [intros H; apply Hfit; lia|].
  split; [exact Hfit|].
  split; [intros Htok H; apply Hover; [exact Htok | lia]|].
  split; [exact Hover|].
  intros Htok expiration_time frame. now apply pack_frame_length.
Qed.

(** ** [send] on a connection of the caller and the loop of [send_bulk] *)

Lemma world_eq (w1 w2 : world) :
  w_socks w1 = w_socks w2 -> w_next w1 = w_next w2 -> w_trace w1 = w_trace w2 ->
  w_clock w1 = w_clock w2 -> w_ticks w1 = w_ticks w2 ->
  w_readable w1 = w_readable w2 -> w_peer w1 = w_peer w2 ->
  w1 = w2.
Proof.
  destruct w1, w2. cbn. intros; subst. reflexivity.
Qed.

Lemma advance_nil (w : world) : advance [] 0 w = w.
Proof.
  apply world_eq; cbn; try reflexivity; [apply app_nil_r | apply Nat.add_0_r].
Qed.

Lemma advance_advance (es1 es2 : list event) (k1 k2 : nat) (w : world) :
  advance es2 k2 (advance es1 k1 w) = advance (es1 ++ es2) (k1 + k2) w.
Proof.
  apply world_eq; cbn; try reflexivity; [symmetry; apply app_assoc | lia].
Qed.

Lemma token_bytes_valid (token : string) :
  is_hex64 token = true ->
  unhexlify token = Ok (token_bytes token) /\ List.length (token_bytes token) = 32%nat.
Proof.
  intros H. destruct (is_hex64_bytes token H) as (token_bin & Hun & Hlen).
  unfold token_bytes. now rewrite Hun.
Qed.

Lemma send_on_connection {Alert Options : Type}
    (create_payload : Alert -> Options -> bytes)
    (token : string) (alert : Alert) (config : Config)
    (identifier : Z) (expiration : option Z) (priority : Z)
    (payload : bytes) (h : handle) (options : Options) (w : world) :
  is_hex64 token = true ->
  Z.of_nat (List.length payload) <= APNS_MAX_NOTIFICATION_SIZE config ->
  Z.of_nat (List.length payload) <= 65535 ->
  0 <= identifier < 2 ^ 32 ->
  0 <= priority < 2 ^ 8 ->
  0 <= expiration_at config expiration (w_clock w) (w_ticks w) < 2 ^ 32 ->
  c_write_errors (w_socks w h) = [] ->
  send create_payload token alert config identifier expiration priority
       (Some payload) (Some h) options w
  = (Ok tt,
     advance [EvWrite h (notification_frame token payload identifier
                           (expiration_at config expiration (w_clock w) (w_ticks w))
                           priority)]
             (clock_reads expiration) w).
Proof.
  intros Htok Hmax Hpay Hid Hprio Hexp Hwrites.
  destruct (token_bytes_valid token Htok) as [Hun Hlen].
  unfold send. rewrite is_valid_token_hex64, Htok. cbn [negb].
  rewrite (bind_ok (ret payload) _ w w payload eq_refl).
  replace (Z.of_nat (List.length payload) >? APNS_MAX_NOTIFICATION_SIZE config) with false
    by (symmetry; rewrite Z.gtb_ltb; apply Z.ltb_ge; lia).
  pose proof (pack_frame_bytes token (token_bytes token) payload identifier
                (expiration_at config expiration (w_clock w) (w_ticks w)) priority
                Hun Hlen Hpay Hid Hexp Hprio) as Hframe.
  fold (notification_frame token payload identifier
          (expiration_at config expiration (w_clock w) (w_ticks w)) priority) in Hframe.
  destruct expiration as [e|]; cbn [expiration_at clock_reads] in *.
  - rewrite (bind_ok (ret e) _ w w e eq_refl).
    unfold lift at 1. rewrite Hframe.
    rewrite (bind_ok _ _ w w _ eq_refl).
    unfold sock_write. rewrite Hwrites. f_equal.
    apply world_eq; cbn; try reflexivity. lia.
  - rewrite (bind_ok (now <- time_time ;; ret (now + APNS_DEFAULT_EXPIRATION_OFFSET config))
               _ w (tick w) (w_clock w (w_ticks w) + APNS_DEFAULT_EXPIRATION_OFFSET config)
               eq_refl).
    unfold lift at 1. rewrite Hframe.
    rewrite (bind_ok _ _ (tick w) (tick w) _ eq_refl).
    unfold sock_write. cbn [w_socks tick]. rewrite Hwrites. f_equal.
    apply world_eq; cbn; try reflexivity. lia.
Qed.

Lemma send_loop {Alert Options : Type} (create_payload : Alert -> Options -> bytes)
    (alert : Alert) (config : Config) (expiration : option Z) (priority : Z)
    (payload : bytes) (h : handle) (options : Options) (rest : list string) :
  Z.of_nat (List.length payload) <= APNS_MAX_NOTIFICATION_SIZE config ->
  Z.of_nat (List.length payload) <= 65535 ->
  0 <= priority < 2 ^ 8 ->
  forall (pre : list string) (start : nat) (w : world),
    Forall (fun t => is_hex64 t = true) pre ->
    c_write_errors (w_socks w h) = [] ->
    Z.of_nat (start + List.length pre) <= 2 ^ 32 ->
    (forall i, (i < List.length pre)%nat ->
       0 <= expiration_at config expiration (w_clock w)
              (w_ticks w + i * clock_reads expiration) < 2 ^ 32) ->
    for_each (enumerate_from start (pre ++ rest))
      (fun '(identifier, token) =>
         send create_payload token alert config identifier expiration priority
              (Some payload) (Some h) options) w
    = for_each (enumerate_from (start + List.length pre) rest)
        (fun '(identifier, token) =>
           send create_payload token alert config identifier expiration priority
                (Some payload) (Some h) options)
        (advance
           (map (EvWrite h)
              (frames_from config expiration priority payload (w_clock w) start
                 (w_ticks w) pre))
           (List.length pre * clock_reads expiration) w).
Proof.
  intros Hmax Hpay Hprio.
  induction pre as [|token pre IH]; intros start w Hvalid Hwrites Hcount Hexp.
  - cbn [app List.length frames_from map Nat.mul]. now rewrite Nat.add_0_r, advance_nil.
  - inversion Hvalid as [|? ? Htok Hvalid']; subst.
    cbn [app enumerate_from for_each List.length] in *.
    pose proof (Hexp 0%nat ltac:(lia)) as Hexp0.
    cbn [Nat.mul] in Hexp0. rewrite Nat.add_0_r in Hexp0.
    erewrite bind_ok
      by (apply send_on_connection; try assumption; lia).
    rewrite IH; [|assumption | exact Hwrites | lia |].
    + rewrite advance_advance. cbn [app frames_from map advance w_clock w_ticks Nat.mul].
      now rewrite Nat.add_succ_r.
    + intros i Hi. cbn [advance w_clock w_ticks].
      specialize (Hexp (S i) ltac:(lia)). cbn [Nat.mul] in Hexp.
      now rewrite Nat.add_assoc in Hexp.
Qed.

(** ** [send_bulk] *)

Lemma create_push_socket_up (config : Config) (payload : option bytes) (w : world)
    (inbox : list delivery) :
  push_gateway_up config w inbox ->
  create_push_socket config (payload_ready payload w)
  = (Ok (w_next w),
     new_sock (mkConn None inbox [] false)
       (log (EvConnect (w_next w) (APNS_HOST config) (APNS_PORT config))
            (payload_ready payload w))).
Proof.
  intros (Hcert & Hread & Hpeer).
  unfold create_push_socket, create_socket. rewrite Hcert. cbn [negb].
  unfold bind, file_read, sock_connect.
  destruct payload; cbn [payload_ready w_readable w_peer w_next log];
    rewrite Hread; cbn [negb w_readable w_peer w_next log];
    rewrite Hpeer; reflexivity.
Qed.

Lemma try_finally_close {A} (body : M A) (h : handle) (w : world) :
  try_finally body (sock_close h) w
  = (fst (body w), snd (sock_close h (snd (body w)))).
Proof.
  unfold try_finally. destruct (body w) as [r w1]. reflexivity.
Qed.

Lemma bind_same {A B} (m1 m2 : M A) (k : A -> M B) (w1 w2 : world) :
  m1 w1 = m2 w2 -> bind m1 k w1 = bind m2 k w2.
Proof. intros H. unfold bind. now rewrite H. Qed.

(** [send_bulk], the gateway being reachable: the payload is made ready and
    the connection opened; then come the loop over the tokens and, if the
    loop ends, the error check; whatever the outcome, the connection is
    closed. *)
Lemma send_bulk_unfold {Alert Options : Type} (create_payload : Alert -> Options -> bytes)
    (tokens : list string) (alert : Alert) (config : Config)
    (payload : option bytes) (options : BulkOptions Options) (w : world)
    (inbox : list delivery) :
  let p := effective_payload create_payload alert (kw_fields options) payload in
  let priority := match kw_priority options with Some x => x | None => 10 end in
  let h := w_next w in
  push_gateway_up config w inbox ->
  let w2 := new_sock (mkConn None inbox [] false)
              (log (EvConnect h (APNS_HOST config) (APNS_PORT config))
                   (payload_ready payload w)) in
  let out := (for_each (enumerate tokens)
                (fun '(identifier, token) =>
                   send create_payload token alert config identifier
                        (kw_expiration options) priority
                        (Some p) (Some h) (kw_fields options)) ;;
              check_errors h config) w2 in
  send_bulk create_payload tokens alert config payload options w
  = (fst out, snd (sock_close h (snd out))).
Proof.
  intros p priority h Hup w2 out.
  unfold send_bulk.
  rewrite (bind_ok _ _ _ _ _
             (payload_ready_run create_payload alert (kw_fields options) payload w)).
  fold p. unfold with_closing.
  rewrite (bind_ok _ _ _ _ _ (create_push_socket_up config payload w inbox Hup)).
  fold h w2. now rewrite try_finally_close.
Qed.

(** The same on a batch whose first tokens [pre] are valid: their frames are
    written, and the loop goes on with [rest]. *)
Lemma send_bulk_run {Alert Options : Type} (create_payload : Alert -> Options -> bytes)
    (pre rest : list string) (alert : Alert) (config : Config)
    (payload : option bytes) (options : BulkOptions Options) (w : world)
    (inbox : list delivery) :
  let p := effective_payload create_payload alert (kw_fields options) payload in
  let priority := match kw_priority options with Some x => x | None => 10 end in
  let expiration := kw_expiration options in
  let h := w_next w in
  Forall (fun t => is_hex64 t = true) pre ->
  Z.of_nat (List.length p) <= APNS_MAX_NOTIFICATION_SIZE config ->
  Z.of_nat (List.length p) <= 65535 ->
  Z.of_nat (List.length pre) <= 2 ^ 32 ->
  0 <= priority < 2 ^ 8 ->
  (forall i, (i < List.length pre)%nat ->
     0 <= expiration_at config expiration (w_clock w)
            (w_ticks w + i * clock_reads expiration) < 2 ^ 32) ->
  push_gateway_up config w inbox ->
  let w2 := new_sock (mkConn None inbox [] false)
              (log (EvConnect h (APNS_HOST config) (APNS_PORT config))
                   (payload_ready payload w)) in
  let w3 := advance
              (map (EvWrite h)
                 (frames_from config expiration priority p (w_clock w) 0 (w_ticks w) pre))
              (List.length pre * clock_reads expiration) w2 in
  let out := (for_each (enumerate_from (List.length pre) rest)
                (fun '(identifier, token) =>
                   send create_payload token alert config identifier expiration priority
                        (Some p) (Some h) (kw_fields options)) ;;
              check_errors h config) w3 in
  send_bulk create_payload (pre ++ rest) alert config payload options w
  = (fst out, snd (sock_close h (snd out))).
Proof.
  intros p priority expiration h Hvalid Hmax Hpay Hcount Hprio Hexp Hup w2 w3 out.
  rewrite (send_bulk_unfold create_payload (pre ++ rest) alert config payload options
             w inbox Hup).
  fold p priority expiration h w2.
  assert (Hclock : w_clock w2 = w_clock w) by (subst w2; destruct payload; reflexivity).
  assert (Hticks : w_ticks w2 = w_ticks w) by (subst w2; destruct payload; reflexivity).
  assert (Hloop :
    for_each (enumerate (pre ++ rest))
      (fun '(identifier, token) =>
         send create_payload token alert config identifier expiration priority
              (Some p) (Some h) (kw_fields options)) w2
    = for_each (enumerate_from (List.length pre) rest)
        (fun '(identifier, token) =>
           send create_payload token alert config identifier expiration priority
                (Some p) (Some h) (kw_fields options)) w3).
  { assert (Hwrites : c_write_errors (w_socks w2 h) = []).
    { subst w2 h. destruct payload; cbn; now rewrite Nat.eqb_refl. }
    unfold enumerate.
    rewrite (send_loop create_payload alert config expiration priority p h
               (kw_fields options) rest Hmax Hpay Hprio pre 0%nat w2 Hvalid Hwrites);
      rewrite ?Hclock, ?Hticks; [reflexivity | cbn; lia | exact Hexp]. }
  subst out. now rewrite (bind_same _ _ _ _ _ Hloop).
Qed.

Lemma length_frames_from (config : Config) (expiration : option Z) (priority : Z)
    (payload : bytes) (clock : nat -> Z) (tokens : list string) :
  forall start tick,
    List.length (frames_from config expiration priority payload clock start tick tokens)
    = List.length tokens.
Proof.
  induction tokens as [|t tokens IH]; intros start tick; cbn [frames_from List.length];
    [reflexivity | now rewrite IH].
Qed.

Lemma frames_from_nth (config : Config) (expiration : option Z) (priority : Z)
    (payload : bytes) (clock : nat -> Z) (tokens : list string) :
  forall start tick i token,
    nth_error tokens i = Some token ->
    nth_error (frames_from config expiration priority payload clock start tick tokens) i
    = Some (notification_frame token payload (Z.of_nat (start + i))
              (expiration_at config expiration clock (tick + i * clock_reads expiration))
              priority).
Proof.
  induction tokens as [|t tokens IH]; intros start tick [|i] token H;
    cbn [nth_error frames_from] in *; try discriminate.
  - inversion H; subst. cbn [Nat.mul]. now rewrite !Nat.add_0_r.
  - rewrite (IH _ _ _ _ H).
    replace (S start + i)%nat with (start + S i)%nat by lia.
    replace (tick + clock_reads expiration + i * clock_reads expiration)%nat
      with (tick + S i * clock_reads expiration)%nat by (cbn [Nat.mul]; lia).
    reflexivity.
Qed.

Lemma decode_notification_frame (token : string) (payload : bytes)
    (identifier expiration priority : Z) :
  is_hex64 token = true ->
  Z.of_nat (List.length payload) <= 65535 ->
  0 <= identifier < 2 ^ 32 ->
  0 <= expiration < 2 ^ 32 ->
  0 <= priority < 2 ^ 8 ->
  decode_frame (notification_frame token payload identifier expiration priority)
  = Some (mkNotification (token_bytes token) payload identifier expiration priority).
Proof.
  intros Htok Hpay Hid Hexp Hprio.
  destruct (token_bytes_valid token Htok) as [_ Hlen].
  unfold notification_frame. rewrite <- Hlen.
  apply decode_frame_frame_bytes; try assumption. lia.
Qed.

Lemma count_app (p : event -> bool) (l1 l2 : list event) :
  count p (l1 ++ l2) = (count p l1 + count p l2)%nat.
Proof. unfold count. now rewrite filter_app, length_app. Qed.

Lemma count_writes (h : handle) (frames : list bytes) :
  count is_write (map (EvWrite h) frames) = List.length frames
  /\ count is_connect (map (EvWrite h) frames) = 0%nat
  /\ count is_check_errors (map (EvWrite h) frames) = 0%nat
  /\ count is_create_payload (map (EvWrite h) frames) = 0%nat.
Proof.
  unfold count. induction frames as [|f frames IH]; cbn; [tauto|].
  destruct IH as (-> & -> & -> & ->). tauto.
Qed.

Lemma count_check_errors_calls (config : Config) (h : handle) (c : conn) :
  count is_write (check_errors_calls config h c) = 0%nat
  /\ count is_connect (check_errors_calls config h c) = 0%nat
  /\ count is_check_errors (check_errors_calls config h c) = 0%nat
  /\ count is_create_payload (check_errors_calls config h c) = 0%nat.
Proof.
  unfold check_errors_calls. destruct (APNS_ERROR_TIMEOUT config); cbn; tauto.
Qed.

(** C8: for a batch of valid tokens (the payload within the size limit and the
    length field, the gateway reachable) [send_bulk] builds the payload once,
    opens one connection, writes one frame per token, the frame at position
    [i] carrying identifier [i] and the one shared payload, then calls
    [check_errors] once, after the last write, and closes the connection. *)
Theorem send_bulk_writes_then_checks {Alert Options : Type}
    (create_payload : Alert -> Options -> bytes) (tokens : list string)
    (alert : Alert) (config : Config) (options : BulkOptions Options)
    (w : world) (inbox : list delivery) :
  let payload := create_payload alert (kw_fields options) in
  let priority := match kw_priority options with Some x => x | None => 10 end in
  let expiration := kw_expiration options in
  let h := w_next w in
  let opened := mkConn None inbox [] false in
  let frames :=
    frames_from config expiration priority payload (w_clock w) 0 (w_ticks w) tokens in
  let events :=
    [EvCreatePayload; EvConnect h (APNS_HOST config) (APNS_PORT config)]
    ++ map (EvWrite h) frames
    ++ [EvCheckErrors h] ++ check_errors_calls config h opened ++ [EvClose h] in
  let run := send_bulk create_payload tokens alert config None options w in
  Forall (fun t => is_hex64 t = true) tokens ->
  Z.of_nat (List.length payload) <= APNS_MAX_NOTIFICATION_SIZE config ->
  Z.of_nat (List.length payload) <= 65535 ->
  Z.of_nat (List.length tokens) <= 2 ^ 32 ->
  0 <= priority < 2 ^ 8 ->
  (forall i, (i < List.length tokens)%nat ->
     0 <= expiration_at config expiration (w_clock w)
            (w_ticks w + i * clock_reads expiration) < 2 ^ 32) ->
  push_gateway_up config w inbox ->
  fst run = check_errors_outcome config opened
  /\ w_trace (snd run) = w_trace w ++ events
  /\ count is_create_payload events = 1%nat
  /\ count is_connect events = 1%nat
  /\ count is_write events = List.length tokens
  /\ count is_check_errors events = 1%nat
  /\ (forall i token,
        nth_error tokens i = Some token ->
        exists frame,
          nth_error (map (EvWrite h) frames) i = Some (EvWrite h frame)
          /\ frame = notification_frame token payload (Z.of_nat i)
                       (expiration_at config expiration (w_clock w)
                          (w_ticks w + i * clock_reads expiration)) priority
          /\ decode_frame frame
             = Some (mkNotification (token_bytes token) payload (Z.of_nat i)
                       (expiration_at config expiration (w_clock w)
                          (w_ticks w + i * clock_reads expiration)) priority)).
Proof.
  intros payload priority expiration h opened frames events run
         Hvalid Hmax Hpay Hcount Hprio Hexp Hup.
  pose proof (send_bulk_run create_payload tokens [] alert config None options w inbox
                Hvalid Hmax Hpay Hcount Hprio Hexp Hup) as Hrun.
  rewrite app_nil_r in Hrun. cbv zeta in Hrun.
  cbn [effective_payload payload_ready enumerate_from for_each] in Hrun.
  fold payload priority expiration h frames run in Hrun.
  set (w3 := advance (map (EvWrite h) frames)
               (List.length tokens * clock_reads expiration)
               (new_sock opened
                  (log (EvConnect h (APNS_HOST config) (APNS_PORT config))
                       (log EvCreatePayload w)))) in *.
  rewrite (bind_ok (ret tt) _ w3 w3 tt eq_refl) in Hrun.
  destruct (check_errors_spec h config w3) as [Hout Heff].
  assert (Hsock : w_socks w3 h = opened).
  { subst w3 h. cbn. now rewrite Nat.eqb_refl. }
  rewrite Hsock in Hout, Heff.
  rewrite Hrun. cbn [fst snd].
  split; [exact Hout|].
  split.
  { cbn [sock_close snd w_trace set_sock log].
    rewrite (eff_trace _ _ _ _ _ Heff). subst w3 events.
    cbn [w_trace advance new_sock log]. rewrite <- !app_assoc. reflexivity. }
  destruct (count_writes h frames) as (Cw1 & Cw2 & Cw3 & Cw4).
  destruct (count_check_errors_calls config h opened) as (Cc1 & Cc2 & Cc3 & Cc4).
  subst events. rewrite !count_app, Cw1, Cw2, Cw3, Cw4, Cc1, Cc2, Cc3, Cc4.
  subst frames. rewrite length_frames_from.
  do 4 (split; [cbn; lia|]).
  intros i token Hi.
  eexists. split; [|split; [reflexivity|]].
  - rewrite nth_error_map, (frames_from_nth _ _ _ _ _ _ _ _ _ _ Hi). reflexivity.
  - assert (Hlt : (i < List.length tokens)%nat)
      by (apply nth_error_Some; congruence).
    apply decode_notification_frame; try assumption; [|lia | now apply Hexp].
    rewrite Forall_forall in Hvalid. apply Hvalid. eapply nth_error_In, Hi.
Qed.

Lemma send_bulk_writes_then_checks_witness :
  fst (send_bulk alert_payload [sample_token; other_token] hello sample_config None
         no_options (quiet_world []))
  = Ok tt
  /\ count is_write
       (w_trace (snd (send_bulk alert_payload [sample_token; other_token] hello
                        sample_config None no_options (quiet_world []))))
     = 2%nat.
Proof.
  pose proof (send_bulk_writes_then_checks alert_payload [sample_token; other_token]
                hello sample_config no_options (quiet_world []) []) as H.
  cbv zeta in H.
  destruct H as (Hres & Htrace & _ & _ & Hwrites & _).
  - repeat constructor.
  - cbn. lia.
  - cbn. lia.
  - cbn. lia.
  - cbn. lia.
  - intros i Hi. cbn. lia.
  - repeat split.
  - split; [exact Hres|]. rewrite Htrace. exact Hwrites.
Defined.

Example send_bulk_two_tokens :
  let (r, w') := send_bulk alert_payload [sample_token; other_token] hello sample_config
                   None no_options (quiet_world []) in
  r = Ok tt
  /\ map (fun e => match e with
                   | EvWrite _ frame =>
                       match decode_frame frame with
                       | Some n => Some (n_identifier n, n_payload n)
                       | None => None
                       end
                   | _ => None
                   end) (w_trace w')
     = [None; None; Some (0, hello); Some (1, hello); None; None; None; None; None].
Proof. vm_compute. split; reflexivity. Qed.

(** ** Validation and network calls *)

Lemma net_trace_advance (events : list event) (k : nat) (w : world) :
  net_trace (advance events k w) = net_trace w ++ filter is_net_event events.
Proof. unfold net_trace. cbn [w_trace advance]. apply filter_app. Qed.

Lemma net_events_writes (h : handle) (frames : list bytes) :
  filter is_net_event (map (EvWrite h) frames) = map (EvWrite h) frames.
Proof.
  induction frames as [|f frames IH]; cbn; [reflexivity | now rewrite IH].
Qed.

Lemma net_trace_close (h : handle) (w : world) :
  net_trace (snd (sock_close h w)) = net_trace w ++ [EvClose h].
Proof. unfold net_trace. cbn. now rewrite filter_app. Qed.

Lemma net_trace_opened (h : handle) (host : string) (port : Z) (c : conn)
    (payload : option bytes) (w : world) :
  net_trace (new_sock c (log (EvConnect h host port) (payload_ready payload w)))
  = net_trace w ++ [EvConnect h host port].
Proof.
  unfold net_trace. cbn [w_trace new_sock log]. rewrite filter_app. cbn [filter is_net_event].
  f_equal. apply (proj1 (payload_ready_quiet payload w)).
Qed.

(** C1 (what the code does): [send] raises the validation error with no
    network call made and no socket created.  [send_bulk] opens its connection
    before anything is validated and validates each token, with the payload,
    just before writing its frame: a malformed token at position [k] is
    reported after the connection was opened and the frames of the [k] earlier
    tokens were written, and an oversize payload, the batch not being empty,
    after the connection was opened and before any frame is written; either
    way nothing more is written, no error check is made and the connection is
    closed. *)
Theorem validation_and_network_calls {Alert Options : Type}
    (create_payload : Alert -> Options -> bytes) (alert : Alert) (config : Config)
    (payload : option bytes) (w : world) :
  (forall token identifier expiration priority connection options,
     let p := effective_payload create_payload alert options payload in
     let run := send create_payload token alert config identifier expiration priority
                     payload connection options w in
     is_hex64 token = false
     \/ Z.of_nat (List.length p) > APNS_MAX_NOTIFICATION_SIZE config ->
     exists e,
       fst run = Raise e /\ is_validation_error e = true
       /\ net_trace (snd run) = net_trace w
       /\ w_next (snd run) = w_next w
       /\ w_socks (snd run) = w_socks w)
  /\ (forall pre bad post options inbox,
        let p := effective_payload create_payload alert (kw_fields options) payload in
        let priority := match kw_priority options with Some x => x | None => 10 end in
        let expiration := kw_expiration options in
        let h := w_next w in
        let run := send_bulk create_payload (pre ++ bad :: post) alert config payload
                             options w in
        Forall (fun t => is_hex64 t = true) pre ->
        is_hex64 bad = false ->
        Z.of_nat (List.length p) <= APNS_MAX_NOTIFICATION_SIZE config ->
        Z.of_nat (List.length p) <= 65535 ->
        Z.of_nat (List.length pre) <= 2 ^ 32 ->
        0 <= priority < 2 ^ 8 ->
        (forall i, (i < List.length pre)%nat ->
           0 <= expiration_at config expiration (w_clock w)
                  (w_ticks w + i * clock_reads expiration) < 2 ^ 32) ->
        push_gateway_up config w inbox ->
        fst run = Raise (APNSError InvalidTokenFormat)
        /\ net_trace (snd run)
           = net_trace w
             ++ [EvConnect h (APNS_HOST config) (APNS_PORT config)]
             ++ map (EvWrite h)
                  (frames_from config expiration priority p (w_clock w) 0 (w_ticks w) pre)
             ++ [EvClose h])
  /\ (forall token rest options inbox,
        let p := effective_payload create_payload alert (kw_fields options) payload in
        let h := w_next w in
        let run := send_bulk create_payload (token :: rest) alert config payload
                             options w in
        Z.of_nat (List.length p) > APNS_MAX_NOTIFICATION_SIZE config ->
        push_gateway_up config w inbox ->
        exists e,
          fst run = Raise e /\ is_validation_error e = true
          /\ net_trace (snd run)
             = net_trace w
               ++ [EvConnect h (APNS_HOST config) (APNS_PORT config); EvClose h]).
Proof.
  split; [|split].
  - intros token identifier expiration priority connection options p run Hbad.
    destruct (is_hex64 token) eqn:Htok.
    + destruct Hbad as [Hbad|Hbig]; [discriminate Hbad|].
      exists (APNSDataOverflow (APNS_MAX_NOTIFICATION_SIZE config)).
      subst run. rewrite send_oversize by assumption. cbn [fst snd].
      destruct (payload_ready_quiet payload w) as (H1 & H2 & H3 & _).
      repeat split; assumption.
    + exists (APNSError InvalidTokenFormat).
      subst run. rewrite send_bad_token by assumption. repeat split.
  - intros pre bad post options inbox p priority expiration h run
           Hvalid Hbad Hmax Hpay Hcount Hprio Hexp Hup.
    subst run.
    rewrite (send_bulk_run create_payload pre (bad :: post) alert config payload options
               w inbox Hvalid Hmax Hpay Hcount Hprio Hexp Hup).
    fold p priority expiration h. cbn [enumerate_from for_each].
    erewrite bind_raise; [|erewrite bind_raise; [reflexivity | now apply send_bad_token]].
    cbn [fst snd]. split; [reflexivity|].
    rewrite net_trace_close, net_trace_advance, net_events_writes, net_trace_opened.
    now rewrite <- !app_assoc.
  - intros token rest options inbox p h run Hbig Hup.
    subst run.
    rewrite (send_bulk_unfold create_payload (token :: rest) alert config payload options
               w inbox Hup).
    fold p h. cbn [enumerate enumerate_from for_each].
    destruct (is_hex64 token) eqn:Htok.
    + exists (APNSDataOverflow (APNS_MAX_NOTIFICATION_SIZE config)).
      erewrite bind_raise;
        [|erewrite bind_raise; [reflexivity | now apply send_oversize]].
      cbn [fst snd payload_ready]. split; [reflexivity|]. split; [reflexivity|].
      rewrite net_trace_close, net_trace_opened. now rewrite <- app_assoc.
    + exists (APNSError InvalidTokenFormat).
      erewrite bind_raise;
        [|erewrite bind_raise; [reflexivity | now apply send_bad_token]].
      cbn [fst snd]. split; [reflexivity|]. split; [reflexivity|].
      rewrite net_trace_close, net_trace_opened. now rewrite <- app_assoc.
Qed.

Lemma validation_and_network_calls_witness :
  fst bulk_with_bad_token = Raise (APNSError InvalidTokenFormat)
  /\ net_trace (snd bulk_with_bad_token)
     = [EvConnect 0%nat "gateway.push.apple.com" 2195;
        EvWrite 0%nat (notification_frame sample_token hello 0
                         (1500000000 + DEFAULT_EXPIRATION_OFFSET) 10);
        EvClose 0%nat].
Proof.
  pose proof (proj1 (proj2 (validation_and_network_calls alert_payload hello sample_config
                              None (quiet_world [])))
                [sample_token] "zz"%string [] no_options []) as H.
  cbv zeta in H. apply H.
  - repeat constructor.
  - reflexivity.
  - cbn. lia.
  - cbn. lia.
  - cbn. lia.
  - cbn. lia.
  - intros i Hi. cbn. lia.
  - repeat split.
Defined.

(** C1 as stated fails for [send_bulk]: with a malformed second token the
    error comes after the connection was opened and the first frame written;
    with an oversize payload it comes after the connection was opened. *)
Lemma send_bulk_validates_after_connecting :
  (fst bulk_with_bad_token = Raise (APNSError InvalidTokenFormat)
   /\ count is_connect (net_trace (snd bulk_with_bad_token)) = 1%nat
   /\ count is_write (net_trace (snd bulk_with_bad_token)) = 1%nat)
  /\ (fst bulk_with_long_payload = Raise (APNSDataOverflow 5)
      /\ count is_connect (net_trace (snd bulk_with_long_payload)) = 1%nat)
  /\ net_trace (quiet_world []) = [].
Proof. vm_compute. repeat split. Qed.

(** ** Examples on feedback streams *)

Lemma receive_feedback_reads_witness :
  exists w',
    receive_feedback 2 0%nat one_record_stream
    = Some (Ok [(hexlify (repeat xa1 32), 1000000000)], w')
    /\ c_inbox (w_socks w' 0%nat) = [].
Proof.
  apply (proj1 (proj2 (proj2 (proj2 (proj2
           (receive_feedback_reads 0%nat [] one_record_stream 0%nat)))))
           1000000000 (repeat xa1 32)).
  - reflexivity.
  - lia.
  - cbn. lia.
  - cbn. lia.
Defined.

(** C2 as stated fails: a partial read, of the header or of the token, raises
    [struct.error]; and an empty read of the token does not end the sequence,
    the record that follows is still delivered. *)
Lemma receive_feedback_partial_read_raises :
  option_map fst (receive_feedback 4 0%nat short_header_stream)
  = Some (Raise struct_error)
  /\ option_map fst (receive_feedback 4 0%nat short_token_stream)
     = Some (Raise struct_error)
  /\ option_map fst (receive_feedback 4 0%nat empty_token_stream)
     = Some (Ok [("a1b2"%string, 7)]).
Proof. vm_compute. repeat split. Qed.

(** ** Examples on [send] *)

Lemma send_rejects_exactly_bad_tokens_witness :
  send alert_payload "zz"%string hello sample_config 0 None 10 None None tt (quiet_world [])
  = (Raise (APNSError InvalidTokenFormat), quiet_world []).
Proof.
  apply (proj1 (proj2 (send_rejects_exactly_bad_tokens alert_payload "zz"%string hello
                         sample_config 0 None 10 None None tt (quiet_world [])))).
  reflexivity.
Defined.

Lemma send_payload_size_check_witness :
  (forall m,
     fst (send alert_payload sample_token hello tight_config 0 None 10 None None tt
               (quiet_world [])) <> Raise (APNSDataOverflow m))
  /\ send alert_payload sample_token six_bytes tight_config 0 None 10 None None tt
          (quiet_world [])
     = (Raise (APNSDataOverflow 5), payload_ready None (quiet_world [])).
Proof.
  split.
  - apply (proj1 (send_payload_size_check alert_payload sample_token hello tight_config
                    0 None 10 None None tt (quiet_world []))).
    reflexivity.
  - apply (proj1 (proj2 (proj2 (send_payload_size_check alert_payload sample_token
                                  six_bytes tight_config 0 None 10 None None tt
                                  (quiet_world []))))).
    + reflexivity.
    + reflexivity.
Defined.

Example send_exactly_max_size :
  fst (send alert_payload sample_token hello tight_config 0 None 10 None None tt
            (quiet_world []))
  = Ok tt.
Proof. reflexivity. Qed.

(** ** The scenarios of the protocol description *)

Example pack_frame_hello :
  exists rest,
    pack_frame sample_token hello 0 0 10 = Ok (x02 :: be_bytes 4 (15 + 32 + 5 + 4 + 4 + 1) ++ rest)
    /\ List.length rest = (15 + 32 + 5 + 4 + 4 + 1)%nat.
Proof. eexists. split; reflexivity. Qed.

Example get_expired_tokens_one_record :
  option_map fst
    (get_expired_tokens 2 sample_config
       (quiet_world [Data (feedback_record 1000000000 (repeat xa1 32))]))
  = Some (Ok [(hexlify (repeat xa1 32), 1000000000)]).
Proof. reflexivity. Qed.

(** * Further properties *)

(** ** The payload builder *)

Lemma dict_get_set (d : dict) (key : string) (v : pyobj) (k : string) :
  dict_get (dict_set d key v) k = if String.eqb k key then Some v else dict_get d k.
Proof.
  induction d as [|[k0 v0] d IH]; cbn [dict_set dict_get].
  - reflexivity.
  - destruct (String.eqb key k0) eqn:E; cbn [dict_get].
    + apply String.eqb_eq in E. subst k0.
      destruct (String.eqb k key); reflexivity.
    + rewrite IH. destruct (String.eqb k k0) eqn:E0; [|reflexivity].
      apply String.eqb_eq in E0. subst k0.
      rewrite String.eqb_sym in E. now rewrite E.
Qed.

Lemma dict_get_set_if (value : pyobj) (d : dict) (key k : string) :
  dict_get (set_if value d key) k
  = if (py_truthy value && String.eqb k key)%bool then Some value else dict_get d k.
Proof.
  unfold set_if. destruct (py_truthy value); cbn [andb]; [apply dict_get_set | reflexivity].
Qed.

(** [update]: the last item of [other] with the key wins over the earlier
    ones and over [d]. *)
Lemma dict_get_update (other : dict) :
  forall (d : dict) (k : string),
    dict_get (dict_update d other) k
    = match dict_get (rev other) k with
      | Some v => Some v
      | None => dict_get d k
      end.
Proof.
  unfold dict_update.
  induction other as [|[k0 v0] other IH]; intros d k; cbn [fold_left rev fst snd].
  - reflexivity.
  - rewrite IH, dict_get_set.
    assert (Happ : forall l, dict_get (l ++ [(k0, v0)]) k
                             = match dict_get l k with
                               | Some v => Some v
                               | None => if String.eqb k k0 then Some v0 else None
                               end).
    { induction l as [|[k1 v1] l IHl]; cbn [app dict_get]; [reflexivity|].
      destruct (String.eqb k k1); [reflexivity | apply IHl]. }
    rewrite Happ. destruct (dict_get (rev other) k); [reflexivity|].
    destruct (String.eqb k k0); reflexivity.
Qed.

(** The ['aps'] dict [create_payload] ends with. *)
Lemma aps_set_get (payload aps : dict) (key : string) (v : pyobj) :
  dict_get payload "aps" = Some (PyDict aps) ->
  dict_get (aps_set payload key v) "aps" = Some (PyDict (dict_set aps key v))
  /\ (forall k, String.eqb k "aps" = false ->
        dict_get (aps_set payload key v) k = dict_get payload k).
Proof.
  intros H. unfold aps_set. rewrite H. split.
  - now rewrite dict_get_set.
  - intros k Hk. now rewrite dict_get_set, Hk.
Qed.

Lemma aps_set_when (c : bool) (payload aps : dict) (key : string) (v : pyobj) :
  dict_get payload "aps" = Some (PyDict aps) ->
  dict_get (if c then aps_set payload key v else payload) "aps"
  = Some (PyDict (if c then dict_set aps key v else aps))
  /\ (forall k, String.eqb k "aps" = false ->
        dict_get (if c then aps_set payload key v else payload) k = dict_get payload k).
Proof.
  intros H. destruct c; [now apply aps_set_get | tauto].
Qed.

Lemma dict_get_when (c : bool) (d : dict) (key : string) (v : pyobj) (k : string) :
  dict_get (if c then dict_set d key v else d) k
  = if (c && String.eqb k key)%bool then Some v else dict_get d k.
Proof.
  destruct c; cbn [andb]; [apply dict_get_set | reflexivity].
Qed.

Lemma create_payload_dict_spec (alert : pyobj) (o : PayloadOptions) :
  dict_get (create_payload_dict alert o) "aps" = Some (PyDict (final_aps alert o))
  /\ (forall k, String.eqb k "aps" = false ->
        dict_get (create_payload_dict alert o) k = dict_get (rev (extra_items o)) k).
Proof.
  unfold create_payload_dict. cbv zeta. fold (extra_items o).
  match goal with
  | |- context [if existsb py_truthy ?l then ?a else alert] =>
      replace (if existsb py_truthy l then a else alert) with (final_alert alert o)
        by (unfold final_alert, localized; destruct (loc_args o); reflexivity)
  end.
  set (p0 := dict_set (dict_update [] (extra_items o)) "aps" (PyDict [])).
  assert (H0 : dict_get p0 "aps" = Some (PyDict [])
               /\ (forall k, String.eqb k "aps" = false ->
                     dict_get p0 k = dict_get (rev (extra_items o)) k)).
  { subst p0. split.
    - now rewrite dict_get_set.
    - intros k Hk. rewrite dict_get_set, Hk, dict_get_update.
      now destruct (dict_get (rev (extra_items o)) k). }
  destruct H0 as [H0 K0].
  set (p1 := if py_truthy (final_alert alert o)
             then aps_set p0 "alert" (final_alert alert o) else p0).
  destruct (aps_set_when (py_truthy (final_alert alert o)) p0 [] "alert"
              (final_alert alert o) H0) as [H1 K1]. fold p1 in H1, K1.
  set (p2 := if py_truthy (badge o) then aps_set p1 "badge" (badge o) else p1).
  destruct (aps_set_when (py_truthy (badge o)) p1 _ "badge" (badge o) H1) as [H2 K2].
  fold p2 in H2, K2.
  set (p3 := if py_truthy (sound o) then aps_set p2 "sound" (sound o) else p2).
  destruct (aps_set_when (py_truthy (sound o)) p2 _ "sound" (sound o) H2) as [H3 K3].
  fold p3 in H3, K3.
  set (p4 := if py_truthy (category o) then aps_set p3 "category" (category o) else p3).
  destruct (aps_set_when (py_truthy (category o)) p3 _ "category" (category o) H3)
    as [H4 K4].
  fold p4 in H4, K4.
  destruct (aps_set_when (py_truthy (content_available o)) p4 _ "content-available"
              (PyInt 1) H4) as [H5 K5].
  split.
  - exact H5.
  - intros k Hk. now rewrite K5, K4, K3, K2, K1, K0.
Qed.

Ltac aps_lookup :=
  unfold final_aps; cbv zeta; rewrite !dict_get_when;
  cbn [String.eqb Ascii.eqb Bool.eqb andb dict_get];
  rewrite ?andb_false_r, ?andb_true_r.

(** X1: the dict [create_payload] serializes always has the key ['aps'],
    bound to a dict whose keys are among alert, badge, sound, category and
    content-available, whatever [extra] holds under ['aps']; under every
    other key it has what [extra] has (its last item with that key). *)
Theorem create_payload_aps_and_extra (alert : pyobj) (o : PayloadOptions) :
  exists aps,
    dict_get (create_payload_dict alert o) "aps" = Some (PyDict aps)
    /\ (forall k, dict_get aps k <> None ->
          In k ["alert"; "badge"; "sound"; "category"; "content-available"]%string)
    /\ (forall k, k <> "aps"%string ->
          dict_get (create_payload_dict alert o) k = dict_get (rev (extra_items o)) k).
Proof.
  destruct (create_payload_dict_spec alert o) as [Haps Hextra].
  exists (final_aps alert o). split; [exact Haps|]. split.
  - intros k. unfold final_aps. cbv zeta. rewrite !dict_get_when. cbn [dict_get In].
    repeat match goal with
           | |- context [String.eqb k ?s] =>
               destruct (String.eqb_spec k s); [subst; tauto|]
           end.
    rewrite ?andb_false_r. congruence.
  - intros k Hk. apply Hextra. now apply String.eqb_neq.
Qed.

(** X2: badge, sound and category are in ['aps'] exactly when they are true
    values, so a badge of 0 is left out; content-available is 1 exactly when
    the argument is a true value. *)
Theorem create_payload_aps_fields (alert : pyobj) (o : PayloadOptions) :
  exists aps,
    dict_get (create_payload_dict alert o) "aps" = Some (PyDict aps)
    /\ dict_get aps "badge" = (if py_truthy (badge o) then Some (badge o) else None)
    /\ dict_get aps "sound" = (if py_truthy (sound o) then Some (sound o) else None)
    /\ dict_get aps "category"
       = (if py_truthy (category o) then Some (category o) else None)
    /\ dict_get aps "content-available"
       = (if py_truthy (content_available o) then Some (PyInt 1) else None)
    /\ (badge o = PyInt 0 -> dict_get aps "badge" = None).
Proof.
  destruct (create_payload_dict_spec alert o) as [Haps _].
  exists (final_aps alert o). split; [exact Haps|].
  assert (Hb : dict_get (final_aps alert o) "badge"
               = (if py_truthy (badge o) then Some (badge o) else None))
    by (aps_lookup; reflexivity).
  repeat split; try (aps_lookup; reflexivity).
  intros H0. rewrite Hb, H0. reflexivity.
Qed.

Lemma set_if_truthy (value : pyobj) (d : dict) (key : string) :
  truthy (set_if value d key) = (py_truthy value || truthy d)%bool.
Proof.
  unfold set_if. destruct (py_truthy value); cbn [orb]; [|reflexivity].
  destruct d as [|[k v] d]; cbn [dict_set truthy]; [reflexivity|].
  now destruct (String.eqb key k).
Qed.

Ltac alert_lookup :=
  rewrite !dict_get_set_if;
  cbn [String.eqb Ascii.eqb Bool.eqb andb dict_get];
  rewrite ?andb_false_r, ?andb_true_r.

(** X3: without a localisation argument the alert goes into ['aps'] as it
    is, and is left out when it is not a true value; with one, the alert is a
    dict that has the given alert under ['body'] and each localisation
    argument under its key, each exactly when it is a true value. *)
Theorem create_payload_alert (alert : pyobj) (o : PayloadOptions) :
  exists aps,
    dict_get (create_payload_dict alert o) "aps" = Some (PyDict aps)
    /\ (localized o = false ->
        dict_get aps "alert" = (if py_truthy alert then Some alert else None))
    /\ (localized o = true ->
        exists a,
          dict_get aps "alert" = Some (PyDict a)
          /\ dict_get a "body" = (if py_truthy alert then Some alert else None)
          /\ dict_get a "title" = (if py_truthy (title o) then Some (title o) else None)
          /\ dict_get a "title-loc-key"
             = (if py_truthy (title_loc_key o) then Some (title_loc_key o) else None)
          /\ dict_get a "title-loc-args"
             = (if py_truthy (title_loc_args o) then Some (title_loc_args o) else None)
          /\ dict_get a "action-loc-key"
             = (if py_truthy (action_loc_key o) then Some (action_loc_key o) else None)
          /\ dict_get a "loc-key"
             = (if py_truthy (loc_key o) then Some (loc_key o) else None)
          /\ dict_get a "loc-args"
             = (if py_truthy (loc_args o) then Some (loc_args o) else None)
          /\ dict_get a "launch-image"
             = (if py_truthy (launch_image o) then Some (launch_image o) else None)).
Proof.
  destruct (create_payload_dict_spec alert o) as [Haps _].
  exists (final_aps alert o). split; [exact Haps|].
  assert (Halert : dict_get (final_aps alert o) "alert"
                   = if py_truthy (final_alert alert o)
                     then Some (final_alert alert o) else None)
    by (aps_lookup; reflexivity).
  rewrite Halert. unfold final_alert. split; intros Hloc; rewrite Hloc.
  - reflexivity.
  - eexists. split.
    + cbn [py_truthy]. rewrite !set_if_truthy.
      unfold localized in Hloc. cbn [existsb] in Hloc. rewrite orb_false_r in Hloc.
      replace (_ || _)%bool with true; [reflexivity|].
      symmetry. rewrite <- Hloc.
      destruct (py_truthy (title o)), (py_truthy (title_loc_key o)),
        (py_truthy (title_loc_args o)), (py_truthy (action_loc_key o)),
        (py_truthy (loc_key o)), (py_truthy (loc_args o)),
        (py_truthy (launch_image o)); cbn [orb]; try reflexivity;
        now destruct (truthy _).
    + repeat split; alert_lookup; try reflexivity;
        destruct (py_truthy alert); reflexivity.
Qed.

(** A badge of 0 next to a sound. *)
Lemma create_payload_aps_fields_witness :
  exists aps,
    dict_get
      (create_payload_dict (PyStr "Hello")
         (mkPayloadOptions (PyInt 0) (PyStr "chime") PyNone PyNone PyNone PyNone PyNone
            PyNone PyNone PyNone PyNone None)) "aps"
    = Some (PyDict aps)
    /\ dict_get aps "badge" = None
    /\ dict_get aps "sound" = Some (PyStr "chime").
Proof.
  destruct (create_payload_aps_fields (PyStr "Hello")
              (mkPayloadOptions (PyInt 0) (PyStr "chime") PyNone PyNone PyNone PyNone
                 PyNone PyNone PyNone PyNone PyNone None))
    as (aps & Haps & _ & Hsound & _ & _ & Hzero).
  exists aps. split; [exact Haps|]. split; [apply Hzero; reflexivity | exact Hsound].
Defined.

(** A plain alert, and an empty alert with a localisation key. *)
Lemma create_payload_alert_witness :
  (exists aps,
     dict_get (create_payload_dict (PyStr "Hello") no_payload_options) "aps"
     = Some (PyDict aps)
     /\ dict_get aps "alert" = Some (PyStr "Hello"))
  /\ (exists aps a,
        dict_get
          (create_payload_dict (PyStr "")
             (mkPayloadOptions PyNone PyNone PyNone PyNone PyNone PyNone PyNone PyNone
                (PyStr "GAME_INVITE") (PyList [PyStr "Jenna"]) PyNone None)) "aps"
        = Some (PyDict aps)
        /\ dict_get aps "alert" = Some (PyDict a)
        /\ dict_get a "body" = None
        /\ dict_get a "loc-key" = Some (PyStr "GAME_INVITE")).
Proof.
  split.
  - destruct (create_payload_alert (PyStr "Hello") no_payload_options)
      as (aps & Haps & Hplain & _).
    exists aps. split; [exact Haps | apply Hplain; reflexivity].
  - destruct (create_payload_alert (PyStr "")
                (mkPayloadOptions PyNone PyNone PyNone PyNone PyNone PyNone PyNone PyNone
                   (PyStr "GAME_INVITE") (PyList [PyStr "Jenna"]) PyNone None))
      as (aps & Haps & _ & Hloc).
    destruct (Hloc eq_refl) as (a & Ha & Hbody & _ & _ & _ & _ & Hkey & _).
    exists aps, a. repeat split; assumption.
Defined.

Example create_payload_dict_badge_zero :
  create_payload_dict (PyStr "Hello")
    (mkPayloadOptions (PyInt 0) (PyStr "chime") PyNone (PyBool true) PyNone PyNone PyNone
       PyNone PyNone PyNone PyNone
       (Some [("aps"%string, PyStr "mine"); ("k"%string, PyInt 7)]))
  = [("aps"%string,
      PyDict [("alert"%string, PyStr "Hello"); ("sound"%string, PyStr "chime");
              ("content-available"%string, PyInt 1)]);
     ("k"%string, PyInt 7)].
Proof. reflexivity. Qed.

(** ** Opening a connection *)

(** X4: [create_socket] makes no network call without a certificate that is
    configured and reads: it raises [APNSError] and leaves the world as it
    was; otherwise it makes exactly one connection attempt, to the given host
    and port, touches no other socket, and either raises the error of the
    attempt or returns a new socket, blocking and open, that will deliver what
    the peer sends. *)
Theorem create_socket_behaviour (host : string) (port : Z) (certfile : string)
    (w : world) :
  (string_truthy certfile = false ->
   create_socket host port certfile w = (Raise (APNSError MissingCertificate), w))
  /\ (string_truthy certfile = true -> w_readable w certfile = false ->
      create_socket host port certfile w
      = (Raise (APNSError (CertificateNotReadable certfile)), w))
  /\ (string_truthy certfile = true -> w_readable w certfile = true ->
      w_trace (snd (create_socket host port certfile w))
      = w_trace w ++ [EvConnect (w_next w) host port]
      /\ (forall h', h' <> w_next w ->
            w_socks (snd (create_socket host port certfile w)) h' = w_socks w h')
      /\ match w_peer w host port with
         | inl e => fst (create_socket host port certfile w) = Raise (IOError e)
         | inr p =>
             fst (create_socket host port certfile w) = Ok (w_next w)
             /\ w_socks (snd (create_socket host port certfile w)) (w_next w)
                = mkConn None (p_inbox p) (p_write_errors p) false
         end).
Proof.
  unfold create_socket. split; [|split].
  - intros H. now rewrite H.
  - intros H Hr. rewrite H. cbn [negb]. unfold bind, file_read. now rewrite Hr.
  - intros H Hr. rewrite H. cbn [negb]. unfold bind, file_read. rewrite Hr.
    cbn [negb]. unfold sock_connect.
    destruct (w_peer w host port) as [e|p]; cbn [fst snd w_trace new_sock log w_socks w_next].
    + split; [reflexivity|]. split; [|reflexivity].
      intros h' Hne. apply Nat.eqb_neq in Hne. now rewrite Hne.
    + split; [reflexivity|]. split.
      * intros h' Hne. apply Nat.eqb_neq in Hne. now rewrite Hne.
      * split; [reflexivity|]. now rewrite Nat.eqb_refl.
Qed.

Lemma create_socket_behaviour_witness :
  create_socket "gateway.push.apple.com" 2195 "" (quiet_world [])
  = (Raise (APNSError MissingCertificate), quiet_world []).
Proof.
  apply (proj1 (create_socket_behaviour "gateway.push.apple.com" 2195 "" (quiet_world []))).
  reflexivity.
Defined.

(** ** The error check: what is not an error, and the server's errors *)

(** X5: with the error timeout enabled, [check_errors] returns normally when
    its read gives nothing, times out ([socket.timeout]) or raises an
    [ssl.SSLError] whose message contains 'timed out'; an [ssl.SSLError] with
    another message and any other socket error are raised to the caller. *)
Theorem check_errors_silence_and_failures (h : handle) (config : Config) (w : world)
    (t : N) :
  APNS_ERROR_TIMEOUT config = Some t ->
  (fst (sock_recv h 6 w) = Ok [] -> fst (check_errors h config w) = Ok tt)
  /\ (fst (sock_recv h 6 w) = Raise (IOError socket_timeout) ->
      fst (check_errors h config w) = Ok tt)
  /\ (forall message,
        fst (sock_recv h 6 w) = Raise (IOError (ssl_SSLError message)) ->
        fst (check_errors h config w)
        = if contains "timed out" message
          then Ok tt
          else Raise (IOError (ssl_SSLError message)))
  /\ (forall message,
        fst (sock_recv h 6 w) = Raise (IOError (socket_error message)) ->
        fst (check_errors h config w) = Raise (IOError (socket_error message))).
Proof.
  intros Ht. rewrite (check_errors_on_read h config w t Ht).
  repeat split; intros; match goal with H : _ = _ |- _ => rewrite H end; reflexivity.
Qed.

Lemma check_errors_silence_and_failures_witness :
  fst (check_errors 0%nat sample_config
         (connected_world [Fails (ssl_SSLError "The read operation timed out")]))
  = Ok tt.
Proof.
  apply (proj1 (proj2 (proj2 (check_errors_silence_and_failures 0%nat sample_config
           (connected_world [Fails (ssl_SSLError "The read operation timed out")])
           500%N eq_refl)))
           "The read operation timed out"%string).
  reflexivity.
Defined.

(** X6: a response of command 8 with a status other than 0 raises the server
    error of that status, and the identifier it carries is the one whose four
    big-endian bytes the response holds: the identifier a frame was sent with
    comes back unchanged. *)
Theorem check_errors_server_error (h : handle) (config : Config) (w : world)
    (t : N) (status : byte) (identifier : Z) :
  APNS_ERROR_TIMEOUT config = Some t ->
  fst (sock_recv h 6 w) = Ok (x08 :: status :: be_bytes 4 identifier) ->
  status <> x00 ->
  0 <= identifier < 2 ^ 32 ->
  fst (check_errors h config w)
  = Raise (APNSServerError (Z_of_byte status) identifier).
Proof.
  intros Ht Hin Hs Hid.
  rewrite (check_errors_on_read h config w t Ht), Hin.
  assert (E : exists a b c d, be_bytes 4 identifier = [a; b; c; d])
    by (do 4 eexists; reflexivity).
  destruct E as (a & b & c & d & E). rewrite E, error_response_six.
  rewrite <- E, be_value_be_bytes_small by (cbn; lia).
  change (Z_of_byte x08 =? 8) with true. cbn [negb].
  destruct (Z_of_byte status =? 0) eqn:Z0; [|reflexivity].
  exfalso. apply Hs. apply Z_of_byte_inj. apply Z.eqb_eq in Z0. exact Z0.
Qed.

Lemma check_errors_server_error_witness :
  fst (check_errors 0%nat sample_config
         (connected_world [Data (x08 :: x08 :: be_bytes 4 70000)]))
  = Raise (APNSServerError (Z_of_byte x08) 70000).
Proof.
  apply (check_errors_server_error 0%nat sample_config
           (connected_world [Data (x08 :: x08 :: be_bytes 4 70000)]) 500%N x08 70000).
  - reflexivity.
  - reflexivity.
  - discriminate.
  - lia.
Defined.

(** ** When a frame can be packed *)

Lemma raises_pack_int (size : nat) (z : Z) :
  raises (pack_int size z) = negb ((0 <=? z) && (z <? 256 ^ Z.of_nat size)).
Proof.
  unfold pack_int. now destruct ((0 <=? z) && (z <? 256 ^ Z.of_nat size)).
Qed.

Lemma raises_struct_pack_cons (c : fmt_code) (f : list fmt_code) (v : pyval)
    (vs : list pyval) :
  raises (struct_pack (c :: f) (v :: vs))
  = (raises (pack_value c v) || raises (struct_pack f vs))%bool.
Proof.
  cbn [struct_pack]. destruct (pack_value c v); cbn [raises orb]; [|reflexivity].
  now destruct (struct_pack f vs).
Qed.

Lemma raises_false_pack_int (size : nat) (z : Z) :
  raises (pack_int size z) = false <-> 0 <= z < 256 ^ Z.of_nat size.
Proof.
  rewrite raises_pack_int, negb_false_iff, andb_true_iff, Z.leb_le, Z.ltb_lt. tauto.
Qed.

(** X7: [pack_frame] returns a frame exactly when the token is hexadecimal
    text of even length (of whatever length: it does not ask for 64
    characters), token and payload fit their two-byte length fields, and
    identifier, expiration and priority fit 32, 32 and 8 bits; otherwise it
    raises. *)
Theorem pack_frame_succeeds_iff (token : string) (payload : bytes)
    (identifier expiration priority : Z) :
  raises (pack_frame token payload identifier expiration priority) = false
  <-> (exists token_bin,
         unhexlify token = Ok token_bin
         /\ Z.of_nat (List.length token_bin) <= 65535)
      /\ Z.of_nat (List.length payload) <= 65535
      /\ 0 <= identifier < 2 ^ 32
      /\ 0 <= expiration < 2 ^ 32
      /\ 0 <= priority < 2 ^ 8.
Proof.
  destruct (unhexlify token) as [token_bin|e] eqn:Hun.
  - unfold pack_frame. rewrite Hun.
    rewrite !raises_struct_pack_cons. cbn [struct_pack raises].
    rewrite !pack_str_exact. cbn [pack_value code_size raises].
    rewrite !orb_false_iff, !raises_false_pack_int.
    change (256 ^ Z.of_nat 4) with (2 ^ 32). change (256 ^ Z.of_nat 1) with (2 ^ 8).
    change (256 ^ Z.of_nat 2) with 65536.
    split.
    + intros H. split; [exists token_bin; split; [reflexivity | lia] | lia].
    + intros ((tb & Htb & Hlen) & H). inversion Htb; subst tb.
      repeat split; lia.
  - unfold pack_frame. rewrite Hun. cbn [raises]. split; [discriminate|].
    intros ((tb & Htb & _) & _). discriminate Htb.
Qed.

Example pack_frame_short_token :
  raises (pack_frame "a1" hello 0 0 10) = false
  /\ raises (pack_frame "a1b" hello 0 0 10) = true
  /\ raises (pack_frame sample_token hello 0 0 256) = true
  /\ raises (pack_frame sample_token hello (-1) 0 10) = true.
Proof. repeat split. Qed.

(** ** Tokens as text and as bytes *)

Lemma length_hexlify (bs : bytes) : String.length (hexlify bs) = (2 * List.length bs)%nat.
Proof.
  apply unhexlify_length, unhexlify_hexlify.
Qed.

(** X8: the hexadecimal text [receive_feedback] reports for a token is
    accepted by [is_valid_token] exactly when the token has 32 bytes, and
    [unhexlify] gives those bytes back: an expired token of the feedback
    service can be handed to [send] as it is. *)
Theorem reported_token_is_valid (token_bin : bytes) :
  is_valid_token (hexlify token_bin) = Nat.eqb (List.length token_bin) 32
  /\ unhexlify (hexlify token_bin) = Ok token_bin.
Proof.
  split; [|apply unhexlify_hexlify].
  unfold is_valid_token. rewrite unhexlify_hexlify, length_hexlify.
  destruct token_bin as [|b bs]; [reflexivity|]. cbn [truthy].
  destruct (Nat.eqb_spec (List.length (b :: bs)) 32) as [E|E].
  - rewrite E. reflexivity.
  - apply Nat.eqb_neq. lia.
Qed.

Lemma hex_digit_lower (c : ascii) (v : Z) :
  hex_value c = Some v -> 0 <= v < 16 /\ hex_digit v = lower_char c.
Proof.
  destruct c as [[] [] [] [] [] [] [] []]; intros H; vm_compute in H;
    try discriminate H; injection H as <-; split; try lia; reflexivity.
Qed.

(** X9: the text of a token does not survive the way to bytes and back
    unchanged: [hexlify] of what [unhexlify] gives is the text in lower case,
    so the feedback service's report of a token sent in upper case differs
    from it in case only. *)
Theorem hexlify_unhexlify_lowers (s : string) (bs : bytes) :
  unhexlify s = Ok bs -> hexlify bs = lower s.
Proof.
  revert bs. induction s as [| a | a b rest IH] using string_pair_ind; intros bs H.
  - inversion H. reflexivity.
  - discriminate H.
  - cbn [unhexlify] in H.
    destruct (hex_value a) as [hi|] eqn:Ha; [|discriminate H].
    destruct (hex_value b) as [lo|] eqn:Hb; [|discriminate H].
    destruct (unhexlify rest) as [bs'|e]; [|discriminate H].
    assert (Hbs : bs = byte_of_Z (16 * hi + lo) :: bs') by congruence.
    subst bs. clear H.
    destruct (hex_digit_lower a hi Ha) as [Rhi Lhi].
    destruct (hex_digit_lower b lo Hb) as [Rlo Llo].
    cbn [hexlify lower]. rewrite (IH bs' eq_refl), Z_of_byte_of_Z.
    rewrite (Z.mod_small (16 * hi + lo) 256) by lia.
    replace ((16 * hi + lo) / 16) with hi
      by (apply (Z.div_unique (16 * hi + lo) 16 hi lo); lia).
    replace ((16 * hi + lo) mod 16) with lo
      by (apply (Z.mod_unique (16 * hi + lo) 16 hi lo); lia).
    now rewrite Lhi, Llo.
Qed.

Lemma hexlify_unhexlify_lowers_witness :
  hexlify (token_bytes other_token) = lower other_token.
Proof.
  apply (hexlify_unhexlify_lowers other_token (token_bytes other_token)).
  reflexivity.
Defined.

Example lower_other_token :
  lower other_token
  = "00112233445566778899aabbccddeeff00112233445566778899aabbccddeeff"%string.
Proof. reflexivity. Qed.

(** ** The feedback stream, record after record *)









(** ** Timeouts and failures while draining *)

Lemma turn_header_fails (h : handle) (acc : list (string * Z)) (w : world)
    (e : io_error) :
  fst (sock_recv h 6 w) = Raise (IOError e) ->
  receive_feedback_turn h acc w
  = (match e with
     | socket_timeout => Ok (true, acc)
     | ssl_SSLError message =>
         if contains "timed out" message then Ok (true, acc) else Raise (IOError e)
     | socket_error _ => Raise (IOError e)
     end, snd (sock_recv h 6 w)).
Proof.
  intros H. unfold receive_feedback_turn, try_except, bind.
  rewrite read_and_unpack_run.
  change (calcsize [fmt_L; fmt_H]) with 6%nat. rewrite H.
  unfold suppress_timeouts, raise, ret.
  destruct e as [| message | message]; try reflexivity.
  destruct (contains "timed out" message); reflexivity.
Qed.

(** X11: while draining, a timeout ([socket.timeout], or an [ssl.SSLError]
    whose message contains 'timed out') neither ends nor fails the loop: it
    reads again, with the records it has; when the timeout hits the read of a
    token, the header already read is dropped with it and the next six bytes
    are taken for a header.  Any other socket error is raised. *)
Theorem receive_feedback_timeouts (h : handle) (acc : list (string * Z)) (w : world)
    (fuel : nat) :
  (forall e,
     fst (sock_recv h 6 w) = Raise (IOError e) ->
     receive_feedback_loop (S fuel) h acc w
     = if match e with
          | socket_timeout => true
          | ssl_SSLError message => contains "timed out" message
          | socket_error _ => false
          end
       then receive_feedback_loop fuel h acc (snd (sock_recv h 6 w))
       else Some (Raise (IOError e), snd (sock_recv h 6 w)))
  /\ (forall t1 t2 t3 t4 l1 l2 e,
        fst (sock_recv h 6 w) = Ok [t1; t2; t3; t4; l1; l2] ->
        let w1 := snd (sock_recv h 6 w) in
        let n := Z.to_nat (be_value [l1; l2]) in
        fst (sock_recv h n w1) = Raise (IOError e) ->
        receive_feedback_loop (S fuel) h acc w
        = if match e with
             | socket_timeout => true
             | ssl_SSLError message => contains "timed out" message
             | socket_error _ => false
             end
          then receive_feedback_loop fuel h acc (snd (sock_recv h n w1))
          else Some (Raise (IOError e), snd (sock_recv h n w1))).
Proof.
  split.
  - intros e H. cbn [receive_feedback_loop]. rewrite (turn_header_fails h acc w e H).
    destruct e as [| message | message]; try reflexivity.
    destruct (contains "timed out" message); reflexivity.
  - intros t1 t2 t3 t4 l1 l2 e H w1 n Hbody. cbn [receive_feedback_loop].
    rewrite (turn_header_whole h acc w _ _ _ _ _ _ H). fold w1 n. rewrite Hbody.
    destruct e as [| message | message]; try reflexivity.
    destruct (contains "timed out" message); reflexivity.
Qed.

Lemma receive_feedback_timeouts_witness :
  receive_feedback_loop 3 0%nat []
    (connected_world [Fails socket_timeout; Data (feedback_record 7 [xa1; xb2])])
  = receive_feedback_loop 2 0%nat []
      (snd (sock_recv 0%nat 6
              (connected_world
                 [Fails socket_timeout; Data (feedback_record 7 [xa1; xb2])]))).
Proof.
  apply (proj1 (receive_feedback_timeouts 0%nat []
                  (connected_world
                     [Fails socket_timeout; Data (feedback_record 7 [xa1; xb2])]) 2%nat)
           socket_timeout).
  reflexivity.
Defined.

Example receive_feedback_timeout_in_token :
  option_map fst
    (receive_feedback 5 0%nat
       (connected_world
          [Data header_32; Fails socket_timeout; Data (repeat xa1 32);
           Data (feedback_record 7 [xa1; xb2])]))
  = Some (Raise struct_error).
Proof. reflexivity. Qed.

(** ** Draining the feedback service *)

Lemma snd_suppress_timeouts {A} (otherwise : A) (e : exn) (w : world) :
  snd (suppress_timeouts otherwise e w) = w.
Proof.
  unfold suppress_timeouts, raise, ret.
  destruct e as [| | | | | | [| message | message]]; try reflexivity.
  destruct (contains "timed out" message); reflexivity.
Qed.

Lemma snd_read_and_unpack (h : handle) (f : list fmt_code) (w : world) :
  snd (read_and_unpack h f w) = snd (sock_recv h (calcsize f) w).
Proof. now rewrite read_and_unpack_run. Qed.

(** The world after a turn of the loop is the world after its one or two
    reads. *)
Lemma turn_world (h : handle) (acc : list (string * Z)) (w : world) :
  snd (receive_feedback_turn h acc w) = snd (sock_recv h 6 w)
  \/ exists n,
       snd (receive_feedback_turn h acc w)
       = snd (sock_recv h n (snd (sock_recv h 6 w))).
Proof.
  unfold receive_feedback_turn, try_except, bind.
  destruct (read_and_unpack h [fmt_L; fmt_H] w) as [r1 w1] eqn:E1.
  assert (Hw1 : w1 = snd (sock_recv h 6 w)).
  { change 6%nat with (calcsize [fmt_L; fmt_H]).
    rewrite <- snd_read_and_unpack, E1. reflexivity. }
  destruct r1 as [[fields|]|e].
  - destruct fields as [|[timestamp|?] [|[token_length|?] [|? ?]]];
      try (left; cbn [raise]; rewrite snd_suppress_timeouts; exact Hw1).
    right. exists (calcsize [fmt_s (Z.to_nat token_length)]).
    destruct (read_and_unpack h [fmt_s (Z.to_nat token_length)] w1) as [r2 w2] eqn:E2.
    assert (Hw2 : w2 = snd (sock_recv h (calcsize [fmt_s (Z.to_nat token_length)]) w1)).
    { rewrite <- snd_read_and_unpack, E2. reflexivity. }
    subst w1.
    destruct r2 as [[[|[?|s] ?]|]|e]; cbn [raise ret snd];
      rewrite ?snd_suppress_timeouts; exact Hw2.
  - left. exact Hw1.
  - left. rewrite snd_suppress_timeouts. exact Hw1.
Qed.

Lemma sock_recv_trace (h : handle) (n : nat) (w : world) :
  w_trace (snd (sock_recv h n w)) = w_trace w ++ [EvRecv h n].
Proof.
  unfold sock_recv. now destruct (take_delivery n (c_inbox (w_socks w h))).
Qed.

Lemma turn_only_reads (h : handle) (acc : list (string * Z)) (w : world) :
  exists reads,
    w_trace (snd (receive_feedback_turn h acc w)) = w_trace w ++ reads
    /\ Forall (is_recv_on h) reads.
Proof.
  destruct (turn_world h acc w) as [H|[n H]]; rewrite H.
  - exists [EvRecv h 6]. rewrite sock_recv_trace.
    split; [reflexivity|]. repeat constructor. now exists 6%nat.
  - exists [EvRecv h 6; EvRecv h n]. rewrite !sock_recv_trace, <- app_assoc.
    split; [reflexivity|]. repeat constructor; [now exists 6%nat | now exists n].
Qed.

Lemma loop_only_reads (fuel : nat) :
  forall (h : handle) (acc : list (string * Z)) (w : world) out,
    receive_feedback_loop fuel h acc w = Some out ->
    exists reads,
      w_trace (snd out) = w_trace w ++ reads /\ Forall (is_recv_on h) reads.
Proof.
  induction fuel as [|fuel IH]; intros h acc w out H; [discriminate H|].
  cbn [receive_feedback_loop] in H.
  destruct (turn_only_reads h acc w) as (reads & Ht & Hr).
  destruct (receive_feedback_turn h acc w) as [[[[|] acc']|e] w'];
    cbn [snd] in Ht.
  - destruct (IH h acc' w' out H) as (reads' & Ht' & Hr').
    exists (reads ++ reads'). rewrite Ht', Ht, <- app_assoc.
    split; [reflexivity | now apply Forall_app].
  - inversion H; subst out. exists reads. now split.
  - inversion H; subst out. exists reads. now split.
Qed.

(** X12: whatever the stream, [receive_feedback] only reads from the socket
    it is given: it writes nothing, sets no timeout, closes nothing. *)
Theorem receive_feedback_only_reads (fuel : nat) (h : handle) (w : world)
    (out : result (list (string * Z)) * world) :
  receive_feedback fuel h w = Some out ->
  exists reads,
    w_trace (snd out) = w_trace w ++ reads /\ Forall (is_recv_on h) reads.
Proof.
  apply loop_only_reads.
Qed.

Lemma receive_feedback_only_reads_witness :
  exists reads,
    w_trace (snd (@Raise (list (string * Z)) struct_error,
                  snd (sock_recv 0%nat 6 short_header_stream)))
    = w_trace short_header_stream ++ reads
    /\ Forall (is_recv_on 0%nat) reads.
Proof.
  apply (receive_feedback_only_reads 4 0%nat short_header_stream).
  reflexivity.
Defined.

Lemma create_feedback_socket_up (config : Config) (w : world) (p : peer) :
  feedback_service_up config w p ->
  create_feedback_socket config w
  = (Ok (w_next w),
     new_sock (mkConn None (p_inbox p) (p_write_errors p) false)
       (log (EvConnect (w_next w) (APNS_FEEDBACK_HOST config) (APNS_FEEDBACK_PORT config))
            w)).
Proof.
  intros (Hcert & Hread & Hpeer).
  unfold create_feedback_socket, create_socket. rewrite Hcert. cbn [negb].
  unfold bind, file_read, sock_connect. rewrite Hread. cbn [negb]. now rewrite Hpeer.
Qed.



(** X14: [get_expired_tokens] opens nothing without a certificate that is
    configured and reads; once connected it ends on every finite stream,
    whatever the stream holds and whether draining it succeeds or raises,
    having only read from the connection, and it leaves the connection
    closed. *)
Theorem get_expired_tokens_closes (config : Config) (w : world) (fuel : nat) :
  (string_truthy (APNS_CERTIFICATE config) = false ->
   get_expired_tokens fuel config w = Some (Raise (APNSError MissingCertificate), w))
  /\ (string_truthy (APNS_CERTIFICATE config) = true ->
      w_readable w (APNS_CERTIFICATE config) = false ->
      get_expired_tokens fuel config w
      = Some (Raise (APNSError (CertificateNotReadable (APNS_CERTIFICATE config))), w))
  /\ (forall p,
        feedback_service_up config w p ->
        (pending (p_inbox p) < fuel)%nat ->
        exists r w' reads,
          get_expired_tokens fuel config w = Some (r, w')
          /\ w_trace w'
             = w_trace w
               ++ [EvConnect (w_next w) (APNS_FEEDBACK_HOST config)
                     (APNS_FEEDBACK_PORT config)]
               ++ reads ++ [EvClose (w_next w)]
          /\ Forall (is_recv_on (w_next w)) reads
          /\ c_closed (w_socks w' (w_next w)) = true).
Proof.
  split; [|split].
  - intros H. unfold get_expired_tokens, create_feedback_socket, create_socket.
    now rewrite H.
  - intros H Hr. unfold get_expired_tokens, create_feedback_socket, create_socket.
    rewrite H. cbn [negb]. unfold bind, file_read. now rewrite Hr.
  - intros p Hup Hfuel. unfold get_expired_tokens.
    rewrite (create_feedback_socket_up config w p Hup).
    set (h := w_next w).
    set (w1 := new_sock _ _).
    assert (Hin : c_inbox (w_socks w1 h) = p_inbox p).
    { subst w1 h. cbn. now rewrite Nat.eqb_refl. }
    destruct (receive_feedback_loop_terminates fuel h [] w1) as (r & w2 & Hrun).
    { now rewrite Hin. }
    unfold receive_feedback. rewrite Hrun.
    destruct (loop_only_reads _ _ _ _ _ Hrun) as (reads & Ht & Hr).
    exists r, (snd (sock_close h w2)), reads.
    split; [reflexivity|]. split; [|split; [exact Hr|]].
    + cbn [sock_close snd w_trace set_sock log]. cbn [snd] in Ht. rewrite Ht.
      subst w1. cbn [w_trace new_sock log]. now rewrite <- !app_assoc.
    + cbn [sock_close snd]. now rewrite set_sock_same.
Qed.

Lemma get_expired_tokens_closes_witness :
  exists r w' reads,
    get_expired_tokens 5 sample_config (quiet_world [Data [x3b; x9a; xca]])
    = Some (r, w')
    /\ w_trace w'
       = w_trace (quiet_world [Data [x3b; x9a; xca]])
         ++ [EvConnect 0%nat (APNS_FEEDBACK_HOST sample_config)
               (APNS_FEEDBACK_PORT sample_config)]
         ++ reads ++ [EvClose 0%nat]
    /\ Forall (is_recv_on 0%nat) reads
    /\ c_closed (w_socks w' 0%nat) = true.
Proof.
  apply (proj2 (proj2 (get_expired_tokens_closes sample_config
                         (quiet_world [Data [x3b; x9a; xca]]) 5%nat))
           (mkPeer [Data [x3b; x9a; xca]] [])).
  - repeat split.
  - cbn. lia.
Defined.

Example get_expired_tokens_short_read :
  option_map fst (get_expired_tokens 5 sample_config (quiet_world [Data [x3b; x9a; xca]]))
  = Some (Raise struct_error).
Proof. reflexivity. Qed.

(** ** [send] on a connection of its own *)

Lemma create_push_socket_answers (config : Config) (w : world) (p : peer) :
  push_gateway_answers config w p ->
  create_push_socket config w
  = (Ok (w_next w),
     new_sock (mkConn None (p_inbox p) (p_write_errors p) false)
       (log (EvConnect (w_next w) (APNS_HOST config) (APNS_PORT config)) w)).
Proof.
  intros (Hcert & Hread & Hpeer).
  unfold create_push_socket, create_socket. rewrite Hcert. cbn [negb].
  unfold bind, file_read, sock_connect. rewrite Hread. cbn [negb]. now rewrite Hpeer.
Qed.

Lemma push_gateway_answers_same (config : Config) (w w0 : world) (p : peer) :
  w_readable w0 = w_readable w -> w_peer w0 = w_peer w ->
  push_gateway_answers config w p -> push_gateway_answers config w0 p.
Proof.
  intros Hr Hp (H1 & H2 & H3). unfold push_gateway_answers. rewrite Hr, Hp. tauto.
Qed.

Lemma with_closing_run {A} (open : M handle) (body : handle -> M A) (w w1 : world)
    (h : handle) :
  open w = (Ok h, w1) ->
  with_closing open body w = (fst (body h w1), snd (sock_close h (snd (body h w1)))).
Proof.
  intros H. unfold with_closing. rewrite (bind_ok _ _ _ _ _ H).
  apply try_finally_close.
Qed.

Lemma closed_after_close (h : handle) (w : world) :
  c_closed (w_socks (snd (sock_close h w)) h) = true
  /\ w_trace (snd (sock_close h w)) = w_trace w ++ [EvClose h].
Proof.
  cbn [sock_close snd]. rewrite set_sock_same. split; reflexivity.
Qed.

(** The world in which [send] packs its frame: the payload is there and the
    clock has been read if no expiration was given. *)
Lemma send_until_frame {Alert Options : Type} (create_payload : Alert -> Options -> bytes)
    (token : string) (alert : Alert) (config : Config)
    (identifier : Z) (expiration : option Z) (priority : Z)
    (payload : option bytes) (connection : option handle) (options : Options)
    (w : world) :
  let p := effective_payload create_payload alert options payload in
  is_hex64 token = true ->
  Z.of_nat (List.length p) <= APNS_MAX_NOTIFICATION_SIZE config ->
  send create_payload token alert config identifier expiration priority
       payload connection options w
  = (frame <- lift (pack_frame token p identifier
                      (expiration_at config expiration (w_clock w) (w_ticks w)) priority) ;;
     match connection with
     | Some connection => sock_write connection frame
     | None =>
         with_closing (create_push_socket config)
           (fun _connection =>
              sock_write _connection frame ;; check_errors _connection config)
     end)
      (advance [] (clock_reads expiration) (payload_ready payload w)).
Proof.
  intros p Htok Hmax. unfold send.
  rewrite is_valid_token_hex64, Htok. cbn [negb].
  rewrite (bind_ok _ _ _ _ _ (payload_ready_run create_payload alert options payload w)).
  fold p.
  replace (Z.of_nat (List.length p) >? APNS_MAX_NOTIFICATION_SIZE config) with false
    by (symmetry; rewrite Z.gtb_ltb; apply Z.ltb_ge; lia).
  assert (Hc : w_clock (payload_ready payload w) = w_clock w)
    by (destruct payload; reflexivity).
  assert (Ht : w_ticks (payload_ready payload w) = w_ticks w)
    by (destruct payload; reflexivity).
  destruct expiration as [e|]; cbn [expiration_at clock_reads].
  - rewrite (bind_ok (ret e) _ _ _ e eq_refl). now rewrite advance_nil.
  - erewrite (bind_ok (now <- time_time ;; ret (now + APNS_DEFAULT_EXPIRATION_OFFSET config)))
      by reflexivity.
    rewrite Hc, Ht. f_equal.
    apply world_eq; cbn; try reflexivity; [now rewrite app_nil_r | lia].
Qed.

Lemma trace_payload_ready (payload : option bytes) (w : world) :
  w_trace (payload_ready payload w) = w_trace w ++ payload_mark payload.
Proof.
  destruct payload; cbn; [now rewrite app_nil_r | reflexivity].
Qed.

(** X15: for a valid token, a payload within the limit and a frame that can
    be packed, the gateway being reachable, [send] without a connection opens
    one, writes the one frame, checks for an error response, whose outcome is
    the outcome of [send], and closes the connection. *)
Theorem send_opens_writes_checks_closes {Alert Options : Type}
    (create_payload : Alert -> Options -> bytes)
    (token : string) (alert : Alert) (config : Config)
    (identifier : Z) (expiration : option Z) (priority : Z)
    (payload : option bytes) (options : Options) (w : world) (inbox : list delivery) :
  let p := effective_payload create_payload alert options payload in
  let h := w_next w in
  let opened := mkConn None inbox [] false in
  let frame := notification_frame token p identifier
                 (expiration_at config expiration (w_clock w) (w_ticks w)) priority in
  let run := send create_payload token alert config identifier expiration priority
                  payload None options w in
  is_hex64 token = true ->
  Z.of_nat (List.length p) <= APNS_MAX_NOTIFICATION_SIZE config ->
  Z.of_nat (List.length p) <= 65535 ->
  0 <= identifier < 2 ^ 32 ->
  0 <= priority < 2 ^ 8 ->
  0 <= expiration_at config expiration (w_clock w) (w_ticks w) < 2 ^ 32 ->
  push_gateway_up config w inbox ->
  fst run = check_errors_outcome config opened
  /\ w_trace (snd run)
     = w_trace w ++ payload_mark payload
       ++ [EvConnect h (APNS_HOST config) (APNS_PORT config); EvWrite h frame;
           EvCheckErrors h]
       ++ check_errors_calls config h opened ++ [EvClose h]
  /\ c_closed (w_socks (snd run) h) = true.
Proof.
  intros p h opened frame run Htok Hmax Hpay Hid Hprio Hexp Hup.
  destruct (token_bytes_valid token Htok) as [Hun Hlen].
  subst run.
  rewrite (send_until_frame create_payload token alert config identifier expiration
             priority payload None options w Htok Hmax).
  fold p.
  set (w0 := advance [] (clock_reads expiration) (payload_ready payload w)).
  assert (Hframe : pack_frame token p identifier
                     (expiration_at config expiration (w_clock w) (w_ticks w)) priority
                   = Ok frame)
    by (apply pack_frame_bytes; assumption).
  rewrite (bind_ok _ _ w0 w0 frame) by (unfold lift; now rewrite Hframe).
  assert (Hans : push_gateway_answers config w0 (mkPeer inbox [])).
  { apply (push_gateway_answers_same config w); [| |exact Hup];
      subst w0; destruct payload; reflexivity. }
  rewrite (with_closing_run _ _ w0 _ _ (create_push_socket_answers config w0 _ Hans)).
  cbn [p_inbox p_write_errors].
  assert (Hnext : w_next w0 = h) by (subst w0 h; destruct payload; reflexivity).
  rewrite Hnext.
  set (w1 := new_sock opened (log (EvConnect h (APNS_HOST config) (APNS_PORT config)) w0)).
  assert (Hsock : w_socks w1 h = opened).
  { subst w1. cbn [w_socks new_sock log w_next]. now rewrite Hnext, Nat.eqb_refl. }
  assert (Hwrite : sock_write h frame w1 = (Ok tt, log (EvWrite h frame) w1)).
  { unfold sock_write. now rewrite Hsock. }
  rewrite (bind_ok _ _ _ _ _ Hwrite).
  destruct (check_errors_spec h config (log (EvWrite h frame) w1)) as [Hout Heff].
  change (w_socks (log (EvWrite h frame) w1) h) with (w_socks w1 h) in Hout, Heff.
  rewrite Hsock in Hout, Heff.
  destruct (closed_after_close h (snd (check_errors h config (log (EvWrite h frame) w1))))
    as [Hclosed Htrace].
  cbn [fst snd]. split; [exact Hout|]. split; [|exact Hclosed].
  rewrite Htrace, (eff_trace _ _ _ _ _ Heff).
  subst w1 w0. cbn [w_trace log new_sock advance].
  rewrite trace_payload_ready, app_nil_r. now rewrite <- !app_assoc.
Qed.

Lemma send_opens_writes_checks_closes_witness :
  fst (send alert_payload sample_token hello sample_config 0 None 10 None None tt
         (quiet_world [Data [x08; x08; x00; x00; x00; x00]]))
  = check_errors_outcome sample_config
      (mkConn None [Data [x08; x08; x00; x00; x00; x00]] [] false)
  /\ c_closed
       (w_socks
          (snd (send alert_payload sample_token hello sample_config 0 None 10 None None tt
                  (quiet_world [Data [x08; x08; x00; x00; x00; x00]]))) 0%nat)
     = true.
Proof.
  pose proof (send_opens_writes_checks_closes alert_payload sample_token hello
                sample_config 0 None 10 None tt
                (quiet_world [Data [x08; x08; x00; x00; x00; x00]])
                [Data [x08; x08; x00; x00; x00; x00]]) as H.
  cbv zeta in H.
  destruct H as (Hres & _ & Hclosed).
  - reflexivity.
  - cbn. lia.
  - cbn. lia.
  - lia.
  - lia.
  - cbn. lia.
  - repeat split.
  - split; [exact Hres | exact Hclosed].
Defined.

Example send_reports_server_error :
  fst (send alert_payload sample_token hello sample_config 0 None 10 None None tt
         (quiet_world [Data [x08; x08; x00; x00; x00; x00]]))
  = Raise (APNSServerError 8 0).
Proof. reflexivity. Qed.

(** X16: [send] packs the frame before it opens a connection: when the frame
    cannot be packed (an identifier, expiration or priority out of range, a
    payload over 65535 bytes), [send] raises [struct.error] having made no
    network call and created no socket. *)
Theorem send_packs_before_connecting {Alert Options : Type}
    (create_payload : Alert -> Options -> bytes)
    (token : string) (alert : Alert) (config : Config)
    (identifier : Z) (expiration : option Z) (priority : Z)
    (payload : option bytes) (connection : option handle) (options : Options)
    (w : world) :
  let p := effective_payload create_payload alert options payload in
  let run := send create_payload token alert config identifier expiration priority
                  payload connection options w in
  is_hex64 token = true ->
  Z.of_nat (List.length p) <= APNS_MAX_NOTIFICATION_SIZE config ->
  raises (pack_frame token p identifier
            (expiration_at config expiration (w_clock w) (w_ticks w)) priority) = true ->
  fst run = Raise struct_error
  /\ net_trace (snd run) = net_trace w
  /\ w_next (snd run) = w_next w
  /\ w_socks (snd run) = w_socks w.
Proof.
  intros p run Htok Hmax Hraise. subst run.
  rewrite (send_until_frame create_payload token alert config identifier expiration
             priority payload connection options w Htok Hmax).
  fold p.
  destruct (pack_frame token p identifier
              (expiration_at config expiration (w_clock w) (w_ticks w)) priority)
    as [frame|e] eqn:E; [discriminate Hraise|].
  assert (He : e = struct_error).
  { destruct (token_bytes_valid token Htok) as [Hun _].
    unfold pack_frame in E. rewrite Hun in E. now apply struct_pack_raises in E. }
  subst e. unfold bind, lift. cbn [fst snd].
  split; [reflexivity|].
  destruct (payload_ready_quiet payload w) as (H1 & H2 & H3 & _).
  rewrite net_trace_advance. cbn [filter w_next w_socks advance].
  rewrite app_nil_r. repeat split; assumption.
Qed.

Lemma send_packs_before_connecting_witness :
  fst (send alert_payload sample_token hello sample_config 0 None 256 None None tt
         (quiet_world []))
  = Raise struct_error
  /\ net_trace (snd (send alert_payload sample_token hello sample_config 0 None 256 None
                       None tt (quiet_world [])))
     = net_trace (quiet_world [])
  /\ w_next (snd (send alert_payload sample_token hello sample_config 0 None 256 None
                    None tt (quiet_world [])))
     = w_next (quiet_world [])
  /\ w_socks (snd (send alert_payload sample_token hello sample_config 0 None 256 None
                     None tt (quiet_world [])))
     = w_socks (quiet_world []).
Proof.
  apply (send_packs_before_connecting alert_payload sample_token hello sample_config
           0 None 256 None None tt (quiet_world [])).
  - reflexivity.
  - cbn. lia.
  - reflexivity.
Defined.

(** ** [send] on a connection of the caller *)

Lemma count_payload_mark (payload : option bytes) :
  count is_write (payload_mark payload) = 0%nat.
Proof. now destruct payload. Qed.

Lemma payload_mark_marks (h : handle) (payload : option bytes) :
  Forall (is_mark_or_write_on h) (payload_mark payload).
Proof.
  destruct payload; cbn [payload_mark]; repeat constructor.
Qed.

(** X17: on a connection handed in by the caller, [send] does nothing but
    write, at most once: whatever its arguments and its outcome, it opens no
    connection, reads nothing, makes no error check, and leaves the
    connection open with its timeout and its pending data as they were. *)
Theorem send_on_connection_only_writes {Alert Options : Type}
    (create_payload : Alert -> Options -> bytes)
    (token : string) (alert : Alert) (config : Config)
    (identifier : Z) (expiration : option Z) (priority : Z)
    (payload : option bytes) (h : handle) (options : Options) (w : world) :
  exists events,
    w_trace (snd (send create_payload token alert config identifier expiration priority
                       payload (Some h) options w))
    = w_trace w ++ events
    /\ Forall (is_mark_or_write_on h) events
    /\ (count is_write events <= 1)%nat
    /\ w_next (snd (send create_payload token alert config identifier expiration priority
                         payload (Some h) options w))
       = w_next w
    /\ c_timeout (w_socks (snd (send create_payload token alert config identifier
                                     expiration priority payload (Some h) options w)) h)
       = c_timeout (w_socks w h)
    /\ c_inbox (w_socks (snd (send create_payload token alert config identifier
                                   expiration priority payload (Some h) options w)) h)
       = c_inbox (w_socks w h)
    /\ c_closed (w_socks (snd (send create_payload token alert config identifier
                                    expiration priority payload (Some h) options w)) h)
       = c_closed (w_socks w h).
Proof.
  destruct (payload_ready_quiet payload w) as (_ & Hsocks & Hnext & _).
  pose proof (trace_payload_ready payload w) as Htrace.
  destruct (is_hex64 token) eqn:Htok.
  2:{ rewrite send_bad_token by assumption. exists []. cbn [snd count filter List.length].
      rewrite app_nil_r. repeat split; try reflexivity; [constructor | lia]. }
  destruct (Z.of_nat (List.length (effective_payload create_payload alert options payload))
            >? APNS_MAX_NOTIFICATION_SIZE config) eqn:L.
  { rewrite send_oversize by (try assumption; now apply Z.gtb_gt).
    exists (payload_mark payload). cbn [snd].
    rewrite Htrace, Hsocks, Hnext, count_payload_mark.
    repeat split; try reflexivity; [apply payload_mark_marks | lia]. }
  rewrite send_until_frame
    by (try assumption; rewrite Z.gtb_ltb in L; apply Z.ltb_ge in L; lia).
  set (w0 := advance [] (clock_reads expiration) (payload_ready payload w)).
  assert (Ht0 : w_trace w0 = w_trace w ++ payload_mark payload)
    by (subst w0; cbn [w_trace advance]; now rewrite app_nil_r).
  assert (Hs0 : w_socks w0 = w_socks w) by (subst w0; exact Hsocks).
  assert (Hn0 : w_next w0 = w_next w) by (subst w0; exact Hnext).
  unfold bind, lift.
  destruct (pack_frame _ _ _ _ _) as [frame|e].
  - exists (payload_mark payload ++ [EvWrite h frame]).
    assert (Hmarks : Forall (is_mark_or_write_on h) (payload_mark payload ++ [EvWrite h frame])).
    { apply Forall_app. split; [apply payload_mark_marks|].
      constructor; [|constructor]. right. now exists frame. }
    assert (Hcount : (count is_write (payload_mark payload ++ [EvWrite h frame]) <= 1)%nat).
    { rewrite count_app, count_payload_mark. cbn. lia. }
    unfold sock_write.
    destruct (c_write_errors (w_socks w0 h)) as [|[io|] rest];
      cbn [snd w_trace w_next log set_sock]; rewrite ?set_sock_same;
      change (w_socks (log (EvWrite h frame) w0) h) with (w_socks w0 h);
      rewrite Ht0, Hs0, Hn0, <- app_assoc; repeat split; assumption || reflexivity.
  - exists (payload_mark payload). cbn [snd].
    rewrite Ht0, Hs0, Hn0, count_payload_mark.
    repeat split; try reflexivity; [apply payload_mark_marks | lia].
Qed.

(** ** Connections are closed *)

(** X18: a connection that [send] or [send_bulk] has opened is closed when
    they return or raise, and closing it is the last thing they do: whatever
    the tokens and the payload, whether the peer takes or refuses the writes,
    and whatever it answers. *)
Theorem connections_are_closed {Alert Options : Type}
    (create_payload : Alert -> Options -> bytes) (alert : Alert) (config : Config)
    (w : world) (p : peer) :
  push_gateway_answers config w p ->
  (forall token identifier expiration priority payload options,
     is_hex64 token = true ->
     Z.of_nat (List.length (effective_payload create_payload alert options payload))
     <= APNS_MAX_NOTIFICATION_SIZE config ->
     raises (pack_frame token (effective_payload create_payload alert options payload)
               identifier (expiration_at config expiration (w_clock w) (w_ticks w))
               priority) = false ->
     c_closed (w_socks (snd (send create_payload token alert config identifier expiration
                                  priority payload None options w)) (w_next w)) = true
     /\ exists before,
          w_trace (snd (send create_payload token alert config identifier expiration
                             priority payload None options w))
          = before ++ [EvClose (w_next w)])
  /\ (forall tokens payload options,
        c_closed (w_socks (snd (send_bulk create_payload tokens alert config payload
                                          options w)) (w_next w)) = true
        /\ exists before,
             w_trace (snd (send_bulk create_payload tokens alert config payload options w))
             = before ++ [EvClose (w_next w)]).
Proof.
  intros Hans. split.
  - intros token identifier expiration priority payload options Htok Hmax Hpack.
    rewrite (send_until_frame create_payload token alert config identifier expiration
               priority payload None options w Htok Hmax).
    set (w0 := advance [] (clock_reads expiration) (payload_ready payload w)).
    destruct (pack_frame _ _ _ _ _) as [frame|e]; [|discriminate Hpack].
    rewrite (bind_ok (lift (Ok frame)) _ w0 w0 frame eq_refl).
    assert (Hans0 : push_gateway_answers config w0 p).
    { apply (push_gateway_answers_same config w); [| |exact Hans];
        subst w0; destruct payload; reflexivity. }
    rewrite (with_closing_run _ _ w0 _ _ (create_push_socket_answers config w0 p Hans0)).
    assert (Hnext : w_next w0 = w_next w) by (subst w0; destruct payload; reflexivity).
    rewrite Hnext. cbn [snd].
    match goal with
    | |- context [sock_close ?h ?w4] => destruct (closed_after_close h w4) as [Hc Ht]
    end.
    split; [exact Hc | eexists; exact Ht].
  - intros tokens payload options. unfold send_bulk.
    rewrite (bind_ok _ _ _ _ _
               (payload_ready_run create_payload alert (kw_fields options) payload w)).
    assert (Hans0 : push_gateway_answers config (payload_ready payload w) p).
    { apply (push_gateway_answers_same config w); [| |exact Hans];
        destruct payload; reflexivity. }
    rewrite (with_closing_run _ _ _ _ _
               (create_push_socket_answers config (payload_ready payload w) p Hans0)).
    assert (Hnext : w_next (payload_ready payload w) = w_next w)
      by (destruct payload; reflexivity).
    rewrite Hnext. cbn [snd].
    match goal with
    | |- context [sock_close ?h ?w4] => destruct (closed_after_close h w4) as [Hc Ht]
    end.
    split; [exact Hc | eexists; exact Ht].
Qed.

Lemma connections_are_closed_witness :
  c_closed
    (w_socks
       (snd (send alert_payload sample_token hello sample_config 7 None 10 None None tt
               refusing_world)) 0%nat)
  = true
  /\ c_closed
       (w_socks
          (snd (send_bulk alert_payload [sample_token; other_token; "zz"%string] hello
                  sample_config None no_options refusing_world)) 0%nat)
     = true.
Proof.
  pose proof (connections_are_closed alert_payload hello sample_config refusing_world
                (mkPeer [] [None; Some (socket_error "Broken pipe")])
                ltac:(repeat split)) as [Hsend Hbulk].
  split.
  - apply (Hsend sample_token 7 None 10 None tt).
    + reflexivity.
    + cbn. lia.
    + reflexivity.
  - apply (Hbulk [sample_token; other_token; "zz"%string] None no_options).
Defined.

Example send_bulk_broken_pipe :
  let (r, w') :=
    send_bulk alert_payload [sample_token; other_token; sample_token] hello
      sample_config None no_options
      refusing_world in
  r = Raise (IOError (socket_error "Broken pipe"))
  /\ count is_write (w_trace w') = 2%nat
  /\ count is_check_errors (w_trace w') = 0%nat.
Proof. vm_compute. repeat split. Qed.

(** ** The empty batch *)

(** X19: [send_bulk] on no token validates nothing, not even the size of the
    payload: the gateway being reachable, it builds the payload if none is
    given, opens the connection, writes nothing, makes the error check, whose
    outcome is its outcome, and closes the connection. *)
Theorem send_bulk_empty_batch {Alert Options : Type}
    (create_payload : Alert -> Options -> bytes) (alert : Alert) (config : Config)
    (payload : option bytes) (options : BulkOptions Options) (w : world)
    (inbox : list delivery) :
  push_gateway_up config w inbox ->
  fst (send_bulk create_payload [] alert config payload options w)
  = check_errors_outcome config (mkConn None inbox [] false)
  /\ w_trace (snd (send_bulk create_payload [] alert config payload options w))
     = w_trace w ++ payload_mark payload
       ++ [EvConnect (w_next w) (APNS_HOST config) (APNS_PORT config);
           EvCheckErrors (w_next w)]
       ++ check_errors_calls config (w_next w) (mkConn None inbox [] false)
       ++ [EvClose (w_next w)].
Proof.
  intros Hup.
  rewrite (send_bulk_unfold create_payload [] alert config payload options w inbox Hup).
  cbn [enumerate enumerate_from for_each].
  set (h := w_next w).
  set (w2 := new_sock _ _).
  rewrite (bind_ok (ret tt) _ w2 w2 tt eq_refl).
  destruct (check_errors_spec h config w2) as [Hout Heff].
  assert (Hsock : w_socks w2 h = mkConn None inbox [] false).
  { subst w2 h. destruct payload; cbn; now rewrite Nat.eqb_refl. }
  rewrite Hsock in Hout, Heff. cbn [fst snd].
  split; [exact Hout|].
  destruct (closed_after_close h (snd (check_errors h config w2))) as [_ Ht].
  rewrite Ht, (eff_trace _ _ _ _ _ Heff). subst w2.
  cbn [w_trace new_sock log]. rewrite trace_payload_ready. now rewrite <- !app_assoc.
Qed.

Lemma send_bulk_empty_batch_witness :
  fst (send_bulk alert_payload [] six_bytes tight_config None no_options (quiet_world []))
  = check_errors_outcome tight_config (mkConn None [] [] false).
Proof.
  apply (proj1 (send_bulk_empty_batch alert_payload six_bytes tight_config None no_options
                  (quiet_world []) [] ltac:(repeat split))).
Defined.
